(** * Autonomous-Guitar: the Arduino control layer

    A shallow embedding of [ServoControl.cpp] and [RemoteControl.cpp]
    (Arduino/libraries/Control Layer) and the properties of the serial
    packet dispatcher and of the sync-relative scheduler.

    Conventions of the embedding.
    - C++ integers are [Z]; a conversion to a fixed width is written out
      ([to_uint32], [to_int16]) where the source converts.
    - The bytes waiting in the UART receive queue are a [list byte]; what the
      firmware printed is a list of [tx_item].
    - [millis()] reads the field [millis] of the world.  A call of [handle()]
      is taken to be instantaneous; time moves between calls and inside
      [delay].
    - Code that mutates the object or the globals is written in a small
      state monad [M] over [World]. *)

From Stdlib Require Import ZArith List String Bool Lia.
From Stdlib Require Import Strings.Byte.
Import ListNotations.
Local Open Scope Z_scope.

(** ** Fixed-width integers *)

Definition to_uint32 (x : Z) : Z := x mod 2 ^ 32.

Definition to_int16 (x : Z) : Z := (x + 2 ^ 15) mod 2 ^ 16 - 2 ^ 15.

(** The value [Serial.read()] returns for a byte of the queue: 0..255. *)
Definition byte_val (b : byte) : Z := Z.of_N (Byte.to_N b).

(** ** C arrays as lists, indexed by [Z]

    Every access of the source is guarded so that the index is inside the
    array; outside of it (undefined behaviour in C++) [array_get] yields the
    default and [array_set] leaves the array as it is. *)

Definition array_get {A : Type} (d : A) (a : list A) (i : Z) : A :=
  nth (Z.to_nat i) a d.

Fixpoint list_set {A : Type} (a : list A) (n : nat) (x : A) : list A :=
  match a, n with
  | [], _ => []
  | _ :: t, O => x :: t
  | h :: t, S n' => h :: list_set t n' x
  end.

Definition array_set {A : Type} (a : list A) (i : Z) (x : A) : list A :=
  list_set a (Z.to_nat i) x.

(** ** The Arduino core's [map] (WMath.cpp): integer rescaling with C's
    truncating division.  Every call below stays far inside [long]. *)

Definition arduino_map (x in_min in_max out_min out_max : Z) : Z :=
  Z.quot ((x - in_min) * (out_max - out_min)) (in_max - in_min) + out_min.

(** ** ServoControl.h / ServoControl.cpp *)

Definition MAX_BOARDS : Z := 2.
Definition MAX_SERVOS : Z := 18.
Definition PWM_MIN_MICROSEC : Z := 400.
Definition PWM_MAX_MICROSEC : Z := 2600.
Definition MAX_SERVO_ANGLE : Z := 180.
Definition PWM_FREQUENCY : Z := 60.

(** What the firmware asks of the I2C bus and of the PCA9685 drivers. *)
Inductive hw_event : Type :=
| WireBegin
| BoardBegin (board addr : Z)
| SetPWMFreq (board freq : Z)
| SetPWM (board channel on off : Z).

(** The file-scope variables of ServoControl.cpp, and the hardware trace. *)
Record ServoControl : Type := mkServoControl {
  servomin : Z;
  servomax : Z;
  numBoards : Z;
  servoBoard : list Z;
  servoChannel : list Z;
  hw : list hw_event
}.

(** Statics and globals start zeroed. *)
Definition servo_globals : ServoControl :=
  {| servomin := 0; servomax := 0; numBoards := 0;
     servoBoard := repeat 0 (Z.to_nat MAX_SERVOS);
     servoChannel := repeat 0 (Z.to_nat MAX_SERVOS);
     hw := [] |}.

(** The indices [0; 1; ...; n-1] of a counted [for] loop. *)
Definition indices (n : Z) : list Z := map Z.of_nat (seq 0 (Z.to_nat n)).

Definition setupServoDrivers (i2cAddrs : list Z) (count : Z)
  (sv : ServoControl) : ServoControl :=
  let nb := if count <? MAX_BOARDS then count else MAX_BOARDS in
  let period := Z.quot 1000000 PWM_FREQUENCY in
  {| servomin := arduino_map PWM_MIN_MICROSEC 0 period 0 4096;
     servomax := arduino_map PWM_MAX_MICROSEC 0 period 0 4096;
     numBoards := nb;
     servoBoard := map (fun _ => 0) (indices MAX_SERVOS);
     servoChannel := map (fun s => if s <? 16 then s else 0) (indices MAX_SERVOS);
     hw := hw sv ++ [WireBegin]
           ++ flat_map (fun i => [BoardBegin i (array_get 0 i2cAddrs i);
                                  SetPWMFreq i PWM_FREQUENCY])
                       (indices nb) |}.

Definition setServoMapping (servoIndex boardIndex channel : Z)
  (sv : ServoControl) : ServoControl :=
  if (0 <=? servoIndex) && (servoIndex <? MAX_SERVOS)
     && (0 <=? boardIndex) && (boardIndex <? numBoards sv)
     && (0 <=? channel) && (channel <? 16)
  then {| servomin := servomin sv; servomax := servomax sv;
          numBoards := numBoards sv;
          servoBoard := array_set (servoBoard sv) servoIndex boardIndex;
          servoChannel := array_set (servoChannel sv) servoIndex channel;
          hw := hw sv |}
  else sv.

Definition angleToPulse (angle : Z) (sv : ServoControl) : Z :=
  let angle := if angle <? 0 then 0 else angle in
  let angle := if angle >? MAX_SERVO_ANGLE then MAX_SERVO_ANGLE else angle in
  arduino_map angle 0 MAX_SERVO_ANGLE (servomin sv) (servomax sv).

Definition setServoAngle (servoIndex angle : Z) (sv : ServoControl)
  : ServoControl :=
  if (servoIndex <? 0) || (servoIndex >=? MAX_SERVOS) then sv
  else
    let b := array_get 0 (servoBoard sv) servoIndex in
    let c := array_get 0 (servoChannel sv) servoIndex in
    let pulse := angleToPulse angle sv in
    if (b <? numBoards sv) && (c <? 16)
    then {| servomin := servomin sv; servomax := servomax sv;
            numBoards := numBoards sv;
            servoBoard := servoBoard sv; servoChannel := servoChannel sv;
            hw := hw sv ++ [SetPWM b c 0 pulse] |}
    else sv.

(** ** RemoteControl.h *)

Definition MAX_COMMANDS : Z := 1.

Record Command : Type := mkCommand {
  targetIndex : Z;      (* uint8_t *)
  angle : Z;            (* uint8_t *)
  relativeDelay : Z     (* uint32_t *)
}.

(** The data members of the [RemoteControl] object. *)
Record RemoteControl : Type := mkRemoteControl {
  commandBuffer : list Command;
  commandCount : Z;
  syncReceived : bool;
  syncStartTime : Z;
  debugEnabled : bool
}.

(** ** The world the firmware runs in *)

Inductive text : Type :=
| Str (s : string)
| Num (n : Z).

Inductive tx_item : Type :=
| Print (t : text)
| Println (t : text).

Record World : Type := mkWorld {
  rc : RemoteControl;         (* the object *)
  rx : list byte;             (* Serial: bytes received, not yet read *)
  tx : list tx_item;          (* Serial: what was printed, oldest first *)
  millis : Z;                 (* the millisecond clock *)
  servo : ServoControl;       (* ServoControl.cpp's globals *)
  moves : list (Z * Z)        (* every setServoAngle(index, angle) call *)
}.

Definition with_rc (f : RemoteControl -> RemoteControl) (w : World) : World :=
  {| rc := f (rc w); rx := rx w; tx := tx w; millis := millis w;
     servo := servo w; moves := moves w |}.

Definition put_commandBuffer (b : list Command) (r : RemoteControl) :=
  {| commandBuffer := b; commandCount := commandCount r;
     syncReceived := syncReceived r; syncStartTime := syncStartTime r;
     debugEnabled := debugEnabled r |}.

Definition put_commandCount (n : Z) (r : RemoteControl) :=
  {| commandBuffer := commandBuffer r; commandCount := n;
     syncReceived := syncReceived r; syncStartTime := syncStartTime r;
     debugEnabled := debugEnabled r |}.

Definition put_syncReceived (b : bool) (r : RemoteControl) :=
  {| commandBuffer := commandBuffer r; commandCount := commandCount r;
     syncReceived := b; syncStartTime := syncStartTime r;
     debugEnabled := debugEnabled r |}.

Definition put_syncStartTime (t : Z) (r : RemoteControl) :=
  {| commandBuffer := commandBuffer r; commandCount := commandCount r;
     syncReceived := syncReceived r; syncStartTime := t;
     debugEnabled := debugEnabled r |}.

Definition put_debugEnabled (b : bool) (r : RemoteControl) :=
  {| commandBuffer := commandBuffer r; commandCount := commandCount r;
     syncReceived := syncReceived r; syncStartTime := syncStartTime r;
     debugEnabled := b |}.

(** ** A state monad over the world *)

Definition M (A : Type) : Type := World -> A * World.

Definition ret {A : Type} (a : A) : M A := fun w => (a, w).

Definition bind {A B : Type} (m : M A) (k : A -> M B) : M B :=
  fun w => match m w with (a, w') => k a w' end.

Notation "x <- m ;; k" := (bind m (fun x => k))
  (at level 61, m at next level, right associativity).
Notation "m ;; k" := (bind m (fun _ => k))
  (at level 61, right associativity).

Definition get {A : Type} (f : RemoteControl -> A) : M A :=
  fun w => (f (rc w), w).

Definition modify (f : RemoteControl -> RemoteControl) : M unit :=
  fun w => (tt, with_rc f w).

Definition run {A : Type} (m : M A) (w : World) : World := snd (m w).

(** *** Serial *)

Definition Serial_available : M Z :=
  fun w => (Z.of_nat (List.length (rx w)), w).

Definition Serial_peek : M Z :=
  fun w => (match rx w with [] => -1 | b :: _ => byte_val b end, w).

Definition Serial_read : M Z :=
  fun w =>
    match rx w with
    | [] => (-1, w)
    | b :: rest =>
        (byte_val b,
         {| rc := rc w; rx := rest; tx := tx w; millis := millis w;
            servo := servo w; moves := moves w |})
    end.

Definition Serial_write (o : tx_item) : M unit :=
  fun w =>
    (tt, {| rc := rc w; rx := rx w; tx := tx w ++ [o]; millis := millis w;
            servo := servo w; moves := moves w |}).

Definition Serial_print (t : text) : M unit := Serial_write (Print t).
Definition Serial_println (t : text) : M unit := Serial_write (Println t).

(** *** Clock *)

Definition get_millis : M Z := fun w => (millis w, w).

Definition delay (ms : Z) : M unit :=
  fun w =>
    (tt, {| rc := rc w; rx := rx w; tx := tx w;
            millis := to_uint32 (millis w + ms);
            servo := servo w; moves := moves w |}).

(** *** The actuator driver, called from the control layer *)

Definition with_servo (f : ServoControl -> ServoControl) : M unit :=
  fun w =>
    (tt, {| rc := rc w; rx := rx w; tx := tx w; millis := millis w;
            servo := f (servo w); moves := moves w |}).

Definition call_setServoAngle (servoIndex angle : Z) : M unit :=
  fun w =>
    (tt, {| rc := rc w; rx := rx w; tx := tx w; millis := millis w;
            servo := setServoAngle servoIndex angle (servo w);
            moves := moves w ++ [(servoIndex, angle)] |}).

Definition call_angleToPulse (angle : Z) : M Z :=
  fun w => (angleToPulse angle (servo w), w).

(** ** RemoteControl.cpp *)

Definition SYNC_MARKER : Z := 0xAA.
Definition SYNC_TYPE : Z := 0x01.
Definition SYNC_PACKET_SIZE : Z := 6.
Definition COMMAND_MARKER : Z := 0xBB.
Definition COMMAND_PACKET_SIZE : Z := 7.
Definition GET_TIME_MARKER : Z := 0xCC.
Definition GET_TIME_PACKET_SIZE : Z := 1.
Definition END_MARKER : Z := 0xDD.
Definition END_PACKET_SIZE : Z := 5.
Definition STOP_MARKER : Z := 0xEE.
Definition RESET_MARKER : Z := 0xEF.
Definition MAX_RESET_SERVOS : Z := 18.

Definition to_uint8 (x : Z) : Z := x mod 2 ^ 8.

(** The constructor.  It does not touch [commandBuffer]: the array holds
    whatever was in memory ([slots], of the declared length). *)
Definition RemoteControl_new (slots : list Command) : RemoteControl :=
  {| commandBuffer := slots; commandCount := 0; syncReceived := false;
     syncStartTime := 0; debugEnabled := false |}.

Definition begin (i2cAddrs : list Z) (addrCount : Z) (debug : bool) : M unit :=
  modify (put_debugEnabled debug) ;;
  with_servo (setupServoDrivers i2cAddrs addrCount) ;;
  dbg <- get debugEnabled ;;
  if dbg then Serial_println (Str "RemoteControl: Servo drivers initialised.")
  else ret tt.

Definition addServo (boardIndex channel servoIndex : Z) : M unit :=
  let boardIndex := to_uint8 boardIndex in
  let channel := to_uint8 channel in
  let servoIndex := to_uint8 servoIndex in
  with_servo (setServoMapping servoIndex boardIndex channel) ;;
  dbg <- get debugEnabled ;;
  if dbg then
    Serial_print (Str "RemoteControl: Mapped servo ") ;;
    Serial_print (Num servoIndex) ;;
    Serial_print (Str " → board ") ;;
    Serial_print (Num boardIndex) ;;
    Serial_print (Str ", channel ") ;;
    Serial_println (Num channel)
  else ret tt.

(** How one round of the dispatcher's [while] ends: [continue], [break], or
    inside [errorHandler], which never returns. *)
Inductive flow : Type :=
| Continue
| Break
| Halt (msg : string).

(** [errorHandler] up to its [while (true)]; the loop itself is
    [errorHandler_round], repeated for ever (see [System] below). *)
Definition errorHandler (msg : string) : M flow :=
  Serial_print (Str "RemoteControl ERROR: ") ;;
  Serial_println (Str msg) ;;
  ret (Halt msg).

Definition errorHandler_round (msg : string) : M unit :=
  delay 1000 ;;
  Serial_print (Str "RemoteControl ERROR: ") ;;
  Serial_println (Str msg).

(** The [for] loop of the RESET branch, [n] rounds from [idx]. *)
Fixpoint reset_loop (n : nat) (idx : Z) : M unit :=
  match n with
  | O => ret tt
  | S n' =>
      hi <- Serial_read ;;
      lo <- Serial_read ;;
      let angle := to_int16 (Z.lor (Z.shiftl hi 8) lo) in
      call_setServoAngle idx angle ;;
      reset_loop n' (idx + 1)
  end.

(** The body of the [while] of [parseSerialData]: one look at the front of
    the receive queue.  Every branch that is taken ends in [continue], so the
    source's two [if] chains read as one. *)
Definition parse_packet : M flow :=
  avail <- Serial_available ;;
  marker <- Serial_peek ;;
  if (marker =? STOP_MARKER) && (avail >=? 1) then
    Serial_read ;;
    modify (put_commandCount 0) ;;
    modify (put_syncReceived false) ;;
    Serial_println (Str "STOPPED") ;;
    ret Continue
  else if (marker =? RESET_MARKER) && (avail >=? 1 + MAX_RESET_SERVOS * 2) then
    Serial_read ;;
    reset_loop (Z.to_nat MAX_RESET_SERVOS) 0 ;;
    dbg <- get debugEnabled ;;
    (if dbg
     then Serial_println (Str "RemoteControl: Servos RESET to dynamic angles.")
     else ret tt) ;;
    Serial_println (Str "RESET_DONE") ;;
    ret Continue
  else if (marker =? COMMAND_MARKER) && (avail >=? COMMAND_PACKET_SIZE) then
    Serial_read ;;
    t <- Serial_read ;;
    a <- Serial_read ;;
    d0 <- Serial_read ;;
    d1 <- Serial_read ;;
    d2 <- Serial_read ;;
    d3 <- Serial_read ;;
    let d0 := to_uint32 d0 in
    let d1 := to_uint32 d1 in
    let d2 := to_uint32 d2 in
    let d3 := to_uint32 d3 in
    let cmd :=
      {| targetIndex := to_uint8 t;
         angle := to_uint8 a;
         relativeDelay :=
           Z.lor (Z.lor (Z.lor d0 (to_uint32 (Z.shiftl d1 8)))
                        (to_uint32 (Z.shiftl d2 16)))
                 (to_uint32 (Z.shiftl d3 24)) |} in
    count <- get commandCount ;;
    (if count <? MAX_COMMANDS then
       buf <- get commandBuffer ;;
       modify (put_commandBuffer (array_set buf count cmd)) ;;
       modify (put_commandCount (count + 1)) ;;
       dbg <- get debugEnabled ;;
       if dbg then
         Serial_print (Str "RemoteControl: Buffered PICK T=") ;;
         Serial_print (Num (targetIndex cmd)) ;;
         Serial_print (Str " A=") ;;
         Serial_print (Num (angle cmd)) ;;
         Serial_print (Str " D=") ;;
         Serial_print (Num (relativeDelay cmd)) ;;
         Serial_println (Str "ms")
       else ret tt
     else Serial_println (Str "ERROR: command buffer full")) ;;
    ret Continue
  else if (marker =? END_MARKER) && (avail >=? END_PACKET_SIZE) then
    Serial_read ;;
    d0 <- Serial_read ;;
    d1 <- Serial_read ;;
    d2 <- Serial_read ;;
    d3 <- Serial_read ;;
    let d0 := to_uint32 d0 in
    let d1 := to_uint32 d1 in
    let d2 := to_uint32 d2 in
    let d3 := to_uint32 d3 in
    let rel :=
      Z.lor (Z.lor (Z.lor d0 (to_uint32 (Z.shiftl d1 8)))
                   (to_uint32 (Z.shiftl d2 16)))
            (to_uint32 (Z.shiftl d3 24)) in
    count <- get commandCount ;;
    (if count <? MAX_COMMANDS then
       let cmd := {| targetIndex := 255; angle := 0; relativeDelay := rel |} in
       buf <- get commandBuffer ;;
       modify (put_commandBuffer (array_set buf count cmd)) ;;
       modify (put_commandCount (count + 1))
     else ret tt) ;;
    ret Continue
  else if (marker =? GET_TIME_MARKER) && (avail >=? GET_TIME_PACKET_SIZE) then
    Serial_read ;;
    Serial_print (Str "TIME:") ;;
    now <- get_millis ;;
    Serial_println (Num now) ;;
    ret Continue
  else if (marker =? SYNC_MARKER) && (avail >=? SYNC_PACKET_SIZE) then
    Serial_read ;;
    type <- Serial_read ;;
    if negb (type =? SYNC_TYPE) then
      errorHandler "Unexpected sync packet type"
    else
      let t := 0 in
      b <- Serial_read ;;
      let t := Z.lor t (to_uint32 (Z.shiftl (to_uint32 b) 24)) in
      b <- Serial_read ;;
      let t := Z.lor t (to_uint32 (Z.shiftl (to_uint32 b) 16)) in
      b <- Serial_read ;;
      let t := Z.lor t (to_uint32 (Z.shiftl (to_uint32 b) 8)) in
      b <- Serial_read ;;
      let t := Z.lor t (to_uint32 b) in
      modify (put_syncStartTime t) ;;
      modify (put_syncReceived true) ;;
      modify (put_commandCount 0) ;;
      dbg <- get debugEnabled ;;
      (if dbg then
         Serial_print (Str "RemoteControl: Sync at ") ;;
         Serial_println (Num t)
       else ret tt) ;;
      ret Continue
  else ret Break.

(** The [while (Serial.available() > 0)] loop.  A round that continues has
    read at least one byte, so [length rx] rounds and one more test are
    enough ([parse_loop_fuel]).  The result is [None] when
    [parseSerialData] returns and [Some msg] when it is caught in
    [errorHandler msg]. *)
Fixpoint parse_loop (fuel : nat) : M (option string) :=
  match fuel with
  | O => ret None
  | S n =>
      avail <- Serial_available ;;
      if avail >? 0 then
        f <- parse_packet ;;
        match f with
        | Continue => parse_loop n
        | Break => ret None
        | Halt msg => ret (Some msg)
        end
      else ret None
  end.

Definition parseSerialData : M (option string) :=
  fun w => parse_loop (S (List.length (rx w))) w.

(** [update]: the entry at [i] has come due. *)
Definition execute (c : Command) : M unit :=
  if targetIndex c =? 255 then
    Serial_println (Str "DONE") ;;
    modify (put_syncReceived false)
  else
    dbg <- get debugEnabled ;;
    (if dbg then
       Serial_print (Str "Executing PICK: index=") ;;
       Serial_print (Num (targetIndex c)) ;;
       Serial_print (Str " angle=") ;;
       Serial_print (Num (angle c)) ;;
       Serial_print (Str " pulse=") ;;
       p <- call_angleToPulse (angle c) ;;
       Serial_println (Num p)
     else ret tt) ;;
    call_setServoAngle (targetIndex c) (angle c).

Definition no_command : Command :=
  {| targetIndex := 0; angle := 0; relativeDelay := 0 |}.

(** [for (int j = i; j < commandCount - 1; j++) buf[j] = buf[j + 1];] *)
Fixpoint shift_loop (fuel : nat) (j : Z) : M unit :=
  match fuel with
  | O => ret tt
  | S n =>
      count <- get commandCount ;;
      if j <? count - 1 then
        buf <- get commandBuffer ;;
        modify (put_commandBuffer
                  (array_set buf j (array_get no_command buf (j + 1)))) ;;
        shift_loop n (j + 1)
      else ret tt
  end.

(** The [while (i < commandCount)] of [update].  Each round either removes
    an entry or advances [i], so [commandCount - i] rounds are enough. *)
Fixpoint update_loop (fuel : nat) (now i : Z) : M unit :=
  match fuel with
  | O => ret tt
  | S n =>
      count <- get commandCount ;;
      if i <? count then
        buf <- get commandBuffer ;;
        start <- get syncStartTime ;;
        let c := array_get no_command buf i in
        let execTime := to_uint32 (start + relativeDelay c) in
        if now >=? execTime then
          execute c ;;
          shift_loop (Z.to_nat count) i ;;
          count <- get commandCount ;;
          modify (put_commandCount (count - 1)) ;;
          update_loop n now i
        else update_loop n now (i + 1)
      else ret tt
  end.

Definition update : M unit :=
  sync <- get syncReceived ;;
  if negb sync then ret tt
  else
    now <- get_millis ;;
    count <- get commandCount ;;
    update_loop (Z.to_nat count) now 0.

Definition handle : M (option string) :=
  h <- parseSerialData ;;
  match h with
  | None => update ;; ret None
  | Some msg => ret (Some msg)
  end.

(** ** The running firmware

    The sketch calls [begin] and [addServo] and then [handle] once per turn
    of its [loop()].  Once [errorHandler] is entered control never leaves its
    [while (true)]: the system keeps the message and every further round of
    the firmware is a round of that loop. *)

Inductive control : Type :=
| Running
| Stuck (msg : string).

Record System : Type := mkSystem {
  ctl : control;
  world : World
}.

Inductive event : Type :=
| Receive (bs : list byte)                        (* bytes arrive on the line *)
| Elapse (ms : Z)                                 (* time passes *)
| Begin (i2cAddrs : list Z) (addrCount : Z) (debug : bool)
| AddServo (boardIndex channel servoIndex : Z)
| Round.                                          (* the firmware's next round *)

Definition receive (bs : list byte) (w : World) : World :=
  {| rc := rc w; rx := rx w ++ bs; tx := tx w; millis := millis w;
     servo := servo w; moves := moves w |}.

Definition step (s : System) (e : event) : System :=
  match e with
  | Receive bs => {| ctl := ctl s; world := receive bs (world s) |}
  | Elapse ms => {| ctl := ctl s; world := run (delay ms) (world s) |}
  | Begin addrs n dbg =>
      match ctl s with
      | Running => {| ctl := Running; world := run (begin addrs n dbg) (world s) |}
      | Stuck _ => s
      end
  | AddServo b c i =>
      match ctl s with
      | Running => {| ctl := Running; world := run (addServo b c i) (world s) |}
      | Stuck _ => s
      end
  | Round =>
      match ctl s with
      | Running =>
          match handle (world s) with
          | (None, w') => {| ctl := Running; world := w' |}
          | (Some msg, w') => {| ctl := Stuck msg; world := w' |}
          end
      | Stuck msg =>
          {| ctl := Stuck msg; world := run (errorHandler_round msg) (world s) |}
      end
  end.

Definition steps (s : System) (es : list event) : System := fold_left step es s.

(** Power-on: constructed object, empty serial queues, zeroed globals. *)
Definition power_on (slots : list Command) (t0 : Z) : System :=
  {| ctl := Running;
     world := {| rc := RemoteControl_new slots; rx := []; tx := [];
                 millis := t0; servo := servo_globals; moves := [] |} |}.

(** The entries in use: the first [commandCount] slots of the array. *)
Definition pending (w : World) : list Command :=
  firstn (Z.to_nat (commandCount (rc w))) (commandBuffer (rc w)).

(** The time at which [update] takes an entry to be due, in the unsigned
    32-bit arithmetic of [unsigned long]. *)
Definition execTime (w : World) (c : Command) : Z :=
  to_uint32 (syncStartTime (rc w) + relativeDelay c).

Definition due (w : World) (c : Command) : bool := millis w >=? execTime w c.

Definition is_end (c : Command) : bool := targetIndex c =? 255.

(** ** Auxiliary definitions for the proofs *)

(** What [shift_loop] does to the array. *)
Fixpoint shift_array (fuel : nat) (j count : Z) (buf : list Command)
  : list Command :=
  match fuel with
  | O => buf
  | S n =>
      if j <? count - 1
      then shift_array n (j + 1) count
             (array_set buf j (array_get no_command buf (j + 1)))
      else buf
  end.

(** The world without the command buffer: everything [execute] can see or
    change. *)
Definition erase (w : World) : World :=
  with_rc (fun r => put_commandCount 0 (put_commandBuffer [] r)) w.

(** The entries [cs] come due one after the other. *)
Definition fire_all (cs : list Command) (w : World) : World :=
  fold_left (fun w c => run (execute c) w) cs w.

(** The array is large enough for the entries in use. *)
Definition in_bounds (w : World) : Prop :=
  0 <= commandCount (rc w) <= Z.of_nat (List.length (commandBuffer (rc w))).

(** The invariant of the object: the array has its declared length and the
    count stays inside it. *)
Definition buffer_ok (w : World) : Prop :=
  Z.of_nat (List.length (commandBuffer (rc w))) = MAX_COMMANDS /\
  0 <= commandCount (rc w) <= MAX_COMMANDS.

(** ** The wire format, as the protocol table gives it

    Stated over the bytes of a packet, independently of the dispatcher; the
    dispatcher is proved to decode exactly these values. *)

Definition little_endian32 (d0 d1 d2 d3 : byte) : Z :=
  byte_val d0 + byte_val d1 * 2 ^ 8 + byte_val d2 * 2 ^ 16
  + byte_val d3 * 2 ^ 24.

Definition big_endian32 (b3 b2 b1 b0 : byte) : Z :=
  byte_val b3 * 2 ^ 24 + byte_val b2 * 2 ^ 16 + byte_val b1 * 2 ^ 8
  + byte_val b0.

(** Signed 16-bit, most significant byte first. *)
Definition big_endian_int16 (hi lo : byte) : Z :=
  let u := byte_val hi * 2 ^ 8 + byte_val lo in
  if u <? 2 ^ 15 then u else u - 2 ^ 16.

Definition pick_command (t a d0 d1 d2 d3 : byte) : Command :=
  {| targetIndex := byte_val t; angle := byte_val a;
     relativeDelay := little_endian32 d0 d1 d2 d3 |}.

Definition end_command (d0 d1 d2 d3 : byte) : Command :=
  {| targetIndex := 255; angle := 0;
     relativeDelay := little_endian32 d0 d1 d2 d3 |}.

(** The angles of a RESET payload, pair by pair. *)
Fixpoint reset_angles (payload : list byte) : list Z :=
  match payload with
  | hi :: lo :: rest => big_endian_int16 hi lo :: reset_angles rest
  | _ => []
  end.

(** Total size of the packet a marker byte announces. *)
Definition packet_size (marker : Z) : option Z :=
  if marker =? 0xEE then Some 1
  else if marker =? 0xEF then Some 37
  else if marker =? 0xBB then Some 7
  else if marker =? 0xDD then Some 5
  else if marker =? 0xCC then Some 1
  else if marker =? 0xAA then Some 6
  else None.

(** The front of the queue is no complete packet: nothing to read, an
    unknown marker, or a known one with too few bytes behind it. *)
Definition not_framed (q : list byte) : Prop :=
  match q with
  | [] => True
  | b :: _ =>
      match packet_size (byte_val b) with
      | Some n => Z.of_nat (List.length q) < n
      | None => True
      end
  end.

(** ** The dispatcher as a relation *)

Definition put_rx (q : list byte) (w : World) : World :=
  {| rc := rc w; rx := q; tx := tx w; millis := millis w;
     servo := servo w; moves := moves w |}.

(** A sequence of driver calls. *)
Definition drive (calls : list (Z * Z)) (w : World) : World :=
  fold_left (fun w ia => run (call_setServoAngle (fst ia) (snd ia)) w) calls w.

(** The world [w] with the object [r], the queue [q] and [out] printed. *)
Definition after (w : World) (r : RemoteControl) (q : list byte)
  (out : list tx_item) : World :=
  {| rc := r; rx := q; tx := tx w ++ out; millis := millis w;
     servo := servo w; moves := moves w |}.

Definition pick_debug (c : Command) : list tx_item :=
  [Print (Str "RemoteControl: Buffered PICK T="); Print (Num (targetIndex c));
   Print (Str " A="); Print (Num (angle c));
   Print (Str " D="); Print (Num (relativeDelay c)); Println (Str "ms")].

Definition error_report (msg : string) : list tx_item :=
  [Print (Str "RemoteControl ERROR: "); Println (Str msg)].

Definition append_command (c : Command) (r : RemoteControl) : RemoteControl :=
  put_commandCount (commandCount r + 1)
    (put_commandBuffer (array_set (commandBuffer r) (commandCount r) c) r).

(** One round of the dispatcher, packet by packet. *)
Inductive dispatch (w : World) : flow -> World -> Prop :=
| Dispatch_stop (rest : list byte) :
    rx w = xee :: rest ->
    dispatch w Continue
      (after w (put_syncReceived false (put_commandCount 0 (rc w))) rest
         [Println (Str "STOPPED")])
| Dispatch_reset (payload rest : list byte) :
    rx w = xef :: payload ++ rest ->
    List.length payload = 36%nat ->
    dispatch w Continue
      (after (drive (combine (indices 18) (reset_angles payload)) w)
         (rc w) rest
         ((if debugEnabled (rc w)
           then [Println (Str "RemoteControl: Servos RESET to dynamic angles.")]
           else [])
          ++ [Println (Str "RESET_DONE")]))
| Dispatch_pick (t a d0 d1 d2 d3 : byte) (rest : list byte) :
    rx w = xbb :: t :: a :: d0 :: d1 :: d2 :: d3 :: rest ->
    commandCount (rc w) < MAX_COMMANDS ->
    dispatch w Continue
      (after w (append_command (pick_command t a d0 d1 d2 d3) (rc w)) rest
         (if debugEnabled (rc w)
          then pick_debug (pick_command t a d0 d1 d2 d3) else []))
| Dispatch_pick_full (t a d0 d1 d2 d3 : byte) (rest : list byte) :
    rx w = xbb :: t :: a :: d0 :: d1 :: d2 :: d3 :: rest ->
    MAX_COMMANDS <= commandCount (rc w) ->
    dispatch w Continue
      (after w (rc w) rest [Println (Str "ERROR: command buffer full")])
| Dispatch_end (d0 d1 d2 d3 : byte) (rest : list byte) :
    rx w = xdd :: d0 :: d1 :: d2 :: d3 :: rest ->
    commandCount (rc w) < MAX_COMMANDS ->
    dispatch w Continue
      (after w (append_command (end_command d0 d1 d2 d3) (rc w)) rest [])
| Dispatch_end_full (d0 d1 d2 d3 : byte) (rest : list byte) :
    rx w = xdd :: d0 :: d1 :: d2 :: d3 :: rest ->
    MAX_COMMANDS <= commandCount (rc w) ->
    dispatch w Continue (after w (rc w) rest [])
| Dispatch_time (rest : list byte) :
    rx w = xcc :: rest ->
    dispatch w Continue
      (after w (rc w) rest [Print (Str "TIME:"); Println (Num (millis w))])
| Dispatch_sync (b3 b2 b1 b0 : byte) (rest : list byte) :
    rx w = xaa :: x01 :: b3 :: b2 :: b1 :: b0 :: rest ->
    dispatch w Continue
      (after w
         (put_commandCount 0
            (put_syncReceived true
               (put_syncStartTime (big_endian32 b3 b2 b1 b0) (rc w))))
         rest
         (if debugEnabled (rc w)
          then [Print (Str "RemoteControl: Sync at ");
                Println (Num (big_endian32 b3 b2 b1 b0))]
          else []))
| Dispatch_sync_bad (ty : byte) (rest : list byte) :
    rx w = xaa :: ty :: rest ->
    ty <> x01 ->
    (4 <= List.length rest)%nat ->
    dispatch w (Halt "Unexpected sync packet type")
      (after w (rc w) rest (error_report "Unexpected sync packet type"))
| Dispatch_break :
    not_framed (rx w) ->
    dispatch w Break w.

(** ** Traces of the running firmware *)

(** The bytes that arrive during [es], in order. *)
Definition received (es : list event) : list byte :=
  flat_map (fun e => match e with Receive bs => bs | _ => [] end) es.

(** The number of rounds the firmware makes during [es]. *)
Definition rounds (es : list event) : nat :=
  List.length (filter (fun e => match e with Round => true | _ => false end) es).

(** A world given field by field, for examples. *)
Definition example_world (buf : list Command) (cnt : Z) (sync : bool)
  (start : Z) (q : list byte) (now : Z) : World :=
  {| rc := {| commandBuffer := buf; commandCount := cnt;
              syncReceived := sync; syncStartTime := start;
              debugEnabled := false |};
     rx := q; tx := []; millis := now; servo := servo_globals; moves := [] |}.

(** ** Auxiliary definitions for the driver's properties *)

(** A PWM command the PCA9685 boards can take: an existing board, one of its
    sixteen channels, switched on at tick 0 and off inside the 4096 ticks. *)
Definition pwm_ok (e : hw_event) : Prop :=
  match e with
  | SetPWM b c on off =>
      0 <= b < MAX_BOARDS /\ 0 <= c < 16 /\ on = 0 /\ 0 <= off <= 4096
  | _ => True
  end.

(** The state of ServoControl.cpp's globals that its functions keep. *)
Definition servo_ok (sv : ServoControl) : Prop :=
  numBoards sv <= MAX_BOARDS /\
  0 <= servomin sv /\ servomin sv <= servomax sv /\ servomax sv <= 4096 /\
  List.length (servoBoard sv) = 18%nat /\
  List.length (servoChannel sv) = 18%nat /\
  Forall (fun b => 0 <= b /\ (b = 0 \/ b < numBoards sv)) (servoBoard sv) /\
  Forall (fun c => 0 <= c < 16) (servoChannel sv) /\
  Forall pwm_ok (hw sv).

(** What one call of [setServoAngle] sends to the boards. *)
Definition pwm_command (sv : ServoControl) (servoIndex angle : Z)
  : list hw_event :=
  if (0 <=? servoIndex) && (servoIndex <? MAX_SERVOS)
     && (array_get 0 (servoBoard sv) servoIndex <? numBoards sv)
     && (array_get 0 (servoChannel sv) servoIndex <? 16)
  then [SetPWM (array_get 0 (servoBoard sv) servoIndex)
               (array_get 0 (servoChannel sv) servoIndex)
               0 (angleToPulse angle sv)]
  else [].

(** The globals with the hardware trace [h]. *)
Definition put_hw (h : list hw_event) (sv : ServoControl) : ServoControl :=
  {| servomin := servomin sv; servomax := servomax sv;
     numBoards := numBoards sv; servoBoard := servoBoard sv;
     servoChannel := servoChannel sv; hw := h |}.

(** The angle [angleToPulse] works with after its two clamps. *)
Definition clamp_angle (a : Z) : Z := Z.max 0 (Z.min MAX_SERVO_ANGLE a).

(** ** Auxiliary definitions for traces without SYNC or RESET *)

(** No byte of [q] is the SYNC or the RESET marker. *)
Definition no_sync_or_reset (q : list byte) : Prop :=
  ~ In xaa q /\ ~ In xef q.

Definition quiet_event (e : event) : Prop :=
  match e with
  | Receive bs => no_sync_or_reset bs
  | _ => True
  end.

Definition is_pwm (e : hw_event) : bool :=
  match e with
  | SetPWM _ _ _ _ => true
  | _ => false
  end.

(** Scheduling off, no driver call so far, no PWM command sent, and no SYNC
    or RESET marker waiting in the queue. *)
Definition unsynchronised (w : World) : Prop :=
  syncReceived (rc w) = false /\ moves w = [] /\
  Forall (fun e => is_pwm e = false) (hw (servo w)) /\
  no_sync_or_reset (rx w).

(** The world with debug output switched off and the output forgotten: what
    is left is everything that controls the instrument. *)
Definition mute (w : World) : World :=
  {| rc := put_debugEnabled false (rc w); rx := rx w; tx := [];
     millis := millis w; servo := servo w; moves := moves w |}.

(** ** The due time as the specification words it

    [now >= baseline + relativeDelay], with the sum taken over the integers
    and not in the 32 bits of [execTime]; [fits_clock] says that this sum is
    itself an [unsigned long] value, so that the two readings agree. *)
Definition time_reached (w : World) (c : Command) : bool :=
  syncStartTime (rc w) + relativeDelay c <=? millis w.

Definition fits_clock (w : World) (c : Command) : Prop :=
  0 <= syncStartTime (rc w) + relativeDelay c < 2 ^ 32.

(** * Properties *)

(** ** Bytes and fixed-width integers *)

Lemma byte_val_range (b : byte) : 0 <= byte_val b <= 255.
Proof.
  unfold byte_val. pose proof (Byte.to_N_bounded b). lia.
Qed.

Lemma to_uint32_small (x : Z) : 0 <= x < 2 ^ 32 -> to_uint32 x = x.
Proof. intro H. unfold to_uint32. apply Z.mod_small. exact H. Qed.

Lemma to_uint8_byte (b : byte) : to_uint8 (byte_val b) = byte_val b.
Proof.
  unfold to_uint8. apply Z.mod_small. pose proof (byte_val_range b). lia.
Qed.

Lemma land_shiftl_low (a b n : Z) :
  0 <= n -> 0 <= a < 2 ^ n -> Z.land a (Z.shiftl b n) = 0.
Proof.
  intros Hn Ha. apply Z.bits_inj'. intros k Hk.
  rewrite Z.land_spec, Z.bits_0.
  destruct (Z.lt_ge_cases k n) as [Hlt | Hge].
  - rewrite (Z.shiftl_spec_low b n k Hlt). apply andb_false_r.
  - assert (Hbit : Z.testbit a k = false).
    { destruct (Z.eq_dec a 0) as [-> | Hnz].
      - apply Z.bits_0.
      - apply Z.bits_above_log2; [lia |].
        apply Z.log2_lt_pow2; [lia |].
        apply Z.lt_le_trans with (2 ^ n); [lia |].
        apply Z.pow_le_mono_r; lia. }
    rewrite Hbit. reflexivity.
Qed.

(** [a | (b << n)] is [a + b * 2^n] when [a] fits below bit [n]. *)
Lemma lor_shiftl_add (a b n : Z) :
  0 <= n -> 0 <= a < 2 ^ n -> Z.lor a (Z.shiftl b n) = a + b * 2 ^ n.
Proof.
  intros Hn Ha.
  pose proof (land_shiftl_low a b n Hn Ha) as Hland.
  rewrite <- Z.lxor_lor by exact Hland.
  rewrite <- Z.add_nocarry_lxor by exact Hland.
  rewrite Z.shiftl_mul_pow2 by exact Hn. reflexivity.
Qed.

(** The little-endian expression of the PICK and END branches. *)
Lemma little_endian_value (d0 d1 d2 d3 : Z) :
  0 <= d0 <= 255 -> 0 <= d1 <= 255 -> 0 <= d2 <= 255 -> 0 <= d3 <= 255 ->
  Z.lor (Z.lor (Z.lor (to_uint32 d0) (to_uint32 (Z.shiftl (to_uint32 d1) 8)))
               (to_uint32 (Z.shiftl (to_uint32 d2) 16)))
        (to_uint32 (Z.shiftl (to_uint32 d3) 24))
  = d0 + d1 * 2 ^ 8 + d2 * 2 ^ 16 + d3 * 2 ^ 24.
Proof.
  intros H0 H1 H2 H3.
  rewrite (to_uint32_small d0), (to_uint32_small d1),
          (to_uint32_small d2), (to_uint32_small d3) by lia.
  rewrite !Z.shiftl_mul_pow2 by lia.
  rewrite !to_uint32_small by lia.
  rewrite <- !Z.shiftl_mul_pow2 by lia.
  rewrite (lor_shiftl_add d0 d1 8) by lia.
  rewrite (lor_shiftl_add _ d2 16) by lia.
  rewrite (lor_shiftl_add _ d3 24) by lia.
  rewrite !Z.shiftl_mul_pow2 by lia. reflexivity.
Qed.

(** The big-endian accumulation of the SYNC branch. *)
Lemma big_endian_value (b3 b2 b1 b0 : Z) :
  0 <= b3 <= 255 -> 0 <= b2 <= 255 -> 0 <= b1 <= 255 -> 0 <= b0 <= 255 ->
  Z.lor (Z.lor (Z.lor (Z.lor 0 (to_uint32 (Z.shiftl (to_uint32 b3) 24)))
                      (to_uint32 (Z.shiftl (to_uint32 b2) 16)))
               (to_uint32 (Z.shiftl (to_uint32 b1) 8)))
        (to_uint32 b0)
  = b3 * 2 ^ 24 + b2 * 2 ^ 16 + b1 * 2 ^ 8 + b0.
Proof.
  intros H3 H2 H1 H0.
  rewrite (to_uint32_small b0), (to_uint32_small b1),
          (to_uint32_small b2), (to_uint32_small b3) by lia.
  rewrite !Z.shiftl_mul_pow2 by lia.
  rewrite !to_uint32_small by lia.
  rewrite <- !Z.shiftl_mul_pow2 by lia.
  rewrite Z.lor_0_l.
  rewrite (Z.lor_comm _ b0).
  rewrite (Z.lor_comm _ (Z.shiftl b1 8)).
  rewrite (Z.lor_comm _ (Z.shiftl b2 16)).
  rewrite (Z.lor_assoc b0), (Z.lor_assoc (Z.lor b0 _)).
  rewrite (lor_shiftl_add b0 b1 8) by lia.
  rewrite (lor_shiftl_add _ b2 16) by lia.
  rewrite (lor_shiftl_add _ b3 24) by lia.
  rewrite !Z.shiftl_mul_pow2 by lia. lia.
Qed.

(** The angle of the RESET branch: the two's-complement reading of the
    16-bit word [hi:lo]. *)
Lemma reset_angle_value (hi lo : Z) :
  0 <= hi <= 255 -> 0 <= lo <= 255 ->
  to_int16 (Z.lor (Z.shiftl hi 8) lo) =
    if hi * 2 ^ 8 + lo <? 2 ^ 15 then hi * 2 ^ 8 + lo
    else hi * 2 ^ 8 + lo - 2 ^ 16.
Proof.
  intros Hhi Hlo.
  rewrite Z.lor_comm, lor_shiftl_add by lia.
  unfold to_int16.
  destruct (Z.ltb_spec (hi * 2 ^ 8 + lo) (2 ^ 15)) as [Hlt | Hge].
  - rewrite Z.mod_small by lia. lia.
  - replace (lo + hi * 2 ^ 8 + 2 ^ 15)
      with ((lo + hi * 2 ^ 8 - 2 ^ 15) + 1 * 2 ^ 16) by lia.
    rewrite Z.mod_add by lia. rewrite Z.mod_small by lia. lia.
Qed.

(** ** Arrays *)

Lemma list_set_middle {A : Type} (pre : list A) (x y : A) (post : list A) :
  list_set (pre ++ x :: post) (List.length pre) y = pre ++ y :: post.
Proof.
  induction pre as [| h pre IH]; simpl.
  - reflexivity.
  - rewrite IH. reflexivity.
Qed.

Lemma list_set_length {A : Type} (a : list A) (n : nat) (x : A) :
  List.length (list_set a n x) = List.length a.
Proof.
  revert n. induction a as [| h a IH]; intros [| n]; simpl; auto.
Qed.

Lemma array_set_length {A : Type} (a : list A) (i : Z) (x : A) :
  List.length (array_set a i x) = List.length a.
Proof. apply list_set_length. Qed.

Lemma array_get_middle {A : Type} (d : A) (pre : list A) (x : A)
  (post : list A) (i : Z) :
  i = Z.of_nat (List.length pre) -> array_get d (pre ++ x :: post) i = x.
Proof.
  intros ->. unfold array_get. rewrite Nat2Z.id. apply nth_middle.
Qed.

Lemma array_set_middle {A : Type} (pre : list A) (x y : A) (post : list A)
  (i : Z) :
  i = Z.of_nat (List.length pre) ->
  array_set (pre ++ x :: post) i y = pre ++ y :: post.
Proof.
  intros ->. unfold array_set. rewrite Nat2Z.id. apply list_set_middle.
Qed.

(** ** The shift that removes an entry

    [shift_loop] changes the array only; on the array it is [shift_array]. *)

Lemma shift_loop_array (fuel : nat) (j : Z) (w : World) :
  shift_loop fuel j w =
    (tt, with_rc (put_commandBuffer
                    (shift_array fuel j (commandCount (rc w))
                                 (commandBuffer (rc w)))) w).
Proof.
  revert j w. induction fuel as [| n IH]; intros j [[buf cnt sy st dbg] q t m sv mv].
  - reflexivity.
  - simpl. unfold bind, get. simpl.
    destruct (j <? cnt - 1); [| reflexivity].
    unfold modify. rewrite IH. reflexivity.
Qed.

Lemma shift_array_spec (suf : list Command) :
  forall (fuel : nat) (pre : list Command) (c : Command) (tail : list Command)
         (j count : Z),
    j = Z.of_nat (List.length pre) ->
    count = Z.of_nat (List.length pre + 1 + List.length suf) ->
    (List.length suf <= fuel)%nat ->
    exists x, shift_array fuel j count (pre ++ c :: suf ++ tail)
              = pre ++ suf ++ x :: tail.
Proof.
  induction suf as [| d suf IH]; intros fuel pre c tail j count Hj Hc Hf.
  - exists c. destruct fuel as [| n]; [reflexivity |]. simpl.
    destruct (Z.ltb_spec j (count - 1)) as [Hlt | _]; [simpl in Hc; lia | reflexivity].
  - destruct fuel as [| n]; [simpl in Hf; lia |].
    simpl shift_array.
    destruct (Z.ltb_spec j (count - 1)) as [_ | Hge]; [| simpl in Hc; lia].
    assert (Hget : array_get no_command (pre ++ c :: d :: suf ++ tail) (j + 1)
                   = d).
    { replace (pre ++ c :: d :: suf ++ tail)
        with ((pre ++ [c]) ++ d :: suf ++ tail)
        by (rewrite <- app_assoc; reflexivity).
      apply array_get_middle. rewrite length_app; simpl; lia. }
    rewrite Hget.
    rewrite (array_set_middle pre c d (d :: suf ++ tail) j Hj).
    destruct (IH n (pre ++ [d]) d tail (j + 1) count) as [x Hx].
    + rewrite length_app; simpl; lia.
    + rewrite length_app; simpl in *; lia.
    + simpl in Hf; lia.
    + exists x.
      replace (pre ++ d :: d :: suf ++ tail)
        with ((pre ++ [d]) ++ d :: suf ++ tail)
        by (rewrite <- app_assoc; reflexivity).
      rewrite Hx. rewrite <- app_assoc. reflexivity.
Qed.

(** ** What [execute] leaves alone *)

Lemma execute_run (c : Command) (w : World) :
  execute c w = (tt, run (execute c) w).
Proof. unfold run. destruct (execute c w) as [[] w']. reflexivity. Qed.

Lemma execute_frame (c : Command) (w : World) :
  commandBuffer (rc (run (execute c) w)) = commandBuffer (rc w) /\
  commandCount (rc (run (execute c) w)) = commandCount (rc w) /\
  syncStartTime (rc (run (execute c) w)) = syncStartTime (rc w) /\
  debugEnabled (rc (run (execute c) w)) = debugEnabled (rc w) /\
  millis (run (execute c) w) = millis w /\
  rx (run (execute c) w) = rx w.
Proof.
  destruct w as [[buf cnt sy st dbg] q t m sv mv].
  unfold run, execute, bind, get. simpl.
  destruct (targetIndex c =? 255); [| destruct dbg]; simpl; repeat split.
Qed.

Lemma erase_execute (c : Command) (w w' : World) :
  erase w = erase w' -> erase (run (execute c) w) = erase (run (execute c) w').
Proof.
  destruct w as [[buf cnt sy st dbg] q t m sv mv].
  destruct w' as [[buf' cnt' sy' st' dbg'] q' t' m' sv' mv'].
  unfold erase, with_rc, put_commandCount, put_commandBuffer. simpl.
  intro H. injection H as <- <- <- <- <- <- <- <-.
  unfold run, execute, bind, get. simpl.
  destruct (targetIndex c =? 255); [| destruct dbg]; reflexivity.
Qed.

Lemma erase_fire_all (cs : list Command) :
  forall w w', erase w = erase w' ->
               erase (fire_all cs w) = erase (fire_all cs w').
Proof.
  induction cs as [| c cs IH]; intros w w' H; simpl.
  - exact H.
  - apply IH. apply erase_execute. exact H.
Qed.

Lemma fire_all_frame (cs : list Command) :
  forall w,
    commandBuffer (rc (fire_all cs w)) = commandBuffer (rc w) /\
    commandCount (rc (fire_all cs w)) = commandCount (rc w) /\
    syncStartTime (rc (fire_all cs w)) = syncStartTime (rc w) /\
    debugEnabled (rc (fire_all cs w)) = debugEnabled (rc w) /\
    millis (fire_all cs w) = millis w /\
    rx (fire_all cs w) = rx w.
Proof.
  induction cs as [| c cs IH]; intro w; simpl.
  - repeat split.
  - destruct (IH (run (execute c) w)) as (H1 & H2 & H3 & H4 & H5 & H6).
    destruct (execute_frame c w) as (E1 & E2 & E3 & E4 & E5 & E6).
    repeat split; congruence.
Qed.

(** ** The scan of [update] *)

Lemma pending_split (w : World) :
  in_bounds w ->
  commandBuffer (rc w)
  = pending w ++ skipn (Z.to_nat (commandCount (rc w))) (commandBuffer (rc w))
  /\ Z.of_nat (List.length (pending w)) = commandCount (rc w).
Proof.
  intros [Hlo Hhi]. unfold pending. split.
  - symmetry. apply firstn_skipn.
  - rewrite length_firstn. lia.
Qed.

(** One round of the [while] of [update], case by case. *)

Lemma update_loop_done (n : nat) (now i : Z) (w : World) :
  commandCount (rc w) <= i -> run (update_loop n now i) w = w.
Proof.
  intro H. destruct n as [| n]; [reflexivity |].
  unfold run. simpl. unfold bind, get.
  destruct (Z.ltb_spec i (commandCount (rc w))); [lia | reflexivity].
Qed.

Lemma update_loop_wait (n : nat) (now i : Z) (w : World) :
  i < commandCount (rc w) ->
  (now >=? to_uint32 (syncStartTime (rc w)
                      + relativeDelay (array_get no_command
                                         (commandBuffer (rc w)) i))) = false ->
  run (update_loop (S n) now i) w = run (update_loop n now (i + 1)) w.
Proof.
  intros Hlt Hdue. unfold run. simpl update_loop. unfold bind, get.
  destruct (Z.ltb_spec i (commandCount (rc w))) as [_ | Hge]; [| lia].
  rewrite Hdue. reflexivity.
Qed.

Lemma update_loop_fire (n : nat) (now i : Z) (w : World) :
  i < commandCount (rc w) ->
  (now >=? to_uint32 (syncStartTime (rc w)
                      + relativeDelay (array_get no_command
                                         (commandBuffer (rc w)) i))) = true ->
  let w1 := run (execute (array_get no_command (commandBuffer (rc w)) i)) w in
  run (update_loop (S n) now i) w =
  run (update_loop n now i)
    (with_rc (put_commandCount (commandCount (rc w1) - 1))
       (with_rc (put_commandBuffer
                   (shift_array (Z.to_nat (commandCount (rc w))) i
                      (commandCount (rc w1)) (commandBuffer (rc w1)))) w1)).
Proof.
  intros Hlt Hdue w1. unfold run. simpl update_loop. unfold bind, get.
  destruct (Z.ltb_spec i (commandCount (rc w))) as [_ | Hge]; [| lia].
  rewrite Hdue. rewrite execute_run. rewrite shift_loop_array.
  unfold modify. destruct w1 as [[? ? ? ? ?] ? ? ? ? ?] eqn:E; subst w1.
  rewrite E. reflexivity.
Qed.

Lemma update_loop_spec (now start : Z) (suf : list Command) :
  forall (n : nat) (pre : list Command) (w : World) (i : Z),
    in_bounds w ->
    syncStartTime (rc w) = start ->
    pending w = pre ++ suf ->
    i = Z.of_nat (List.length pre) ->
    (List.length suf <= n)%nat ->
    let isdue := fun c => now >=? to_uint32 (start + relativeDelay c) in
    let w' := run (update_loop n now i) w in
    pending w' = pre ++ filter (fun c => negb (isdue c)) suf /\
    in_bounds w' /\
    List.length (commandBuffer (rc w')) = List.length (commandBuffer (rc w)) /\
    erase w' = erase (fire_all (filter isdue suf) w).
Proof.
  induction suf as [| c suf IH]; intros n pre w i Hb Hst Hp Hi Hn isdue w'.
  - (* nothing left to scan: the loop test fails *)
    destruct (pending_split w Hb) as [_ Hlen].
    rewrite Hp, app_nil_r in Hlen.
    assert (Hw : w' = w) by (apply update_loop_done; lia).
    rewrite Hw, Hp. simpl. auto.
  - destruct n as [| n]; [simpl in Hn; lia |].
    destruct (pending_split w Hb) as [Hbuf Hlen].
    rewrite Hp in Hbuf, Hlen. rewrite length_app in Hlen. simpl in Hlen.
    rewrite <- app_assoc in Hbuf. simpl in Hbuf.
    set (tail := skipn (Z.to_nat (commandCount (rc w))) (commandBuffer (rc w)))
      in Hbuf.
    assert (Hget : array_get no_command (commandBuffer (rc w)) i = c).
    { rewrite Hbuf. apply array_get_middle. exact Hi. }
    simpl filter.
    destruct (isdue c) eqn:Hdue; simpl negb; cbv iota.
    + (* due: execute, shift, decrement, look at position i again *)
      assert (Hstep := update_loop_fire n now i w).
      rewrite Hget, Hst in Hstep. specialize (Hstep ltac:(lia) Hdue).
      cbv zeta in Hstep.
      destruct (execute_frame c w) as (E1 & E2 & E3 & E4 & E5 & E6).
      set (w1 := run (execute c) w) in *.
      set (w3 := with_rc _ (with_rc _ w1)) in Hstep.
      destruct (shift_array_spec suf (Z.to_nat (commandCount (rc w)))
                  pre c tail i (commandCount (rc w1))) as [x Hx].
      { exact Hi. } { rewrite E2. lia. } { lia. }
      assert (Hrc3 : commandBuffer (rc w3) = pre ++ suf ++ x :: tail).
      { unfold w3. simpl. rewrite E1, Hbuf. exact Hx. }
      assert (Hcnt3 : commandCount (rc w3) = commandCount (rc w) - 1).
      { unfold w3. simpl. rewrite E2. reflexivity. }
      assert (Hb3 : in_bounds w3).
      { unfold in_bounds. rewrite Hrc3, Hcnt3, !length_app. simpl. lia. }
      assert (Hp3 : pending w3 = pre ++ suf).
      { unfold pending. rewrite Hrc3, Hcnt3.
        replace (Z.to_nat (commandCount (rc w) - 1))
          with (List.length (pre ++ suf) + 0)%nat
          by (rewrite length_app; lia).
        rewrite app_assoc, firstn_app_2. simpl. apply app_nil_r. }
      assert (Hst3 : syncStartTime (rc w3) = start).
      { unfold w3. simpl. congruence. }
      destruct (IH n pre w3 i Hb3 Hst3 Hp3 Hi) as (R1 & R2 & R3 & R4).
      { simpl in Hn. lia. }
      unfold w'. rewrite Hstep.
      split; [exact R1 |]. split; [exact R2 |]. split.
      * rewrite R3, Hrc3, Hbuf, !length_app. simpl. rewrite !length_app.
        simpl. lia.
      * rewrite R4. simpl fire_all. fold w1.
        apply erase_fire_all. unfold w3. destruct w1 as [[? ? ? ? ?] ? ? ? ? ?].
        reflexivity.
    + (* not yet due: keep it, move on *)
      assert (Hstep := update_loop_wait n now i w).
      rewrite Hget, Hst in Hstep. specialize (Hstep ltac:(lia) Hdue).
      destruct (IH n (pre ++ [c]) w (i + 1) Hb Hst) as (R1 & R2 & R3 & R4).
      { rewrite Hp, <- app_assoc. reflexivity. }
      { rewrite length_app. simpl. lia. }
      { simpl in Hn. lia. }
      unfold w'. rewrite Hstep.
      rewrite <- app_assoc in R1. simpl in R1. auto.
Qed.

(** ** The RESET loop *)

Lemma drive_put_rx (cs : list (Z * Z)) :
  forall (q : list byte) (w : World),
    drive cs (put_rx q w) = put_rx q (drive cs w).
Proof.
  induction cs as [| [i a] cs IH]; intros q w; simpl.
  - reflexivity.
  - rewrite <- IH. reflexivity.
Qed.

Lemma drive_frame (cs : list (Z * Z)) :
  forall w,
    rc (drive cs w) = rc w /\ rx (drive cs w) = rx w /\
    tx (drive cs w) = tx w /\ millis (drive cs w) = millis w /\
    moves (drive cs w) = moves w ++ cs.
Proof.
  induction cs as [| [i a] cs IH]; intro w; simpl.
  - rewrite app_nil_r. repeat split.
  - destruct (IH (run (call_setServoAngle i a) w)) as (H1 & H2 & H3 & H4 & H5).
    rewrite H1, H2, H3, H4, H5. simpl. rewrite <- app_assoc. repeat split.
Qed.

Lemma reset_angle_decoded (hi lo : byte) :
  to_int16 (Z.lor (Z.shiftl (byte_val hi) 8) (byte_val lo))
  = big_endian_int16 hi lo.
Proof.
  apply reset_angle_value; apply byte_val_range.
Qed.

Lemma reset_loop_spec (n : nat) :
  forall (payload rest : list byte) (s : nat) (w : World),
    rx w = payload ++ rest ->
    List.length payload = (2 * n)%nat ->
    reset_loop n (Z.of_nat s) w =
      (tt, put_rx rest
             (drive (combine (map Z.of_nat (seq s n)) (reset_angles payload))
                    w)).
Proof.
  induction n as [| n IH]; intros payload rest s w Hrx Hlen.
  - destruct payload; [| discriminate]. simpl in Hrx. simpl.
    destruct w. simpl in Hrx. subst. reflexivity.
  - destruct payload as [| hi [| lo payload]];
      [simpl in Hlen; lia | simpl in Hlen; lia |].
    simpl in Hrx. cbn [reset_loop]. unfold bind at 1. unfold Serial_read at 1.
    rewrite Hrx. unfold bind at 1. unfold Serial_read at 1. cbn [rx].
    rewrite reset_angle_decoded.
    unfold bind at 1.
    replace (Z.of_nat s + 1) with (Z.of_nat (S s)) by lia.
    set (w2 := {| rc := rc w; rx := payload ++ rest; tx := tx w;
                  millis := millis w; servo := servo w; moves := moves w |}).
    assert (Hcall : call_setServoAngle (Z.of_nat s) (big_endian_int16 hi lo) w2
                    = (tt, put_rx (payload ++ rest)
                             (run (call_setServoAngle (Z.of_nat s)
                                     (big_endian_int16 hi lo)) w)))
      by reflexivity.
    cbn [rc tx millis servo moves]. fold w2. rewrite Hcall.
    rewrite (IH payload rest (S s)).
    + rewrite drive_put_rx. simpl. reflexivity.
    + reflexivity.
    + simpl in Hlen. lia.
Qed.

(** ** One round of the dispatcher, packet by packet *)

Lemma geb_true (a b : Z) : b <= a -> (a >=? b) = true.
Proof. intro H. rewrite Z.geb_leb. apply Z.leb_le. exact H. Qed.

Lemma geb_false (a b : Z) : a < b -> (a >=? b) = false.
Proof. intro H. rewrite Z.geb_leb. apply Z.leb_gt. exact H. Qed.

(** Evaluate the marker tests of the [if] chain for the known first byte. *)
Ltac decide_markers :=
  repeat match goal with
         | |- context [byte_val ?b =? ?m] =>
             let r := eval vm_compute in (byte_val b =? m) in
             change (byte_val b =? m) with r
         end;
  cbn [andb].

Ltac enough_bytes :=
  rewrite geb_true
    by (cbn [List.length];
        unfold COMMAND_PACKET_SIZE, END_PACKET_SIZE, GET_TIME_PACKET_SIZE,
               SYNC_PACKET_SIZE, MAX_RESET_SERVOS;
        lia).

Ltac open_packet :=
  unfold parse_packet;
  unfold bind at 1; unfold Serial_available at 1;
  unfold bind at 1; unfold Serial_peek at 1;
  cbn [rx]; decide_markers.

Ltac run_monad :=
  cbv beta iota zeta delta
    [bind ret get modify Serial_read Serial_write Serial_print Serial_println
     get_millis errorHandler with_rc after append_command
     put_commandCount put_commandBuffer put_syncReceived put_syncStartTime
     rc rx tx millis servo moves
     commandBuffer commandCount syncReceived syncStartTime debugEnabled].

Lemma parse_stop (w : World) (rest : list byte) :
  rx w = xee :: rest ->
  parse_packet w =
    (Continue,
     after w (put_syncReceived false (put_commandCount 0 (rc w))) rest
       [Println (Str "STOPPED")]).
Proof.
  destruct w as [[buf cnt sy st dbg] q t m sv mv]. cbn [rx]. intros ->.
  open_packet. enough_bytes.
  run_monad. reflexivity.
Qed.

Lemma parse_time (w : World) (rest : list byte) :
  rx w = xcc :: rest ->
  parse_packet w =
    (Continue,
     after w (rc w) rest [Print (Str "TIME:"); Println (Num (millis w))]).
Proof.
  destruct w as [[buf cnt sy st dbg] q t m sv mv]. cbn [rx]. intros ->.
  open_packet. enough_bytes.
  run_monad. rewrite <- app_assoc. reflexivity.
Qed.

Lemma parse_pick (w : World) (t a d0 d1 d2 d3 : byte) (rest : list byte) :
  rx w = xbb :: t :: a :: d0 :: d1 :: d2 :: d3 :: rest ->
  commandCount (rc w) < MAX_COMMANDS ->
  parse_packet w =
    (Continue,
     after w (append_command (pick_command t a d0 d1 d2 d3) (rc w)) rest
       (if debugEnabled (rc w)
        then pick_debug (pick_command t a d0 d1 d2 d3) else [])).
Proof.
  destruct w as [[buf cnt sy st dbg] q tr m sv mv]. cbn [rx rc commandCount].
  intros -> Hfree.
  open_packet. enough_bytes.
  run_monad.
  destruct (Z.ltb_spec cnt MAX_COMMANDS) as [_ | Hge]; [| lia].
  rewrite !to_uint8_byte.
  rewrite little_endian_value by apply byte_val_range.
  fold (little_endian32 d0 d1 d2 d3). fold (pick_command t a d0 d1 d2 d3).
  destruct dbg; cbv beta iota; rewrite <- ?app_assoc; try rewrite app_nil_r;
    reflexivity.
Qed.

Lemma parse_pick_full (w : World) (t a d0 d1 d2 d3 : byte) (rest : list byte) :
  rx w = xbb :: t :: a :: d0 :: d1 :: d2 :: d3 :: rest ->
  MAX_COMMANDS <= commandCount (rc w) ->
  parse_packet w =
    (Continue,
     after w (rc w) rest [Println (Str "ERROR: command buffer full")]).
Proof.
  destruct w as [[buf cnt sy st dbg] q tr m sv mv]. cbn [rx rc commandCount].
  intros -> Hfull.
  open_packet. enough_bytes.
  run_monad.
  destruct (Z.ltb_spec cnt MAX_COMMANDS) as [Hlt | _]; [lia |].
  reflexivity.
Qed.

Lemma parse_end (w : World) (d0 d1 d2 d3 : byte) (rest : list byte) :
  rx w = xdd :: d0 :: d1 :: d2 :: d3 :: rest ->
  commandCount (rc w) < MAX_COMMANDS ->
  parse_packet w =
    (Continue,
     after w (append_command (end_command d0 d1 d2 d3) (rc w)) rest []).
Proof.
  destruct w as [[buf cnt sy st dbg] q tr m sv mv]. cbn [rx rc commandCount].
  intros -> Hfree.
  open_packet. enough_bytes.
  run_monad.
  destruct (Z.ltb_spec cnt MAX_COMMANDS) as [_ | Hge]; [| lia].
  rewrite little_endian_value by apply byte_val_range.
  fold (little_endian32 d0 d1 d2 d3). fold (end_command d0 d1 d2 d3).
  rewrite app_nil_r. reflexivity.
Qed.

Lemma parse_end_full (w : World) (d0 d1 d2 d3 : byte) (rest : list byte) :
  rx w = xdd :: d0 :: d1 :: d2 :: d3 :: rest ->
  MAX_COMMANDS <= commandCount (rc w) ->
  parse_packet w = (Continue, after w (rc w) rest []).
Proof.
  destruct w as [[buf cnt sy st dbg] q tr m sv mv]. cbn [rx rc commandCount].
  intros -> Hfull.
  open_packet. enough_bytes.
  run_monad.
  destruct (Z.ltb_spec cnt MAX_COMMANDS) as [Hlt | _]; [lia |].
  rewrite app_nil_r. reflexivity.
Qed.

Lemma parse_sync (w : World) (b3 b2 b1 b0 : byte) (rest : list byte) :
  rx w = xaa :: x01 :: b3 :: b2 :: b1 :: b0 :: rest ->
  parse_packet w =
    (Continue,
     after w
       (put_commandCount 0
          (put_syncReceived true
             (put_syncStartTime (big_endian32 b3 b2 b1 b0) (rc w))))
       rest
       (if debugEnabled (rc w)
        then [Print (Str "RemoteControl: Sync at ");
              Println (Num (big_endian32 b3 b2 b1 b0))]
        else [])).
Proof.
  destruct w as [[buf cnt sy st dbg] q tr m sv mv]. cbn [rx].
  intros ->.
  open_packet. enough_bytes.
  run_monad. decide_markers. cbn [negb].
  rewrite big_endian_value by apply byte_val_range.
  fold (big_endian32 b3 b2 b1 b0).
  destruct dbg; cbv beta iota; rewrite <- ?app_assoc; try rewrite app_nil_r;
    reflexivity.
Qed.

Lemma byte_val_inj (a b : byte) : byte_val a = byte_val b -> a = b.
Proof.
  unfold byte_val. intro H. apply N2Z.inj in H.
  assert (E : Some a = Some b).
  { rewrite <- (Byte.of_to_N a), <- (Byte.of_to_N b), H. reflexivity. }
  congruence.
Qed.

Lemma parse_sync_bad (w : World) (ty : byte) (rest : list byte) :
  rx w = xaa :: ty :: rest ->
  ty <> x01 ->
  (4 <= List.length rest)%nat ->
  parse_packet w =
    (Halt "Unexpected sync packet type",
     after w (rc w) rest (error_report "Unexpected sync packet type")).
Proof.
  destruct w as [[buf cnt sy st dbg] q tr m sv mv]. cbn [rx].
  intros -> Hty Hlen.
  open_packet. enough_bytes.
  run_monad.
  destruct (Z.eqb_spec (byte_val ty) SYNC_TYPE) as [E | _].
  - exfalso. apply Hty. apply byte_val_inj. exact E.
  - cbn [negb]. unfold error_report. rewrite <- app_assoc. reflexivity.
Qed.

Lemma parse_reset (w : World) (payload rest : list byte) :
  rx w = xef :: payload ++ rest ->
  List.length payload = 36%nat ->
  parse_packet w =
    (Continue,
     after (drive (combine (indices 18) (reset_angles payload)) w)
       (rc w) rest
       ((if debugEnabled (rc w)
         then [Println (Str "RemoteControl: Servos RESET to dynamic angles.")]
         else [])
        ++ [Println (Str "RESET_DONE")])).
Proof.
  intros Hrx Hlen.
  unfold parse_packet.
  unfold bind at 1; unfold Serial_available at 1.
  unfold bind at 1; unfold Serial_peek at 1.
  rewrite Hrx. decide_markers.
  rewrite geb_true
    by (cbn [List.length]; rewrite length_app, Hlen;
        unfold MAX_RESET_SERVOS; lia).
  unfold bind at 1. unfold Serial_read at 1. rewrite Hrx.
  unfold bind at 1.
  change {| rc := rc w; rx := payload ++ rest; tx := tx w; millis := millis w;
            servo := servo w; moves := moves w |}
    with (put_rx (payload ++ rest) w).
  rewrite (reset_loop_spec 18 payload rest 0); [| reflexivity | exact Hlen].
  change (map Z.of_nat (seq 0 18)) with (indices 18).
  rewrite drive_put_rx.
  destruct (drive_frame (combine (indices 18) (reset_angles payload)) w)
    as (F1 & F2 & F3 & F4 & _).
  destruct (drive (combine (indices 18) (reset_angles payload)) w)
    as [r' q' t' m' sv' mv'].
  cbn [rc rx tx millis] in F1, F2, F3, F4. subst r' q' t' m'.
  unfold put_rx, after. cbn [rc rx tx millis servo moves].
  unfold bind at 1. unfold get at 1. cbn [rc].
  destruct (debugEnabled (rc w)); run_monad; rewrite <- ?app_assoc;
    reflexivity.
Qed.

Lemma parse_break (w : World) :
  not_framed (rx w) -> parse_packet w = (Break, w).
Proof.
  unfold not_framed. destruct (rx w) as [| b rest] eqn:Hrx; intro H.
  - unfold parse_packet, bind, Serial_available, Serial_peek.
    rewrite Hrx. reflexivity.
  - unfold parse_packet.
    unfold bind at 1; unfold Serial_available at 1.
    unfold bind at 1; unfold Serial_peek at 1.
    rewrite Hrx.
    set (avail := Z.of_nat (List.length (b :: rest))) in *.
    assert (Hpos : 1 <= avail) by (unfold avail; cbn [List.length]; lia).
    unfold packet_size in H.
    unfold STOP_MARKER, RESET_MARKER, COMMAND_MARKER, END_MARKER,
      GET_TIME_MARKER, SYNC_MARKER, COMMAND_PACKET_SIZE, END_PACKET_SIZE,
      GET_TIME_PACKET_SIZE, SYNC_PACKET_SIZE, MAX_RESET_SERVOS.
    destruct (Z.eqb_spec (byte_val b) 0xEE) as [E | _];
      [cbv beta iota in H; lia |].
    destruct (Z.eqb_spec (byte_val b) 0xEF) as [E | _];
      [try rewrite E; cbn [Z.eqb Pos.eqb andb]; rewrite geb_false by exact H;
       reflexivity |].
    destruct (Z.eqb_spec (byte_val b) 0xBB) as [E | _];
      [try rewrite E; cbn [Z.eqb Pos.eqb andb]; rewrite geb_false by exact H;
       reflexivity |].
    destruct (Z.eqb_spec (byte_val b) 0xDD) as [E | _];
      [try rewrite E; cbn [Z.eqb Pos.eqb andb]; rewrite geb_false by exact H;
       reflexivity |].
    destruct (Z.eqb_spec (byte_val b) 0xCC) as [E | _];
      [cbv beta iota in H; lia |].
    destruct (Z.eqb_spec (byte_val b) 0xAA) as [E | _];
      [try rewrite E; cbn [Z.eqb Pos.eqb andb]; rewrite geb_false by exact H;
       reflexivity |].
    reflexivity.
Qed.

Lemma marker_cases (b : byte) :
  b = xee \/ b = xef \/ b = xbb \/ b = xdd \/ b = xcc \/ b = xaa \/
  packet_size (byte_val b) = None.
Proof.
  unfold packet_size.
  destruct (Z.eqb_spec (byte_val b) 0xEE) as [E | _];
    [left; apply byte_val_inj; exact E | right].
  destruct (Z.eqb_spec (byte_val b) 0xEF) as [E | _];
    [left; apply byte_val_inj; exact E | right].
  destruct (Z.eqb_spec (byte_val b) 0xBB) as [E | _];
    [left; apply byte_val_inj; exact E | right].
  destruct (Z.eqb_spec (byte_val b) 0xDD) as [E | _];
    [left; apply byte_val_inj; exact E | right].
  destruct (Z.eqb_spec (byte_val b) 0xCC) as [E | _];
    [left; apply byte_val_inj; exact E | right].
  destruct (Z.eqb_spec (byte_val b) 0xAA) as [E | _];
    [left; apply byte_val_inj; exact E | right].
  reflexivity.
Qed.

Lemma dispatch_not_framed (w : World) :
  not_framed (rx w) ->
  dispatch w (fst (parse_packet w)) (snd (parse_packet w)).
Proof.
  intro H. rewrite (parse_break w H). apply Dispatch_break. exact H.
Qed.

(** The dispatcher does what the relation says, whatever is in the queue. *)
Lemma parse_packet_dispatch (w : World) :
  dispatch w (fst (parse_packet w)) (snd (parse_packet w)).
Proof.
  pose proof (dispatch_not_framed w) as Hbreak.
  destruct (rx w) as [| b rest] eqn:Hrx.
  - apply Hbreak. exact I.
  - destruct (marker_cases b)
      as [-> | [-> | [-> | [-> | [-> | [-> | Hnone]]]]]].
    + rewrite (parse_stop w rest Hrx). apply Dispatch_stop. exact Hrx.
    + destruct (le_lt_dec 36 (List.length rest)) as [Hlen | Hlen].
      * rewrite <- (firstn_skipn 36 rest) in Hrx.
        assert (H36 : List.length (firstn 36 rest) = 36%nat)
          by (rewrite length_firstn; lia).
        rewrite (parse_reset w _ _ Hrx H36).
        apply Dispatch_reset; assumption.
      * apply Hbreak. unfold not_framed.
        change (packet_size (byte_val xef)) with (Some 37).
        cbn [List.length]. lia.
    + destruct rest as [| t [| a [| d0 [| d1 [| d2 [| d3 rest]]]]]];
        try (apply Hbreak; unfold not_framed;
             change (packet_size (byte_val xbb)) with (Some 7);
             cbn [List.length]; lia).
      destruct (Z_lt_le_dec (commandCount (rc w)) MAX_COMMANDS) as [Hc | Hc].
      * rewrite (parse_pick w _ _ _ _ _ _ _ Hrx Hc).
        apply Dispatch_pick; assumption.
      * rewrite (parse_pick_full w _ _ _ _ _ _ _ Hrx Hc).
        apply (Dispatch_pick_full w t a d0 d1 d2 d3); assumption.
    + destruct rest as [| d0 [| d1 [| d2 [| d3 rest]]]];
        try (apply Hbreak; unfold not_framed;
             change (packet_size (byte_val xdd)) with (Some 5);
             cbn [List.length]; lia).
      destruct (Z_lt_le_dec (commandCount (rc w)) MAX_COMMANDS) as [Hc | Hc].
      * rewrite (parse_end w _ _ _ _ _ Hrx Hc).
        apply Dispatch_end; assumption.
      * rewrite (parse_end_full w _ _ _ _ _ Hrx Hc).
        apply (Dispatch_end_full w d0 d1 d2 d3); assumption.
    + rewrite (parse_time w rest Hrx). apply Dispatch_time. exact Hrx.
    + assert (Hshort : (List.length rest < 5)%nat ->
                       dispatch w (fst (parse_packet w))
                                  (snd (parse_packet w))).
      { intro Hlen. apply Hbreak. unfold not_framed.
        change (packet_size (byte_val xaa)) with (Some 6).
        cbn [List.length]. lia. }
      destruct rest as [| ty rest]; [apply Hshort; simpl; lia |].
      destruct (le_lt_dec 4 (List.length rest)) as [Hlen | Hlen];
        [| apply Hshort; simpl; lia].
      destruct (Z.eq_dec (byte_val ty) (byte_val x01)) as [E | E].
      * apply byte_val_inj in E. subst ty.
        destruct rest as [| b3 [| b2 [| b1 [| b0 rest]]]];
          try (simpl in Hlen; lia).
        rewrite (parse_sync w _ _ _ _ _ Hrx). apply Dispatch_sync. exact Hrx.
      * assert (Hty : ty <> x01) by (intros ->; apply E; reflexivity).
        rewrite (parse_sync_bad w ty rest Hrx Hty Hlen).
        apply (Dispatch_sync_bad w ty rest); assumption.
    + apply Hbreak. unfold not_framed. rewrite Hnone. exact I.
Qed.

(** ** The dispatcher's loop *)

Lemma dispatch_consumes (w w' : World) :
  dispatch w Continue w' -> (List.length (rx w') < List.length (rx w))%nat.
Proof.
  intro H. inversion H as
    [rest Hrx | payload rest Hrx Hlen | t a d0 d1 d2 d3 rest Hrx Hc
    | t a d0 d1 d2 d3 rest Hrx Hc | d0 d1 d2 d3 rest Hrx Hc
    | d0 d1 d2 d3 rest Hrx Hc | rest Hrx | b3 b2 b1 b0 rest Hrx | | ];
    subst; rewrite Hrx; cbn [after rx List.length];
    try rewrite length_app; lia.
Qed.

Lemma parse_loop_step (n : nat) (w : World) :
  parse_loop (S n) w =
    match rx w with
    | [] => (None, w)
    | _ :: _ =>
        match parse_packet w with
        | (Continue, w') => parse_loop n w'
        | (Break, w') => (None, w')
        | (Halt msg, w') => (Some msg, w')
        end
    end.
Proof.
  cbn [parse_loop]. unfold bind at 1. unfold Serial_available at 1.
  destruct (rx w) as [| b rest] eqn:Hrx.
  - reflexivity.
  - replace (Z.of_nat (List.length (b :: rest)) >? 0) with true
      by (symmetry; apply Z.gtb_lt; cbn [List.length]; lia).
    unfold bind at 1.
    destruct (parse_packet w) as [[| | msg] w']; reflexivity.
Qed.

(** [List.length (rx w)] rounds are enough: further fuel changes nothing. *)
Lemma parse_loop_fuel (n : nat) :
  forall w, (List.length (rx w) <= n)%nat ->
            parse_loop (S n) w = parse_loop n w.
Proof.
  induction n as [| n IH]; intros w Hlen.
  - rewrite parse_loop_step.
    destruct (rx w) eqn:Hrx;
      [reflexivity | try rewrite Hrx in Hlen; simpl in Hlen; lia].
  - rewrite (parse_loop_step (S n)), (parse_loop_step n).
    destruct (rx w) as [| b rest] eqn:Hrx; [reflexivity |].
    pose proof (parse_packet_dispatch w) as Hd.
    destruct (parse_packet w) as [[| | msg] w']; try reflexivity.
    apply IH. apply dispatch_consumes in Hd. rewrite Hrx in Hd; try rewrite Hrx in Hlen.
    simpl in *. lia.
Qed.

Lemma parse_loop_enough (k n : nat) (w : World) :
  (List.length (rx w) <= n)%nat -> parse_loop (n + k) w = parse_loop n w.
Proof.
  intro Hlen. induction k as [| k IH].
  - rewrite Nat.add_0_r. reflexivity.
  - rewrite Nat.add_succ_r, parse_loop_fuel by lia. exact IH.
Qed.

(** When the loop returns, the front of the queue is no complete packet. *)
Lemma parse_loop_returns (n : nat) :
  forall w, (List.length (rx w) <= n)%nat ->
            fst (parse_loop n w) = None ->
            not_framed (rx (snd (parse_loop n w))).
Proof.
  induction n as [| n IH]; intros w Hlen Hret.
  - destruct (rx w) eqn:Hrx; [| try rewrite Hrx in Hlen; simpl in Hlen; lia].
    simpl. rewrite Hrx. exact I.
  - rewrite parse_loop_step in *.
    destruct (rx w) as [| b rest] eqn:Hrx.
    + simpl. rewrite Hrx. exact I.
    + pose proof (parse_packet_dispatch w) as Hd.
      destruct (parse_packet w) as [[| | msg] w']; cbn [fst snd] in *.
      * apply IH; [| exact Hret].
        apply dispatch_consumes in Hd. rewrite Hrx in Hd; try rewrite Hrx in Hlen.
        simpl in *. lia.
      * inversion Hd; subst; assumption.
      * discriminate.
Qed.

(** ** The invariant of the command buffer *)

Lemma buffer_ok_in_bounds (w : World) : buffer_ok w -> in_bounds w.
Proof. unfold buffer_ok, in_bounds. lia. Qed.

Lemma append_command_ok (c : Command) (r : RemoteControl) :
  Z.of_nat (List.length (commandBuffer r)) = MAX_COMMANDS ->
  0 <= commandCount r < MAX_COMMANDS ->
  Z.of_nat (List.length (commandBuffer (append_command c r))) = MAX_COMMANDS /\
  0 <= commandCount (append_command c r) <= MAX_COMMANDS.
Proof.
  intros Hlen Hc. unfold append_command. cbn.
  rewrite array_set_length. lia.
Qed.

Lemma dispatch_buffer_ok (w : World) (f : flow) (w' : World) :
  dispatch w f w' -> buffer_ok w -> buffer_ok w'.
Proof.
  intros H [Hlen Hc]. unfold buffer_ok.
  inversion H; subst; cbn [after rc]; try (split; assumption).
  - cbn. unfold MAX_COMMANDS in *. lia.
  - apply append_command_ok; [assumption | lia].
  - apply append_command_ok; [assumption | lia].
  - cbn. unfold MAX_COMMANDS in *. lia.
Qed.

Lemma parse_packet_buffer_ok (w : World) :
  buffer_ok w -> buffer_ok (run parse_packet w).
Proof.
  apply (dispatch_buffer_ok w _ _ (parse_packet_dispatch w)).
Qed.

Lemma parse_loop_buffer_ok (n : nat) :
  forall w, buffer_ok w -> buffer_ok (run (parse_loop n) w).
Proof.
  induction n as [| n IH]; intros w Hok.
  - exact Hok.
  - unfold run. rewrite parse_loop_step.
    destruct (rx w); [exact Hok |].
    pose proof (parse_packet_buffer_ok w Hok) as Hok'. unfold run in Hok'.
    destruct (parse_packet w) as [[| | msg] w']; cbn [snd] in *;
      [apply IH | |]; exact Hok'.
Qed.

Lemma parseSerialData_buffer_ok (w : World) :
  buffer_ok w -> buffer_ok (run parseSerialData w).
Proof. apply parse_loop_buffer_ok. Qed.

(** ** The scheduler *)

Lemma update_idle (w : World) :
  syncReceived (rc w) = false -> update w = (tt, w).
Proof.
  intro H. unfold update, bind, get. rewrite H. reflexivity.
Qed.

(** One pass of [update] while scheduling is active: the entries that are
    due fire in buffer order, the others stay, in order. *)
Lemma update_spec (w : World) :
  in_bounds w ->
  syncReceived (rc w) = true ->
  pending (run update w) = filter (fun c => negb (due w c)) (pending w) /\
  in_bounds (run update w) /\
  List.length (commandBuffer (rc (run update w)))
  = List.length (commandBuffer (rc w)) /\
  erase (run update w) = erase (fire_all (filter (due w) (pending w)) w).
Proof.
  intros Hb Hs.
  assert (E : run update w
              = run (update_loop (Z.to_nat (commandCount (rc w))) (millis w) 0)
                    w).
  { unfold run, update, bind, get, get_millis. rewrite Hs. reflexivity. }
  rewrite E.
  destruct (pending_split w Hb) as [_ Hlen].
  apply (update_loop_spec (millis w) (syncStartTime (rc w)) (pending w)
           (Z.to_nat (commandCount (rc w))) [] w 0 Hb eq_refl eq_refl eq_refl).
  lia.
Qed.

(** More fuel than [commandCount - i] changes nothing. *)
Lemma update_loop_fuel (now : Z) (n : nat) :
  forall (i : Z) (w : World),
    commandCount (rc w) - i <= Z.of_nat n ->
    run (update_loop (S n) now i) w = run (update_loop n now i) w.
Proof.
  induction n as [| n IH]; intros i w Hn.
  - rewrite update_loop_done by lia. reflexivity.
  - destruct (Z_lt_le_dec i (commandCount (rc w))) as [Hlt | Hge].
    + destruct (now >=? to_uint32 (syncStartTime (rc w)
                  + relativeDelay (array_get no_command
                                     (commandBuffer (rc w)) i))) eqn:Hdue.
      * rewrite (update_loop_fire (S n) now i w Hlt Hdue).
        rewrite (update_loop_fire n now i w Hlt Hdue).
        apply IH. cbn.
        destruct (execute_frame
                    (array_get no_command (commandBuffer (rc w)) i) w)
          as (_ & E2 & _).
        rewrite E2. lia.
      * rewrite (update_loop_wait (S n) now i w Hlt Hdue).
        rewrite (update_loop_wait n now i w Hlt Hdue).
        apply IH. lia.
    + rewrite !update_loop_done by lia. reflexivity.
Qed.

Lemma fire_all_moves (cs : list Command) :
  forall w,
    moves (fire_all cs w)
    = moves w ++ map (fun c => (targetIndex c, angle c))
                     (filter (fun c => negb (is_end c)) cs).
Proof.
  induction cs as [| c cs IH]; intro w; simpl.
  - rewrite app_nil_r. reflexivity.
  - rewrite IH. unfold is_end.
    destruct w as [[buf cnt sy st dbg] q t m sv mv].
    unfold run, execute, bind, get. simpl.
    destruct (targetIndex c =? 255); simpl.
    + reflexivity.
    + destruct dbg; simpl; rewrite <- app_assoc; reflexivity.
Qed.

Lemma fire_all_active (cs : list Command) :
  forall w,
    syncReceived (rc (fire_all cs w))
    = syncReceived (rc w) && forallb (fun c => negb (is_end c)) cs.
Proof.
  induction cs as [| c cs IH]; intro w; simpl.
  - rewrite andb_true_r. reflexivity.
  - rewrite IH. unfold is_end.
    destruct w as [[buf cnt sy st dbg] q t m sv mv].
    unfold run, execute, bind, get. simpl.
    destruct (targetIndex c =? 255); simpl.
    + rewrite andb_false_r. reflexivity.
    + destruct dbg; reflexivity.
Qed.

Lemma erase_moves (w : World) : moves (erase w) = moves w.
Proof. reflexivity. Qed.

Lemma filter_filter {A : Type} (f g : A -> bool) (l : list A) :
  filter g (filter f l) = filter (fun x => f x && g x) l.
Proof.
  induction l as [| x l IH]; simpl.
  - reflexivity.
  - destruct (f x); simpl; [destruct (g x) |]; rewrite ?IH; reflexivity.
Qed.

Lemma update_buffer_ok (w : World) : buffer_ok w -> buffer_ok (run update w).
Proof.
  intro Hok. destruct (syncReceived (rc w)) eqn:Hs.
  - destruct (update_spec w (buffer_ok_in_bounds w Hok) Hs)
      as (_ & Hb & Hlen & _).
    destruct Hok as [Hl Hc]. unfold buffer_ok, in_bounds in *.
    rewrite Hlen in *. lia.
  - unfold run. rewrite update_idle by exact Hs. exact Hok.
Qed.

Lemma handle_buffer_ok (w : World) : buffer_ok w -> buffer_ok (run handle w).
Proof.
  intro Hok. unfold run, handle. unfold bind at 1.
  pose proof (parseSerialData_buffer_ok w Hok) as H1. unfold run in H1.
  destruct (parseSerialData w) as [[msg |] w1]; cbn [snd] in *.
  - exact H1.
  - unfold bind. pose proof (update_buffer_ok w1 H1) as H2. unfold run in H2.
    destruct (update w1) as [[] w2]. exact H2.
Qed.

Lemma step_buffer_ok (s : System) (e : event) :
  buffer_ok (world s) -> buffer_ok (world (step s e)).
Proof.
  intro Hok. destruct e as [bs | ms | addrs n dbg | b c i |]; cbn [step].
  - exact Hok.
  - exact Hok.
  - destruct (ctl s); [| exact Hok]. cbn [world].
    unfold run, begin, bind, modify, get. cbn.
    destruct dbg; exact Hok.
  - destruct (ctl s); [| exact Hok]. cbn [world].
    unfold run, addServo, bind, get. cbn.
    destruct (debugEnabled (rc (world s))); exact Hok.
  - destruct (ctl s) as [| msg].
    + pose proof (handle_buffer_ok (world s) Hok) as H. unfold run in H.
      destruct (handle (world s)) as [[m |] w']; exact H.
    + exact Hok.
Qed.

Lemma steps_buffer_ok (es : list event) :
  forall s, buffer_ok (world s) -> buffer_ok (world (steps s es)).
Proof.
  induction es as [| e es IH]; intros s Hok; cbn.
  - exact Hok.
  - apply IH. apply step_buffer_ok. exact Hok.
Qed.

Lemma power_on_buffer_ok (slots : list Command) (t0 : Z) :
  Z.of_nat (List.length slots) = MAX_COMMANDS ->
  buffer_ok (world (power_on slots t0)).
Proof.
  intro H. unfold buffer_ok. cbn. unfold MAX_COMMANDS in *. lia.
Qed.

(** * Specified behaviour *)

(** ** STOP *)

(** C6. A STOP packet (the byte 0xEE at the front of the queue, whatever
    follows it and whatever the sync state) is consumed, empties the command
    buffer, deactivates scheduling and prints the line STOPPED within the
    same round of the dispatcher, which then continues. *)
Theorem stop_clears_buffer_and_deactivates (w : World) (rest : list byte) :
  rx w = xee :: rest ->
  fst (parse_packet w) = Continue /\
  commandCount (rc (run parse_packet w)) = 0 /\
  pending (run parse_packet w) = [] /\
  syncReceived (rc (run parse_packet w)) = false /\
  tx (run parse_packet w) = tx w ++ [Println (Str "STOPPED")] /\
  rx (run parse_packet w) = rest /\
  moves (run parse_packet w) = moves w.
Proof.
  intro Hrx. unfold run. rewrite (parse_stop w rest Hrx).
  cbn. repeat split.
Qed.

Lemma stop_clears_buffer_and_deactivates_witness :
  let w := example_world [mkCommand 3 90 500] 1 true 1000 [xee; xbb; x03] 1200 in
  rx w = xee :: [xbb; x03] /\
  commandCount (rc (run parse_packet w)) = 0 /\
  syncReceived (rc (run parse_packet w)) = false /\
  tx (run parse_packet w) = [Println (Str "STOPPED")].
Proof.
  intro w.
  destruct (stop_clears_buffer_and_deactivates w [xbb; x03] eq_refl)
    as (_ & H1 & _ & H2 & H3 & _).
  split; [reflexivity |]. split; [exact H1 |]. split; [exact H2 | exact H3].
Defined.

(** ** SYNC *)

Lemma update_nothing_pending (w : World) :
  commandCount (rc w) = 0 -> run update w = w.
Proof.
  intro H. unfold run, update, bind, get, get_millis.
  destruct (syncReceived (rc w)); cbn [negb]; [| reflexivity].
  rewrite H. reflexivity.
Qed.

(** C3. A complete SYNC packet with type byte 0x01 leaves the command buffer
    empty, scheduling active and the baseline equal to the big-endian value
    of its four time bytes, whatever the buffer and the sync state were.
    No command is executed by it, and a scheduler pass after it, at any
    later time, finds nothing to execute: what was buffered is gone. *)
Theorem sync_resets_buffer_and_baseline (w : World) (b3 b2 b1 b0 : byte)
  (rest : list byte) :
  rx w = xaa :: x01 :: b3 :: b2 :: b1 :: b0 :: rest ->
  let w' := run parse_packet w in
  fst (parse_packet w) = Continue /\
  commandCount (rc w') = 0 /\
  pending w' = [] /\
  syncReceived (rc w') = true /\
  syncStartTime (rc w') = big_endian32 b3 b2 b1 b0 /\
  rx w' = rest /\
  moves w' = moves w /\
  (forall ms, run update (run (delay ms) w') = run (delay ms) w').
Proof.
  intros Hrx w'. unfold w', run. rewrite (parse_sync w _ _ _ _ _ Hrx).
  cbn [fst snd after rc rx moves put_commandCount commandCount syncReceived
       put_syncReceived put_syncStartTime syncStartTime].
  do 7 (split; [reflexivity |]).
  intro ms. apply update_nothing_pending. reflexivity.
Qed.

Lemma sync_resets_buffer_and_baseline_witness :
  let w := example_world [mkCommand 3 90 500] 1 false 77
             [xaa; x01; x00; x00; x03; xe8; xcc] 1200 in
  rx w = xaa :: x01 :: x00 :: x00 :: x03 :: xe8 :: [xcc] /\
  pending w = [mkCommand 3 90 500] /\
  pending (run parse_packet w) = [] /\
  syncReceived (rc (run parse_packet w)) = true /\
  syncStartTime (rc (run parse_packet w)) = 1000.
Proof.
  intro w.
  destruct (sync_resets_buffer_and_baseline w x00 x00 x03 xe8 [xcc] eq_refl)
    as (_ & _ & H1 & H2 & H3 & _).
  split; [reflexivity |]. split; [reflexivity |].
  split; [exact H1 |]. split; [exact H2 | exact H3].
Defined.

(** ** Incomplete and unknown fronts *)

(** C8. When the byte at the front of the queue announces a known packet
    that has not arrived in full, or is no known marker, the round of the
    dispatcher breaks out of the loop and the whole pass returns with the
    world exactly as it was: no byte read, object and output untouched. *)
Theorem unframed_front_is_left_in_place (w : World) :
  not_framed (rx w) ->
  parse_packet w = (Break, w) /\ parseSerialData w = (None, w).
Proof.
  intro H. pose proof (parse_break w H) as Hb. split; [exact Hb |].
  unfold parseSerialData. rewrite parse_loop_step.
  destruct (rx w); [reflexivity |]. rewrite Hb. reflexivity.
Qed.

Lemma unframed_front_is_left_in_place_witness :
  let partial := example_world [no_command] 0 true 1000
                   [xbb; x03; x5a; xf4] 1200 in
  let unknown := example_world [no_command] 0 true 1000
                   [x42; xee] 1200 in
  (not_framed (rx partial) /\ parseSerialData partial = (None, partial)) /\
  (not_framed (rx unknown) /\ parseSerialData unknown = (None, unknown)).
Proof.
  intros partial unknown.
  assert (Hp : not_framed (rx partial)) by (vm_compute; reflexivity).
  assert (Hu : not_framed (rx unknown)) by exact I.
  split.
  - split; [exact Hp |].
    exact (proj2 (unframed_front_is_left_in_place partial Hp)).
  - split; [exact Hu |].
    exact (proj2 (unframed_front_is_left_in_place unknown Hu)).
Defined.

(** ** The scheduler pass *)

Lemma execTime_exact (w : World) (c : Command) :
  0 <= syncStartTime (rc w) + relativeDelay c < 2 ^ 32 ->
  execTime w c = syncStartTime (rc w) + relativeDelay c.
Proof. apply to_uint32_small. Qed.

(** One pass of the scheduler in the code's own terms: the entries that
    [update] takes to be due ([now >= execTime], the sum in [unsigned long]
    arithmetic) fire in buffer order and leave the buffer, the others stay in
    their order.  Stated for an array of any length; the object's array
    ([buffer_ok]) is one instance. *)
Lemma update_fires_the_due_entries (w : World) :
  in_bounds w ->
  syncReceived (rc w) = true ->
  let w' := run update w in
  moves w' = moves w ++ map (fun c => (targetIndex c, angle c))
                            (filter (fun c => due w c && negb (is_end c))
                                    (pending w)) /\
  pending w' = filter (fun c => negb (due w c)) (pending w) /\
  commandCount (rc w') = Z.of_nat (List.length (pending w')).
Proof.
  intros Hb Hs w'.
  destruct (update_spec w Hb Hs) as (Hp & Hb' & _ & He).
  fold w' in Hp, Hb', He.
  split; [| split].
  - rewrite <- (erase_moves w'), He, erase_moves, fire_all_moves.
    rewrite filter_filter. reflexivity.
  - exact Hp.
  - destruct (pending_split w' Hb') as [_ Hlen]. symmetry. exact Hlen.
Qed.

(** Where the sum fits the clock, the code's test is the comparison with the
    plain sum. *)
Lemma due_time_reached (w : World) (c : Command) :
  fits_clock w c -> due w c = time_reached w c.
Proof.
  intro H. unfold due, time_reached.
  rewrite execTime_exact by exact H. apply Z.geb_leb.
Qed.




(** The same pass one millisecond earlier: nothing moves. *)
Example update_not_before_due :
  let w := world (steps (power_on [no_command] 0)
                    [Receive [xaa; x01; x00; x00; x03; xe8];
                     Receive [xbb; x03; x5a; xf4; x01; x00; x00];
                     Round; Elapse 1499]) in
  moves (run update w) = [] /\ pending (run update w) = [mkCommand 3 90 500].
Proof. vm_compute. split; reflexivity. Qed.

(** The scan on a longer array: the due picks in the middle and at the end
    fire, the first entry waits. *)
Example update_scans_every_position :
  let w := example_world
             [mkCommand 1 10 900; mkCommand 2 20 100; mkCommand 3 30 100]
             3 true 1000 [] 1100 in
  moves (run update w) = [(2, 20); (3, 30)] /\
  pending (run update w) = [mkCommand 1 10 900].
Proof. vm_compute. split; reflexivity. Qed.

Lemma pending_at_most_one (w : World) :
  buffer_ok w -> (List.length (pending w) <= 1)%nat.
Proof.
  intros [Hl Hc]. unfold pending. rewrite length_firstn.
  unfold MAX_COMMANDS in *. lia.
Qed.

(** A round of the dispatcher turns scheduling on only for a SYNC packet. *)
Lemma dispatch_stays_inactive (w : World) (f : flow) (w' : World) :
  dispatch w f w' ->
  syncReceived (rc w) = false ->
  fst (Serial_peek w) <> SYNC_MARKER ->
  syncReceived (rc w') = false.
Proof.
  intros H Hs Hm.
  inversion H as
    [rest Hrx | payload rest Hrx Hlen | t a d0 d1 d2 d3 rest Hrx Hc
    | t a d0 d1 d2 d3 rest Hrx Hc | d0 d1 d2 d3 rest Hrx Hc
    | d0 d1 d2 d3 rest Hrx Hc | rest Hrx | b3 b2 b1 b0 rest Hrx
    | ty rest Hrx Hty Hlen | Hnf]; subst; cbn; try exact Hs;
    try reflexivity.
  exfalso. apply Hm. unfold Serial_peek. rewrite Hrx. reflexivity.
Qed.

(** C1. When a pass of the scheduler finds the end-of-sequence entry due,
    it prints DONE, turns scheduling off and empties the buffer, and no
    command is executed in that pass: the buffer has one slot, so the
    sentinel is the only entry.  From then on the scheduler does nothing as
    long as scheduling is off, and the dispatcher turns it on again only for
    a SYNC packet. *)
Theorem end_of_sequence_is_a_full_stop (w : World) (c : Command) :
  buffer_ok w ->
  syncReceived (rc w) = true ->
  In c (pending w) ->
  is_end c = true ->
  due w c = true ->
  let w' := run update w in
  tx w' = tx w ++ [Println (Str "DONE")] /\
  syncReceived (rc w') = false /\
  moves w' = moves w /\
  servo w' = servo w /\
  pending w' = [] /\
  (forall v, syncReceived (rc v) = false -> run update v = v) /\
  (forall v, syncReceived (rc v) = false ->
             fst (Serial_peek v) <> SYNC_MARKER ->
             syncReceived (rc (run parse_packet v)) = false).
Proof.
  intros Hok Hs Hin Hend Hdue w'.
  assert (Hp : pending w = [c]).
  { pose proof (pending_at_most_one w Hok) as Hlen.
    destruct (pending w) as [| x [| y l]]; simpl in *;
      [contradiction | | lia].
    destruct Hin as [-> | []]. reflexivity. }
  destruct (update_spec w (buffer_ok_in_bounds w Hok) Hs) as (Hp' & _ & _ & He).
  fold w' in Hp', He. rewrite Hp in Hp', He. simpl in Hp', He.
  rewrite Hdue in Hp', He. simpl in Hp', He.
  assert (Hx : run (execute c) w
               = {| rc := put_syncReceived false (rc w); rx := rx w;
                    tx := tx w ++ [Println (Str "DONE")]; millis := millis w;
                    servo := servo w; moves := moves w |}).
  { unfold run, execute. unfold is_end in Hend. rewrite Hend. reflexivity. }
  rewrite Hx in He.
  split; [| split; [| split; [| split; [| split; [| split]]]]].
  - change (tx w') with (tx (erase w')). rewrite He. reflexivity.
  - change (syncReceived (rc w')) with (syncReceived (rc (erase w'))).
    rewrite He. reflexivity.
  - change (moves w') with (moves (erase w')). rewrite He. reflexivity.
  - change (servo w') with (servo (erase w')). rewrite He. reflexivity.
  - exact Hp'.
  - intros v Hv. unfold run. rewrite update_idle by exact Hv. reflexivity.
  - intros v Hv Hm.
    exact (dispatch_stays_inactive v _ _ (parse_packet_dispatch v) Hv Hm).
Qed.

Lemma end_of_sequence_is_a_full_stop_witness :
  let w := world (steps (power_on [no_command] 0)
                    [Receive [xaa; x01; x00; x00; x03; xe8];
                     Receive [xdd; xf4; x01; x00; x00];
                     Round; Elapse 1500]) in
  let c := mkCommand 255 0 500 in
  (buffer_ok w /\ syncReceived (rc w) = true /\ In c (pending w) /\
   is_end c = true /\ due w c = true) /\
  tx (run update w) = [Println (Str "DONE")] /\
  syncReceived (rc (run update w)) = false /\
  moves (run update w) = [].
Proof.
  intros w c.
  assert (Hok : buffer_ok w) by (vm_compute; repeat split; discriminate).
  assert (Hs : syncReceived (rc w) = true) by (vm_compute; reflexivity).
  assert (Hin : In c (pending w)) by (vm_compute; left; reflexivity).
  assert (Hend : is_end c = true) by (vm_compute; reflexivity).
  assert (Hdue : due w c = true) by (vm_compute; reflexivity).
  destruct (end_of_sequence_is_a_full_stop w c Hok Hs Hin Hend Hdue)
    as (H1 & H2 & H3 & _).
  split; [| split; [| split]].
  - split; [exact Hok |]. split; [exact Hs |]. split; [exact Hin |].
    split; [exact Hend | exact Hdue].
  - rewrite H1. vm_compute. reflexivity.
  - exact H2.
  - rewrite H3. vm_compute. reflexivity.
Defined.

(** The loop of [update] itself does not leave at the sentinel: on an array
    of two slots, which the object does not have, the entry behind a due
    sentinel would still fire in the same pass. *)
Example scan_goes_on_behind_the_sentinel :
  let w := example_world [mkCommand 255 0 100; mkCommand 3 30 100]
             2 true 1000 [] 1100 in
  moves (run update w) = [(3, 30)] /\
  syncReceived (rc (run update w)) = false /\
  ~ buffer_ok w.
Proof.
  split; [reflexivity |]. split; [reflexivity |].
  intros [Hlen _]. discriminate Hlen.
Qed.

(** ** RESET *)

Lemma reset_angles_length (n : nat) :
  forall payload, List.length payload = (2 * n)%nat ->
                  List.length (reset_angles payload) = n.
Proof.
  induction n as [| n IH]; intros payload Hlen.
  - destruct payload; [reflexivity | discriminate].
  - destruct payload as [| hi [| lo payload]];
      [simpl in Hlen; lia | simpl in Hlen; lia |].
    simpl. rewrite IH; [reflexivity | simpl in Hlen; lia].
Qed.

Lemma reset_angles_nth (k : nat) :
  forall payload,
    (2 * k + 1 < List.length payload)%nat ->
    nth k (reset_angles payload) 0
    = big_endian_int16 (nth (2 * k) payload x00) (nth (2 * k + 1) payload x00).
Proof.
  induction k as [| k IH]; intros payload Hlen.
  - destruct payload as [| hi [| lo payload]];
      [simpl in Hlen; lia | simpl in Hlen; lia | reflexivity].
  - destruct payload as [| hi [| lo payload]];
      [simpl in Hlen; lia | simpl in Hlen; lia |].
    replace (2 * S k)%nat with (S (S (2 * k))) by lia.
    cbn [reset_angles nth Nat.add].
    apply IH. simpl in Hlen. lia.
Qed.

Lemma indices_length (n : nat) : List.length (indices (Z.of_nat n)) = n.
Proof.
  unfold indices. rewrite length_map, length_seq. apply Nat2Z.id.
Qed.

Lemma indices_nth (n k : nat) :
  (k < n)%nat -> nth k (indices (Z.of_nat n)) 0 = Z.of_nat k.
Proof.
  intro H. unfold indices. rewrite Nat2Z.id.
  change 0 with (Z.of_nat 0). rewrite map_nth, seq_nth by exact H.
  reflexivity.
Qed.

(** C7. A complete RESET packet (0xEF and 2 * 18 bytes) makes the
    dispatcher call the driver 18 times ([MAX_RESET_SERVOS], which is
    [MAX_SERVOS]), call [k] for servo [k] with the signed big-endian 16-bit
    value of the [k]-th byte pair, in the same round; the object (buffer,
    count, sync state) is untouched and nothing depends on it; the line
    RESET_DONE is printed last. *)
Theorem reset_drives_every_servo_at_once (w : World)
  (payload rest : list byte) :
  rx w = xef :: payload ++ rest ->
  List.length payload = 36%nat ->
  let w' := run parse_packet w in
  let calls := combine (indices MAX_SERVOS) (reset_angles payload) in
  MAX_RESET_SERVOS = MAX_SERVOS /\
  fst (parse_packet w) = Continue /\
  moves w' = moves w ++ calls /\
  List.length calls = 18%nat /\
  (forall k, (k < 18)%nat ->
             nth k calls (0, 0)
             = (Z.of_nat k,
                big_endian_int16 (nth (2 * k) payload x00)
                                 (nth (2 * k + 1) payload x00))) /\
  rc w' = rc w /\
  rx w' = rest /\
  tx w' = tx w
          ++ (if debugEnabled (rc w)
              then [Println (Str "RemoteControl: Servos RESET to dynamic angles.")]
              else [])
          ++ [Println (Str "RESET_DONE")].
Proof.
  intros Hrx Hlen w' calls. unfold w', run.
  rewrite (parse_reset w payload rest Hrx Hlen).
  change (combine (indices 18) (reset_angles payload)) with calls.
  destruct (drive_frame calls w) as (F1 & F2 & F3 & F4 & F5).
  pose proof (reset_angles_length 18 payload Hlen) as Hla.
  pose proof (indices_length 18) as Hli.
  cbn [fst snd after rc rx tx moves].
  split; [reflexivity |]. split; [reflexivity |]. split; [exact F5 |].
  split; [| split; [| split; [| split]]].
  - unfold calls. rewrite length_combine.
    change (indices MAX_SERVOS) with (indices (Z.of_nat 18)).
    rewrite Hli, Hla. reflexivity.
  - intros k Hk. unfold calls.
    change (indices MAX_SERVOS) with (indices (Z.of_nat 18)).
    rewrite combine_nth by (rewrite Hli, Hla; reflexivity).
    rewrite indices_nth by exact Hk.
    rewrite reset_angles_nth by lia. reflexivity.
  - reflexivity.
  - reflexivity.
  - rewrite F3. reflexivity.
Qed.

Lemma reset_drives_every_servo_at_once_witness :
  let payload := [x00; x5a; xff; xff; x00; x00; x00; x00; x00; x00; x00; x00;
                  x00; x00; x00; x00; x00; x00; x00; x00; x00; x00; x00; x00;
                  x00; x00; x00; x00; x00; x00; x00; x00; x00; x00; x00; xb4] in
  let w := example_world [mkCommand 3 90 500] 1 false 0
             (xef :: payload ++ [xcc]) 1200 in
  (rx w = xef :: payload ++ [xcc] /\ List.length payload = 36%nat) /\
  moves (run parse_packet w)
  = [(0, 90); (1, -1); (2, 0); (3, 0); (4, 0); (5, 0); (6, 0); (7, 0); (8, 0);
     (9, 0); (10, 0); (11, 0); (12, 0); (13, 0); (14, 0); (15, 0); (16, 0);
     (17, 180)] /\
  pending (run parse_packet w) = [mkCommand 3 90 500] /\
  tx (run parse_packet w) = [Println (Str "RESET_DONE")].
Proof.
  intros payload w.
  destruct (reset_drives_every_servo_at_once w payload [xcc] eq_refl eq_refl)
    as (_ & _ & H1 & _ & _ & H2 & _ & H3).
  split; [split; reflexivity |].
  split; [exact H1 |]. split; [| exact H3].
  unfold pending. rewrite H2. reflexivity.
Defined.

(** ** Byte orders *)

Lemma pending_append (c : Command) (w w' : World) :
  in_bounds w ->
  commandCount (rc w) < Z.of_nat (List.length (commandBuffer (rc w))) ->
  rc w' = append_command c (rc w) ->
  pending w' = pending w ++ [c].
Proof.
  intros Hb Hfree Hrc.
  destruct (pending_split w Hb) as [Hbuf Hlen].
  unfold pending at 1. rewrite Hrc. cbn.
  destruct (skipn (Z.to_nat (commandCount (rc w))) (commandBuffer (rc w)))
    as [| x tl] eqn:Hsk.
  - rewrite app_nil_r in Hbuf. rewrite Hbuf, Hlen in Hfree at 1. lia.
  - rewrite Hbuf at 1.
    rewrite array_set_middle by (symmetry; exact Hlen).
    replace (Z.to_nat (commandCount (rc w) + 1))
      with (List.length (pending w) + 1)%nat by lia.
    rewrite firstn_app_2. reflexivity.
Qed.

(** C9. The dispatcher decodes the four delay bytes of a PICK and of an END
    packet least significant byte first, and the four time bytes of a SYNC
    packet and every byte pair of a RESET packet most significant byte
    first: the entry it buffers (when the buffer has room), the baseline it
    records and the angles it hands to the driver are the positional values
    of the packet's bytes in that order, the angles read as signed 16-bit
    numbers. *)
Theorem wire_format_byte_orders (w : World) :
  (forall t a d0 d1 d2 d3 rest,
      rx w = xbb :: t :: a :: d0 :: d1 :: d2 :: d3 :: rest ->
      buffer_ok w ->
      commandCount (rc w) < MAX_COMMANDS ->
      pending (run parse_packet w)
      = pending w
        ++ [{| targetIndex := byte_val t; angle := byte_val a;
               relativeDelay :=
                 byte_val d0 + byte_val d1 * 2 ^ 8 + byte_val d2 * 2 ^ 16
                 + byte_val d3 * 2 ^ 24 |}]) /\
  (forall d0 d1 d2 d3 rest,
      rx w = xdd :: d0 :: d1 :: d2 :: d3 :: rest ->
      buffer_ok w ->
      commandCount (rc w) < MAX_COMMANDS ->
      pending (run parse_packet w)
      = pending w
        ++ [{| targetIndex := 255; angle := 0;
               relativeDelay :=
                 byte_val d0 + byte_val d1 * 2 ^ 8 + byte_val d2 * 2 ^ 16
                 + byte_val d3 * 2 ^ 24 |}]) /\
  (forall b3 b2 b1 b0 rest,
      rx w = xaa :: x01 :: b3 :: b2 :: b1 :: b0 :: rest ->
      syncStartTime (rc (run parse_packet w))
      = byte_val b3 * 2 ^ 24 + byte_val b2 * 2 ^ 16 + byte_val b1 * 2 ^ 8
        + byte_val b0) /\
  (forall payload rest,
      rx w = xef :: payload ++ rest ->
      List.length payload = 36%nat ->
      moves (run parse_packet w)
      = moves w ++ combine (indices 18) (reset_angles payload) /\
      forall k, (k < 18)%nat ->
                nth k (reset_angles payload) 0
                = let u := byte_val (nth (2 * k) payload x00) * 2 ^ 8
                           + byte_val (nth (2 * k + 1) payload x00) in
                  if u <? 2 ^ 15 then u else u - 2 ^ 16).
Proof.
  assert (Hroom : buffer_ok w -> commandCount (rc w) < MAX_COMMANDS ->
                  commandCount (rc w)
                  < Z.of_nat (List.length (commandBuffer (rc w))))
    by (intros [Hl _] Hfree; lia).
  split; [| split; [| split]].
  - intros t a d0 d1 d2 d3 rest Hrx Hok Hfree.
    apply (pending_append (pick_command t a d0 d1 d2 d3) w _
             (buffer_ok_in_bounds w Hok) (Hroom Hok Hfree)).
    unfold run. rewrite (parse_pick w _ _ _ _ _ _ _ Hrx Hfree). reflexivity.
  - intros d0 d1 d2 d3 rest Hrx Hok Hfree.
    apply (pending_append (end_command d0 d1 d2 d3) w _
             (buffer_ok_in_bounds w Hok) (Hroom Hok Hfree)).
    unfold run. rewrite (parse_end w _ _ _ _ _ Hrx Hfree). reflexivity.
  - intros b3 b2 b1 b0 rest Hrx.
    unfold run. rewrite (parse_sync w _ _ _ _ _ Hrx). reflexivity.
  - intros payload rest Hrx Hlen. split.
    + unfold run. rewrite (parse_reset w payload rest Hrx Hlen).
      cbn [snd after moves].
      destruct (drive_frame (combine (indices 18) (reset_angles payload)) w)
        as (_ & _ & _ & _ & F5).
      exact F5.
    + intros k Hk. rewrite reset_angles_nth by lia. reflexivity.
Qed.

Lemma wire_format_byte_orders_witness :
  let w := example_world [no_command] 0 true 1000
             [xbb; x03; x5a; xf4; x01; x00; x00] 1200 in
  (rx w = [xbb; x03; x5a; xf4; x01; x00; x00] /\ buffer_ok w /\
   commandCount (rc w) < MAX_COMMANDS) /\
  pending (run parse_packet w) = [mkCommand 3 90 500].
Proof.
  intro w.
  assert (Hok : buffer_ok w) by (vm_compute; repeat split; discriminate).
  assert (Hfree : commandCount (rc w) < MAX_COMMANDS) by reflexivity.
  split; [split; [reflexivity | split; [exact Hok | exact Hfree]] |].
  exact (proj1 (wire_format_byte_orders w)
           x03 x5a xf4 x01 x00 x00 [] eq_refl Hok Hfree).
Defined.

(** The same delay bytes read the other way round would be 4093706240. *)
Example byte_orders_differ :
  little_endian32 xf4 x01 x00 x00 = 500 /\
  big_endian32 xf4 x01 x00 x00 = 4093706240 /\
  big_endian32 x00 x00 x03 xe8 = 1000 /\
  big_endian_int16 xff xa6 = -90.
Proof. repeat split. Qed.

(** ** Capacity *)

(** C10. The buffer has one slot.  From power-on, whatever arrives and
    whenever the firmware runs, the count stays between 0 and 1, so at most
    one entry is pending; the dispatcher, the scheduler and a whole
    [handle()] each keep it so; and a PICK or END packet that is framed while
    an entry is pending leaves the buffer and the count as they were. *)
Theorem buffer_holds_at_most_one_command (slots : list Command) (t0 : Z)
  (es : list event) :
  List.length slots = 1%nat ->
  let w := world (steps (power_on slots t0) es) in
  MAX_COMMANDS = 1 /\
  0 <= commandCount (rc w) <= 1 /\
  (List.length (pending w) <= 1)%nat /\
  buffer_ok (run parse_packet w) /\
  buffer_ok (run parseSerialData w) /\
  buffer_ok (run update w) /\
  buffer_ok (run handle w) /\
  (commandCount (rc w) = 1 ->
   (forall t a d0 d1 d2 d3 rest,
       rx w = xbb :: t :: a :: d0 :: d1 :: d2 :: d3 :: rest ->
       rc (run parse_packet w) = rc w) /\
   (forall d0 d1 d2 d3 rest,
       rx w = xdd :: d0 :: d1 :: d2 :: d3 :: rest ->
       rc (run parse_packet w) = rc w)).
Proof.
  intros Hslots w.
  assert (Hok : buffer_ok w).
  { apply steps_buffer_ok, power_on_buffer_ok. rewrite Hslots. reflexivity. }
  split; [reflexivity |].
  split; [exact (proj2 Hok) |].
  split; [exact (pending_at_most_one w Hok) |].
  split; [exact (parse_packet_buffer_ok w Hok) |].
  split; [exact (parseSerialData_buffer_ok w Hok) |].
  split; [exact (update_buffer_ok w Hok) |].
  split; [exact (handle_buffer_ok w Hok) |].
  intro Hfull.
  assert (Hc : MAX_COMMANDS <= commandCount (rc w))
    by (rewrite Hfull; unfold MAX_COMMANDS; lia).
  split.
  - intros t a d0 d1 d2 d3 rest Hrx. unfold run.
    rewrite (parse_pick_full w _ _ _ _ _ _ _ Hrx Hc). reflexivity.
  - intros d0 d1 d2 d3 rest Hrx. unfold run.
    rewrite (parse_end_full w _ _ _ _ _ Hrx Hc). reflexivity.
Qed.

Lemma buffer_holds_at_most_one_command_witness :
  let es := [Receive [xaa; x01; x00; x00; x03; xe8];
             Receive [xbb; x03; x5a; xf4; x01; x00; x00];
             Receive [xbb; x04; x2d; x64; x00; x00; x00];
             Round] in
  let w := world (steps (power_on [no_command] 0) es) in
  List.length [no_command] = 1%nat /\
  0 <= commandCount (rc w) <= 1 /\
  pending w = [mkCommand 3 90 500] /\
  tx w = [Println (Str "ERROR: command buffer full")].
Proof.
  intros es w.
  destruct (buffer_holds_at_most_one_command [no_command] 0 es eq_refl)
    as (_ & H & _).
  split; [reflexivity |]. split; [exact H |].
  split; vm_compute; reflexivity.
Defined.

(** ** A full buffer *)

(** A PICK packet that finds the buffer full is read, reported and dropped;
    the round continues. *)
Lemma pick_on_full_buffer (w : World) (t a d0 d1 d2 d3 : byte)
  (rest : list byte) :
  rx w = xbb :: t :: a :: d0 :: d1 :: d2 :: d3 :: rest ->
  MAX_COMMANDS <= commandCount (rc w) ->
  fst (parse_packet w) = Continue /\
  rc (run parse_packet w) = rc w /\
  rx (run parse_packet w) = rest /\
  tx (run parse_packet w) = tx w ++ [Println (Str "ERROR: command buffer full")].
Proof.
  intros Hrx Hc. unfold run. rewrite (parse_pick_full w _ _ _ _ _ _ _ Hrx Hc).
  repeat split.
Qed.

(** An END packet that finds the buffer full is read and dropped, and the
    round continues, but nothing is printed. *)
Lemma end_on_full_buffer (w : World) (d0 d1 d2 d3 : byte) (rest : list byte) :
  rx w = xdd :: d0 :: d1 :: d2 :: d3 :: rest ->
  MAX_COMMANDS <= commandCount (rc w) ->
  fst (parse_packet w) = Continue /\
  rc (run parse_packet w) = rc w /\
  rx (run parse_packet w) = rest /\
  tx (run parse_packet w) = tx w.
Proof.
  intros Hrx Hc. unfold run. rewrite (parse_end_full w _ _ _ _ _ Hrx Hc).
  cbn. rewrite app_nil_r. repeat split.
Qed.

(** C2.  The firmware after SYNC(1000) and PICK(3, 90, 500), with an END(600)
    packet arriving while the pick is pending: the END packet is read and
    dropped, the pick stays, the dispatcher goes on, and nothing at all is
    printed.  A second PICK in the same situation prints the error line
    ([pick_on_full_buffer]). *)
Theorem end_packet_on_full_buffer_reports_nothing :
  let w := world (steps (power_on [no_command] 0)
                    [Receive [xaa; x01; x00; x00; x03; xe8];
                     Receive [xbb; x03; x5a; xf4; x01; x00; x00];
                     Round;
                     Receive [xdd; x58; x02; x00; x00]]) in
  commandCount (rc w) = MAX_COMMANDS /\
  pending w = [mkCommand 3 90 500] /\
  rx w = [xdd; x58; x02; x00; x00] /\
  tx w = [] /\
  fst (parse_packet w) = Continue /\
  pending (run parse_packet w) = [mkCommand 3 90 500] /\
  rx (run parse_packet w) = [] /\
  tx (run parse_packet w) = [] /\
  tx (world (steps (power_on [no_command] 0)
               [Receive [xaa; x01; x00; x00; x03; xe8];
                Receive [xbb; x03; x5a; xf4; x01; x00; x00];
                Round;
                Receive [xdd; x58; x02; x00; x00];
                Round])) = [].
Proof.
  vm_compute. repeat split.
Qed.

(** ** The fatal halt *)

Lemma handle_bad_sync (w : World) (ty : byte) (rest : list byte) :
  rx w = xaa :: ty :: rest ->
  ty <> x01 ->
  (4 <= List.length rest)%nat ->
  handle w =
    (Some "Unexpected sync packet type"%string,
     after w (rc w) rest (error_report "Unexpected sync packet type")).
Proof.
  intros Hrx Hty Hlen. unfold handle, bind, parseSerialData.
  rewrite parse_loop_step, Hrx, <- Hrx.
  rewrite (parse_sync_bad w ty rest Hrx Hty Hlen). reflexivity.
Qed.

(** Inside [errorHandler] nothing but the clock, the queue and the output
    moves: what arrives piles up unread, every round prints the message
    again. *)
Lemma stuck_for_ever (msg : string) (es : list event) :
  forall s,
    ctl s = Stuck msg ->
    ctl (steps s es) = Stuck msg /\
    rc (world (steps s es)) = rc (world s) /\
    moves (world (steps s es)) = moves (world s) /\
    servo (world (steps s es)) = servo (world s) /\
    rx (world (steps s es)) = rx (world s) ++ received es /\
    tx (world (steps s es))
    = tx (world s) ++ List.concat (repeat (error_report msg) (rounds es)).
Proof.
  induction es as [| e es IH]; intros s Hs.
  - cbn. rewrite !app_nil_r. repeat split. exact Hs.
  - change (steps s (e :: es)) with (steps (step s e) es).
    assert (Hstep :
              ctl (step s e) = Stuck msg /\
              rc (world (step s e)) = rc (world s) /\
              moves (world (step s e)) = moves (world s) /\
              servo (world (step s e)) = servo (world s) /\
              rx (world (step s e)) = rx (world s) ++ received [e] /\
              tx (world (step s e))
              = tx (world s) ++ List.concat (repeat (error_report msg) (rounds [e]))).
    { destruct e as [bs | ms | addrs n dbg | b c i |]; cbn [step];
        rewrite ?Hs; cbn; rewrite ?app_nil_r; repeat split; try exact Hs.
      rewrite <- app_assoc. reflexivity. }
    destruct Hstep as (S1 & S2 & S3 & S4 & S5 & S6).
    destruct (IH (step s e) S1) as (I1 & I2 & I3 & I4 & I5 & I6).
    split; [exact I1 |]. split; [congruence |]. split; [congruence |].
    split; [congruence |]. split.
    + rewrite I5, S5, <- app_assoc. f_equal.
      unfold received. cbn [flat_map]. rewrite app_nil_r. reflexivity.
    + rewrite I6, S6, <- app_assoc. f_equal.
      unfold rounds. cbn [filter].
      destruct e; cbn [List.length repeat List.concat app]; reflexivity.
Qed.

(** C5. When the dispatcher frames a SYNC packet whose type byte is not
    0x01, the round ends inside [errorHandler]: the message is printed, the
    scheduler is not run, and the firmware never leaves that state.  Whatever
    events follow, the object, the driver and the record of driver calls stay
    as they were, every byte that arrives stays unread behind the four bytes
    the packet left in the queue, and the output grows by one more copy of
    the message per round and by nothing else. *)
Theorem bad_sync_type_halts_for_ever (s : System) (ty : byte)
  (rest : list byte) (es : list event) :
  ctl s = Running ->
  rx (world s) = xaa :: ty :: rest ->
  ty <> x01 ->
  (4 <= List.length rest)%nat ->
  let msg := "Unexpected sync packet type"%string in
  let halted := step s Round in
  let later := steps halted es in
  ctl halted = Stuck msg /\
  world halted = after (world s) (rc (world s)) rest (error_report msg) /\
  ctl later = Stuck msg /\
  rc (world later) = rc (world s) /\
  moves (world later) = moves (world s) /\
  servo (world later) = servo (world s) /\
  rx (world later) = rest ++ received es /\
  tx (world later)
  = tx (world s) ++ error_report msg
    ++ List.concat (repeat (error_report msg) (rounds es)).
Proof.
  intros Hrun Hrx Hty Hlen msg halted later.
  assert (Hh : halted = {| ctl := Stuck msg;
                           world := after (world s) (rc (world s)) rest
                                      (error_report msg) |}).
  { unfold halted. cbn [step]. rewrite Hrun.
    rewrite (handle_bad_sync (world s) ty rest Hrx Hty Hlen). reflexivity. }
  destruct (stuck_for_ever msg es halted) as (L1 & L2 & L3 & L4 & L5 & L6).
  { rewrite Hh. reflexivity. }
  fold later in L1, L2, L3, L4, L5, L6. rewrite Hh in L2, L3, L4, L5, L6.
  cbn [world after rc rx tx moves servo] in L2, L3, L4, L5, L6.
  rewrite Hh. cbn [ctl world].
  repeat split; try assumption.
  rewrite L6, <- app_assoc. reflexivity.
Qed.

Lemma bad_sync_type_halts_for_ever_witness :
  let s := steps (power_on [no_command] 0)
             [Receive [xaa; x01; x00; x00; x03; xe8];
              Receive [xbb; x03; x5a; xf4; x01; x00; x00];
              Round;
              Receive [xaa; x02; x00; x00; x03; xe8]] in
  let es := [Receive [xaa; x01; x00; x00; x00; x00]; Elapse 2000; Round;
             Receive [xee]; Round] in
  let later := steps (step s Round) es in
  (ctl s = Running /\ rx (world s) = xaa :: x02 :: [x00; x00; x03; xe8]) /\
  ctl later = Stuck "Unexpected sync packet type" /\
  pending (world later) = [mkCommand 3 90 500] /\
  moves (world later) = [] /\
  rx (world later) = [x00; x00; x03; xe8; xaa; x01; x00; x00; x00; x00; xee] /\
  tx (world later)
  = [Print (Str "RemoteControl ERROR: ");
     Println (Str "Unexpected sync packet type");
     Print (Str "RemoteControl ERROR: ");
     Println (Str "Unexpected sync packet type");
     Print (Str "RemoteControl ERROR: ");
     Println (Str "Unexpected sync packet type")].
Proof.
  intros s es later.
  assert (Hty : x02 <> x01) by discriminate.
  assert (Hlen : (4 <= List.length [x00; x00; x03; xe8])%nat)
    by (apply le_n).
  assert (Hrun : ctl s = Running) by (vm_compute; reflexivity).
  assert (Hrx : rx (world s) = xaa :: x02 :: [x00; x00; x03; xe8])
    by (vm_compute; reflexivity).
  destruct (bad_sync_type_halts_for_ever s x02 [x00; x00; x03; xe8] es
              Hrun Hrx Hty Hlen)
    as (_ & _ & H1 & H2 & H3 & _ & H4 & H5).
  fold later in H1, H2, H3, H4, H5.
  split; [split; [exact Hrun | exact Hrx] |].
  split; [exact H1 |].
  split; [unfold pending; rewrite H2; vm_compute; reflexivity |].
  split; [rewrite H3; vm_compute; reflexivity |].
  split; [exact H4 |].
  rewrite H5. vm_compute. reflexivity.
Defined.

(** * Further properties of the code *)

(** ** ServoControl.cpp: pulse widths *)

Lemma arduino_map_div (x in_max lo hi : Z) :
  0 < in_max -> 0 <= x -> lo <= hi ->
  arduino_map x 0 in_max lo hi = x * (hi - lo) / in_max + lo.
Proof.
  intros Hm Hx Hl. unfold arduino_map. rewrite !Z.sub_0_r.
  rewrite Z.quot_div_nonneg by nia. reflexivity.
Qed.

Lemma arduino_map_range (x in_max lo hi : Z) :
  0 < in_max -> 0 <= x <= in_max -> lo <= hi ->
  lo <= arduino_map x 0 in_max lo hi <= hi.
Proof.
  intros Hm Hx Hl. rewrite arduino_map_div by lia.
  assert (0 <= x * (hi - lo) / in_max) by (apply Z.div_pos; nia).
  assert (x * (hi - lo) / in_max <= hi - lo)
    by (apply Z.div_le_upper_bound; nia).
  lia.
Qed.

Lemma arduino_map_mono (x y in_max lo hi : Z) :
  0 < in_max -> 0 <= x <= y -> lo <= hi ->
  arduino_map x 0 in_max lo hi <= arduino_map y 0 in_max lo hi.
Proof.
  intros Hm Hx Hl. rewrite !arduino_map_div by lia.
  apply Z.add_le_mono_r. apply Z.div_le_mono; nia.
Qed.

Lemma angleToPulse_clamped (a : Z) (sv : ServoControl) :
  angleToPulse a sv
  = arduino_map (clamp_angle a) 0 MAX_SERVO_ANGLE (servomin sv) (servomax sv).
Proof.
  unfold angleToPulse, clamp_angle, MAX_SERVO_ANGLE.
  destruct (Z.ltb_spec a 0) as [Hneg | Hpos].
  - change (0 >? 180) with false. cbv iota. f_equal. lia.
  - destruct (Z.gtb_spec a 180) as [Hbig | Hsmall]; f_equal; lia.
Qed.

Lemma clamp_angle_range (a : Z) : 0 <= clamp_angle a <= 180.
Proof. unfold clamp_angle, MAX_SERVO_ANGLE. lia. Qed.

Lemma angleToPulse_bounds (a : Z) (sv : ServoControl) :
  servomin sv <= servomax sv ->
  servomin sv <= angleToPulse a sv <= servomax sv.
Proof.
  intro Hm. rewrite angleToPulse_clamped.
  apply arduino_map_range; [reflexivity | apply clamp_angle_range | exact Hm].
Qed.

(** X1. Whatever angle is asked for, the pulse [angleToPulse] returns lies
    between [servomin] and [servomax]; angles at or below 0 give [servomin],
    angles at or above 180 give [servomax], and a larger angle never gives a
    shorter pulse. *)
Theorem angleToPulse_is_clamped_and_monotone (sv : ServoControl) :
  servomin sv <= servomax sv ->
  (forall a, servomin sv <= angleToPulse a sv <= servomax sv) /\
  (forall a, a <= 0 -> angleToPulse a sv = servomin sv) /\
  (forall a, MAX_SERVO_ANGLE <= a -> angleToPulse a sv = servomax sv) /\
  (forall a b, a <= b -> angleToPulse a sv <= angleToPulse b sv).
Proof.
  intro Hm.
  assert (Hc : forall a, 0 <= clamp_angle a <= 180)
    by (intro a; unfold clamp_angle, MAX_SERVO_ANGLE; lia).
  split; [| split; [| split]].
  - intro a. rewrite angleToPulse_clamped.
    apply arduino_map_range; [reflexivity | apply Hc | exact Hm].
  - intros a Ha. rewrite angleToPulse_clamped.
    replace (clamp_angle a) with 0
      by (unfold clamp_angle, MAX_SERVO_ANGLE; lia).
    unfold arduino_map. rewrite Z.mul_0_l. reflexivity.
  - intros a Ha. rewrite angleToPulse_clamped.
    replace (clamp_angle a) with MAX_SERVO_ANGLE
      by (unfold clamp_angle, MAX_SERVO_ANGLE in *; lia).
    rewrite arduino_map_div by (unfold MAX_SERVO_ANGLE; lia).
    rewrite Z.mul_comm, Z.div_mul by (unfold MAX_SERVO_ANGLE; lia). lia.
  - intros a b Hab. rewrite !angleToPulse_clamped.
    apply arduino_map_mono; [reflexivity | | exact Hm].
    pose proof (Hc a). unfold clamp_angle, MAX_SERVO_ANGLE in *. lia.
Qed.

Lemma angleToPulse_is_clamped_and_monotone_witness :
  let sv := setupServoDrivers [0x40] 1 servo_globals in
  servomin sv <= servomax sv /\
  angleToPulse (-20) sv = 98 /\ angleToPulse 90 sv = 368 /\
  angleToPulse 300 sv = 639.
Proof.
  intro sv.
  assert (Hm : servomin sv <= servomax sv) by (vm_compute; discriminate).
  destruct (angleToPulse_is_clamped_and_monotone sv Hm) as (_ & Hlo & Hhi & _).
  split; [exact Hm |].
  split; [exact (Hlo (-20) ltac:(lia)) |].
  split; [reflexivity |].
  exact (Hhi 300 ltac:(unfold MAX_SERVO_ANGLE; lia)).
Defined.

(** ** ServoControl.cpp: the mapping tables *)

Lemma list_set_nth_same {A : Type} (a : list A) (n : nat) (x d : A) :
  (n < List.length a)%nat -> nth n (list_set a n x) d = x.
Proof.
  revert n. induction a as [| h a IH]; intros [| n] H; simpl in *;
    try lia; [reflexivity | apply IH; lia].
Qed.

Lemma list_set_nth_other {A : Type} (a : list A) (n m : nat) (x d : A) :
  n <> m -> nth m (list_set a n x) d = nth m a d.
Proof.
  revert n m. induction a as [| h a IH]; intros [| n] [| m] H; simpl;
    try reflexivity; try congruence.
  apply IH. congruence.
Qed.

Lemma Forall_list_set {A : Type} (P : A -> Prop) (a : list A) (n : nat)
  (x : A) :
  Forall P a -> P x -> Forall P (list_set a n x).
Proof.
  intros Ha Hx. revert n. induction Ha as [| h a Hh Ha IH]; intros [| n];
    simpl; constructor; auto.
Qed.

Lemma array_get_set_same {A : Type} (a : list A) (i : Z) (x d : A) :
  0 <= i < Z.of_nat (List.length a) -> array_get d (array_set a i x) i = x.
Proof.
  intro H. unfold array_get, array_set. apply list_set_nth_same. lia.
Qed.

Lemma array_get_set_other {A : Type} (a : list A) (i j : Z) (x d : A) :
  0 <= i -> 0 <= j -> i <> j ->
  array_get d (array_set a i x) j = array_get d a j.
Proof.
  intros Hi Hj H. unfold array_get, array_set. apply list_set_nth_other. lia.
Qed.

Lemma array_get_Forall {A : Type} (P : A -> Prop) (a : list A) (i : Z)
  (d : A) :
  Forall P a -> 0 <= i < Z.of_nat (List.length a) -> P (array_get d a i).
Proof.
  intros Ha Hi. unfold array_get.
  apply (proj1 (Forall_nth P a) Ha). lia.
Qed.

Lemma setServoMapping_cases (i b c : Z) (sv : ServoControl) :
  (0 <= i < MAX_SERVOS /\ 0 <= b < numBoards sv /\ 0 <= c < 16 /\
   setServoMapping i b c sv
   = {| servomin := servomin sv; servomax := servomax sv;
        numBoards := numBoards sv;
        servoBoard := array_set (servoBoard sv) i b;
        servoChannel := array_set (servoChannel sv) i c;
        hw := hw sv |})
  \/
  (~ (0 <= i < MAX_SERVOS /\ 0 <= b < numBoards sv /\ 0 <= c < 16) /\
   setServoMapping i b c sv = sv).
Proof.
  unfold setServoMapping.
  destruct (Z.leb_spec 0 i); destruct (Z.ltb_spec i MAX_SERVOS);
    destruct (Z.leb_spec 0 b); destruct (Z.ltb_spec b (numBoards sv));
    destruct (Z.leb_spec 0 c); destruct (Z.ltb_spec c 16); cbn [andb];
    solve [left; repeat split; assumption | right; split; [lia | reflexivity]].
Qed.

(** X2. [setServoMapping] with a servo index in 0..17, a board that was
    initialised and a channel in 0..15 makes exactly that servo point at
    that board and channel and leaves every other servo's entry, the pulse
    bounds, the board count and the hardware alone; with any argument out of
    range it changes nothing at all. *)
Theorem setServoMapping_updates_one_entry (i b c : Z) (sv : ServoControl) :
  List.length (servoBoard sv) = 18%nat ->
  List.length (servoChannel sv) = 18%nat ->
  let sv' := setServoMapping i b c sv in
  (0 <= i < MAX_SERVOS -> 0 <= b < numBoards sv -> 0 <= c < 16 ->
   array_get 0 (servoBoard sv') i = b /\
   array_get 0 (servoChannel sv') i = c /\
   (forall j, 0 <= j -> j <> i ->
              array_get 0 (servoBoard sv') j = array_get 0 (servoBoard sv) j /\
              array_get 0 (servoChannel sv') j
              = array_get 0 (servoChannel sv) j) /\
   servomin sv' = servomin sv /\ servomax sv' = servomax sv /\
   numBoards sv' = numBoards sv /\ hw sv' = hw sv) /\
  (~ (0 <= i < MAX_SERVOS /\ 0 <= b < numBoards sv /\ 0 <= c < 16) ->
   sv' = sv).
Proof.
  intros Hlb Hlc sv'. unfold sv'. split.
  - intros Hi Hb Hc.
    destruct (setServoMapping_cases i b c sv) as [(_ & _ & _ & E) | (N & _)];
      [| exfalso; apply N; auto].
    rewrite E. cbn [servoBoard servoChannel servomin servomax numBoards hw].
    unfold MAX_SERVOS in Hi.
    split; [apply array_get_set_same; lia |].
    split; [apply array_get_set_same; lia |].
    split; [| repeat split].
    intros j Hj Hji.
    split; apply array_get_set_other; lia.
  - intro N.
    destruct (setServoMapping_cases i b c sv) as [(H1 & H2 & H3 & _) | (_ & E)];
      [exfalso; apply N; auto | exact E].
Qed.

Lemma setServoMapping_updates_one_entry_witness :
  let sv := setupServoDrivers [0x40; 0x41] 2 servo_globals in
  (List.length (servoBoard sv) = 18%nat /\
   List.length (servoChannel sv) = 18%nat) /\
  array_get 0 (servoBoard (setServoMapping 17 1 5 sv)) 17 = 1 /\
  array_get 0 (servoChannel (setServoMapping 17 1 5 sv)) 17 = 5 /\
  setServoMapping 17 2 5 sv = sv /\
  setServoMapping 18 1 5 sv = sv /\
  setServoMapping 17 1 16 sv = sv.
Proof.
  intro sv.
  pose proof (setServoMapping_updates_one_entry 17 1 5 sv eq_refl eq_refl)
    as [Hin _].
  destruct Hin as (H1 & H2 & _);
    [unfold MAX_SERVOS; lia | vm_compute; split; congruence | lia |].
  split; [split; reflexivity |].
  split; [exact H1 |]. split; [exact H2 |].
  split; [| split].
  - apply (proj2 (setServoMapping_updates_one_entry 17 2 5 sv eq_refl eq_refl)).
    intros (_ & Hb & _). vm_compute in Hb. destruct Hb as [_ Hb]. discriminate.
  - apply (proj2 (setServoMapping_updates_one_entry 18 1 5 sv eq_refl eq_refl)).
    intros (Hi & _). unfold MAX_SERVOS in Hi. lia.
  - apply (proj2 (setServoMapping_updates_one_entry 17 1 16 sv eq_refl eq_refl)).
    intros (_ & _ & Hc). lia.
Defined.

(** ** ServoControl.cpp: initialisation *)

Lemma indices_nth_Z (n : nat) (s : Z) :
  0 <= s < Z.of_nat n -> array_get 0 (indices (Z.of_nat n)) s = s.
Proof.
  intro H. unfold array_get.
  rewrite indices_nth by lia. lia.
Qed.

Lemma array_get_map (f : Z -> Z) (l : list Z) (s : Z) :
  0 <= s < Z.of_nat (List.length l) ->
  array_get 0 (map f l) s = f (array_get 0 l s).
Proof.
  intro H. unfold array_get.
  rewrite (nth_indep (map f l) 0 (f 0)) by (rewrite length_map; lia).
  apply map_nth.
Qed.

(** X3. [setupServoDrivers] keeps at most [MAX_BOARDS] boards however many
    addresses it is given (none when the count is zero or negative), and it
    puts the mapping back to the default whatever was mapped before: every
    servo on board 0, servo [s] on channel [s] for [s] below 16 and on
    channel 0 for servos 16 and 17, which therefore share channel 0 with
    servo 0.  The pulse bounds become 98 and 639 ticks. *)
Theorem setupServoDrivers_resets_to_default (addrs : list Z) (count : Z)
  (sv : ServoControl) :
  let sv' := setupServoDrivers addrs count sv in
  numBoards sv' = Z.min count MAX_BOARDS /\
  servomin sv' = 98 /\ servomax sv' = 639 /\
  (forall s, 0 <= s < MAX_SERVOS ->
             array_get 0 (servoBoard sv') s = 0 /\
             array_get 0 (servoChannel sv') s = if s <? 16 then s else 0) /\
  (forall sv0, servoBoard (setupServoDrivers addrs count sv0) = servoBoard sv' /\
               servoChannel (setupServoDrivers addrs count sv0)
               = servoChannel sv') /\
  (count <= 0 -> hw sv' = hw sv ++ [WireBegin]) /\
  (MAX_BOARDS <= count ->
   hw sv' = hw sv ++ [WireBegin;
                      BoardBegin 0 (array_get 0 addrs 0); SetPWMFreq 0 60;
                      BoardBegin 1 (array_get 0 addrs 1); SetPWMFreq 1 60]).
Proof.
  intro sv'. unfold sv', setupServoDrivers.
  cbn [numBoards servomin servomax servoBoard servoChannel hw].
  split; [unfold MAX_BOARDS; destruct (Z.ltb_spec count 2); lia |].
  split; [reflexivity |]. split; [reflexivity |].
  split; [| split; [| split]].
  - intros s Hs. unfold MAX_SERVOS in *.
    change 18 with (Z.of_nat 18) in *.
    assert (Hlen : List.length (indices (Z.of_nat 18)) = 18%nat)
      by apply indices_length.
    rewrite !array_get_map by (rewrite Hlen; lia).
    rewrite indices_nth_Z by lia. split; reflexivity.
  - intro sv0. split; reflexivity.
  - intro Hc. unfold MAX_BOARDS.
    destruct (Z.ltb_spec count 2) as [_ | H]; [| lia].
    unfold indices. replace (Z.to_nat count) with 0%nat by lia. reflexivity.
  - intro Hc. unfold MAX_BOARDS in *.
    destruct (Z.ltb_spec count 2) as [H | _]; [lia |]. reflexivity.
Qed.

(** ** ServoControl.cpp: moving a servo *)

Lemma setServoAngle_pwm (i a : Z) (sv : ServoControl) :
  setServoAngle i a sv = put_hw (hw sv ++ pwm_command sv i a) sv.
Proof.
  unfold setServoAngle, pwm_command, put_hw.
  destruct (Z.ltb_spec i 0) as [Hneg | Hpos];
    destruct (Z.geb_spec i MAX_SERVOS) as [Hbig | Hsmall]; cbn [orb].
  - destruct (Z.leb_spec 0 i); [lia |]. cbn [andb].
    rewrite app_nil_r. destruct sv; reflexivity.
  - destruct (Z.leb_spec 0 i); [lia |]. cbn [andb].
    rewrite app_nil_r. destruct sv; reflexivity.
  - destruct (Z.ltb_spec i MAX_SERVOS); [lia |]. rewrite andb_false_r.
    cbn [andb]. rewrite app_nil_r. destruct sv; reflexivity.
  - destruct (Z.leb_spec 0 i); [| lia].
    destruct (Z.ltb_spec i MAX_SERVOS); [| lia]. cbn [andb].
    destruct (array_get 0 (servoBoard sv) i <? numBoards sv);
      destruct (array_get 0 (servoChannel sv) i <? 16); cbn [andb];
      try reflexivity; rewrite app_nil_r; destruct sv; reflexivity.
Qed.

(** ** ServoControl.cpp: what its functions keep *)

Lemma servo_globals_ok : servo_ok servo_globals.
Proof.
  unfold servo_ok, servo_globals, MAX_BOARDS.
  cbn [numBoards servomin servomax servoBoard servoChannel hw].
  repeat split; try lia; try apply repeat_length.
  - apply Forall_forall. intros x Hx. apply repeat_spec in Hx. lia.
  - apply Forall_forall. intros x Hx. apply repeat_spec in Hx. lia.
  - constructor.
Qed.

Lemma setupServoDrivers_ok (addrs : list Z) (count : Z) (sv : ServoControl) :
  servo_ok sv -> servo_ok (setupServoDrivers addrs count sv).
Proof.
  intros (_ & _ & _ & _ & _ & _ & _ & _ & Hhw).
  unfold servo_ok, setupServoDrivers.
  cbn [numBoards servomin servomax servoBoard servoChannel hw].
  split; [unfold MAX_BOARDS; destruct (Z.ltb_spec count 2); lia |].
  split; [vm_compute; discriminate |].
  split; [vm_compute; discriminate |].
  split; [vm_compute; discriminate |].
  split; [reflexivity |]. split; [reflexivity |].
  split; [| split].
  - apply Forall_forall. intros x Hx. apply in_map_iff in Hx.
    destruct Hx as (y & <- & _). lia.
  - apply Forall_forall. intros x Hx. apply in_map_iff in Hx.
    destruct Hx as (y & <- & Hy). unfold indices in Hy.
    apply in_map_iff in Hy. destruct Hy as (k & <- & _).
    destruct (Z.ltb_spec (Z.of_nat k) 16); lia.
  - apply Forall_app. split; [exact Hhw |].
    constructor; [exact I |].
    apply Forall_forall. intros e He. apply in_flat_map in He.
    destruct He as (i & _ & [<- | [<- | []]]); exact I.
Qed.

Lemma setServoMapping_ok (i b c : Z) (sv : ServoControl) :
  servo_ok sv -> servo_ok (setServoMapping i b c sv).
Proof.
  intro Hok.
  destruct (setServoMapping_cases i b c sv) as [(Hi & Hb & Hc & E) | (_ & E)];
    rewrite E; [| exact Hok].
  destruct Hok as (H1 & H2 & H3 & H4 & H5 & H6 & H7 & H8 & H9).
  unfold servo_ok.
  cbn [numBoards servomin servomax servoBoard servoChannel hw].
  rewrite !array_set_length.
  repeat (split; [assumption |]).
  split; [| split; [| assumption]].
  - apply Forall_list_set; [exact H7 | lia].
  - apply Forall_list_set; [exact H8 | lia].
Qed.

Lemma pwm_command_ok (i a : Z) (sv : ServoControl) :
  servo_ok sv -> Forall pwm_ok (pwm_command sv i a).
Proof.
  intros (Hnb & Hmin & Hmm & Hmax & Hlb & Hlc & Hb & Hc & _).
  unfold pwm_command.
  destruct (Z.leb_spec 0 i) as [Hi0 |]; [| constructor].
  destruct (Z.ltb_spec i MAX_SERVOS) as [Hi1 |]; [| constructor].
  unfold MAX_SERVOS in Hi1.
  destruct (Z.ltb_spec (array_get 0 (servoBoard sv) i) (numBoards sv))
    as [Hbn |]; [| constructor].
  destruct (Z.ltb_spec (array_get 0 (servoChannel sv) i) 16)
    as [Hcn |]; [| constructor].
  cbn [andb]. constructor; [| constructor].
  assert (Hb' : 0 <= array_get 0 (servoBoard sv) i
                /\ (array_get 0 (servoBoard sv) i = 0
                    \/ array_get 0 (servoBoard sv) i < numBoards sv))
    by (apply (array_get_Forall _ _ _ _ Hb); lia).
  assert (Hc' : 0 <= array_get 0 (servoChannel sv) i < 16)
    by (apply (array_get_Forall _ _ _ _ Hc); lia).
  pose proof (angleToPulse_bounds a sv Hmm).
  unfold pwm_ok, MAX_BOARDS in *. repeat split; lia.
Qed.

Lemma setServoAngle_ok (i a : Z) (sv : ServoControl) :
  servo_ok sv -> servo_ok (setServoAngle i a sv).
Proof.
  intro Hok. pose proof (pwm_command_ok i a sv Hok) as Hcmd.
  rewrite setServoAngle_pwm.
  destruct Hok as (H1 & H2 & H3 & H4 & H5 & H6 & H7 & H8 & H9).
  unfold servo_ok, put_hw.
  cbn [numBoards servomin servomax servoBoard servoChannel hw].
  repeat (split; [assumption |]).
  apply Forall_app. split; assumption.
Qed.

(** X4. Once at least one board is initialised, [setServoAngle] for a servo
    index in 0..17 sends exactly one PWM command: to the board and channel
    the servo is mapped to, on at tick 0 and off at [angleToPulse angle],
    which lies between [servomin] and [servomax]; the board exists and the
    channel is one of the sixteen.  The mapping and the pulse bounds are not
    changed. *)
Theorem setServoAngle_sends_one_command (i a : Z) (sv : ServoControl) :
  servo_ok sv ->
  0 < numBoards sv ->
  0 <= i < MAX_SERVOS ->
  let b := array_get 0 (servoBoard sv) i in
  let c := array_get 0 (servoChannel sv) i in
  setServoAngle i a sv
  = put_hw (hw sv ++ [SetPWM b c 0 (angleToPulse a sv)]) sv /\
  0 <= b < numBoards sv /\ 0 <= c < 16 /\
  servomin sv <= angleToPulse a sv <= servomax sv.
Proof.
  intros (Hnb & Hmin & Hmm & Hmax & Hlb & Hlc & Hb & Hc & _) Hpos Hi b c.
  unfold MAX_SERVOS in Hi.
  assert (Hb' : 0 <= b /\ (b = 0 \/ b < numBoards sv))
    by (apply (array_get_Forall _ _ _ _ Hb); lia).
  assert (Hc' : 0 <= c < 16)
    by (apply (array_get_Forall _ _ _ _ Hc); lia).
  split; [| split; [lia | split; [exact Hc' |]]].
  - rewrite setServoAngle_pwm. unfold pwm_command. fold b c.
    destruct (Z.leb_spec 0 i); [| lia].
    destruct (Z.ltb_spec i MAX_SERVOS); [| unfold MAX_SERVOS in *; lia].
    destruct (Z.ltb_spec b (numBoards sv)); [| lia].
    destruct (Z.ltb_spec c 16); [| lia]. reflexivity.
  - apply angleToPulse_bounds. exact Hmm.
Qed.

Lemma setServoAngle_sends_one_command_witness :
  let sv := setServoMapping 3 1 7 (setupServoDrivers [0x40; 0x41] 2 servo_globals) in
  (servo_ok sv /\ 0 < numBoards sv /\ 0 <= 3 < MAX_SERVOS) /\
  hw (setServoAngle 3 90 sv) = hw sv ++ [SetPWM 1 7 0 368].
Proof.
  intro sv.
  assert (Hok : servo_ok sv)
    by (apply setServoMapping_ok, setupServoDrivers_ok, servo_globals_ok).
  assert (Hnb : 0 < numBoards sv) by reflexivity.
  assert (Hi : 0 <= 3 < MAX_SERVOS) by (unfold MAX_SERVOS; lia).
  destruct (setServoAngle_sends_one_command 3 90 sv Hok Hnb Hi) as (E & _).
  split; [split; [exact Hok | split; [exact Hnb | exact Hi]] |].
  rewrite E. reflexivity.
Defined.

(** X5. [setServoAngle] does nothing at all, to the hardware or to the
    tables, when the servo index is outside 0..17, and also when no board
    has been initialised, which is the state before [begin] and after a
    [begin] with a count of zero or less. *)
Theorem setServoAngle_without_target_does_nothing (i a : Z)
  (sv : ServoControl) :
  (i < 0 \/ MAX_SERVOS <= i \/ (servo_ok sv /\ numBoards sv <= 0)) ->
  setServoAngle i a sv = sv.
Proof.
  intro H. rewrite setServoAngle_pwm.
  assert (E : pwm_command sv i a = []).
  { unfold pwm_command.
    destruct (Z.leb_spec 0 i) as [Hi0 |]; [| reflexivity].
    destruct (Z.ltb_spec i MAX_SERVOS) as [Hi1 |]; [| reflexivity].
    destruct H as [H | [H | (Hok & Hnb)]]; [lia | lia |].
    destruct Hok as (_ & _ & _ & _ & Hlb & _ & Hb & _).
    assert (Hb' : 0 <= array_get 0 (servoBoard sv) i
                  /\ (array_get 0 (servoBoard sv) i = 0
                      \/ array_get 0 (servoBoard sv) i < numBoards sv))
      by (apply (array_get_Forall _ _ _ _ Hb); unfold MAX_SERVOS in *; lia).
    destruct (Z.ltb_spec (array_get 0 (servoBoard sv) i) (numBoards sv));
      [lia | reflexivity]. }
  rewrite E, app_nil_r. destruct sv; reflexivity.
Qed.

Lemma setServoAngle_without_target_does_nothing_witness :
  let sv := setupServoDrivers [0x40] 1 servo_globals in
  (MAX_SERVOS <= 200 /\ setServoAngle 200 90 sv = sv) /\
  (servo_ok servo_globals /\ numBoards servo_globals <= 0 /\
   setServoAngle 3 90 servo_globals = servo_globals).
Proof.
  intro sv.
  assert (H200 : MAX_SERVOS <= 200) by (unfold MAX_SERVOS; lia).
  pose proof servo_globals_ok as Hok.
  assert (Hnb : numBoards servo_globals <= 0) by (vm_compute; discriminate).
  split.
  - split; [exact H200 |].
    apply setServoAngle_without_target_does_nothing. right. left. exact H200.
  - split; [exact Hok |]. split; [exact Hnb |].
    apply setServoAngle_without_target_does_nothing. right. right.
    split; [exact Hok | exact Hnb].
Defined.

(** ** What the control layer does to the driver's state *)

Lemma update_active (w : World) :
  syncReceived (rc w) = true ->
  run update w
  = run (update_loop (Z.to_nat (commandCount (rc w))) (millis w) 0) w.
Proof.
  intro Hs. unfold run, update, bind, get, get_millis. rewrite Hs. reflexivity.
Qed.

Lemma execute_servo (c : Command) (w : World) :
  servo (run (execute c) w)
  = if is_end c then servo w
    else setServoAngle (targetIndex c) (angle c) (servo w).
Proof.
  destruct w as [[buf cnt sy st dbg] q t m sv mv].
  unfold run, execute, is_end, bind, get.
  destruct (targetIndex c =? 255); [reflexivity |].
  cbn. destruct dbg; reflexivity.
Qed.

Section ServoInvariant.

(** Any property of the driver's state that a servo move keeps is kept by
    the scheduler and by the dispatcher. *)
Variable P : ServoControl -> Prop.
Hypothesis P_move : forall i a sv, P sv -> P (setServoAngle i a sv).

Lemma execute_keeps (c : Command) (w : World) :
  P (servo w) -> P (servo (run (execute c) w)).
Proof.
  intro H. rewrite execute_servo. destruct (is_end c); auto.
Qed.

Lemma update_loop_keeps (now : Z) (n : nat) :
  forall i w, P (servo w) -> P (servo (run (update_loop n now i) w)).
Proof.
  induction n as [| n IH]; intros i w H.
  - exact H.
  - destruct (Z_lt_le_dec i (commandCount (rc w))) as [Hlt | Hge].
    + destruct (now >=? to_uint32 (syncStartTime (rc w)
                  + relativeDelay (array_get no_command
                                     (commandBuffer (rc w)) i))) eqn:Hdue.
      * rewrite (update_loop_fire n now i w Hlt Hdue).
        apply IH. cbn [with_rc servo]. apply execute_keeps. exact H.
      * rewrite (update_loop_wait n now i w Hlt Hdue). apply IH. exact H.
    + rewrite update_loop_done by lia. exact H.
Qed.

Lemma update_keeps (w : World) : P (servo w) -> P (servo (run update w)).
Proof.
  intro H. destruct (syncReceived (rc w)) eqn:Hs.
  - rewrite update_active by exact Hs. apply update_loop_keeps. exact H.
  - unfold run. rewrite update_idle by exact Hs. exact H.
Qed.

Lemma drive_keeps (cs : list (Z * Z)) :
  forall w, P (servo w) -> P (servo (drive cs w)).
Proof.
  induction cs as [| [i a] cs IH]; intros w H; cbn.
  - exact H.
  - apply IH. cbn. apply P_move. exact H.
Qed.

Lemma dispatch_keeps (w : World) (f : flow) (w' : World) :
  dispatch w f w' -> P (servo w) -> P (servo w').
Proof.
  intros Hd H. inversion Hd; subst; cbn [after servo]; try exact H.
  apply drive_keeps. exact H.
Qed.

Lemma parse_loop_keeps (n : nat) :
  forall w, P (servo w) -> P (servo (run (parse_loop n) w)).
Proof.
  induction n as [| n IH]; intros w H.
  - exact H.
  - unfold run. rewrite parse_loop_step.
    destruct (rx w); [exact H |].
    pose proof (dispatch_keeps w _ _ (parse_packet_dispatch w) H) as H'.
    destruct (parse_packet w) as [[| | msg] w']; cbn [fst snd] in *;
      [apply IH | |]; exact H'.
Qed.

Lemma handle_keeps (w : World) : P (servo w) -> P (servo (run handle w)).
Proof.
  intro H. unfold run, handle. unfold bind at 1.
  pose proof (parse_loop_keeps (S (List.length (rx w))) w H) as H1.
  unfold run in H1. fold (parseSerialData w) in H1.
  destruct (parseSerialData w) as [[msg |] w1]; cbn [snd] in *.
  - exact H1.
  - unfold bind. pose proof (update_keeps w1 H1) as H2. unfold run in H2.
    destruct (update w1) as [[] w2]. exact H2.
Qed.

End ServoInvariant.

Lemma step_servo_ok (s : System) (e : event) :
  servo_ok (servo (world s)) -> servo_ok (servo (world (step s e))).
Proof.
  intro Hok. destruct e as [bs | ms | addrs n dbg | b c i |]; cbn [step].
  - exact Hok.
  - exact Hok.
  - destruct (ctl s); [| exact Hok]. cbn [world].
    unfold run, begin, bind, modify, get, with_servo. cbn.
    destruct dbg; cbn; apply setupServoDrivers_ok; exact Hok.
  - destruct (ctl s); [| exact Hok]. cbn [world].
    unfold run, addServo, bind, get, with_servo. cbn.
    destruct (debugEnabled (rc (world s))); cbn;
      apply setServoMapping_ok; exact Hok.
  - destruct (ctl s) as [| msg].
    + pose proof (handle_keeps servo_ok setServoAngle_ok (world s) Hok) as H.
      unfold run in H.
      destruct (handle (world s)) as [[m |] w']; exact H.
    + exact Hok.
Qed.

Lemma steps_servo_ok (es : list event) :
  forall s, servo_ok (servo (world s)) -> servo_ok (servo (world (steps s es))).
Proof.
  induction es as [| e es IH]; intros s Hok; cbn.
  - exact Hok.
  - apply IH. apply step_servo_ok. exact Hok.
Qed.

(** X6. From power-on, whatever bytes arrive, whenever and however often
    [begin], [addServo] and [handle] are called, every PWM command the
    firmware has sent went to board 0 or 1 and to a channel in 0..15,
    switching on at tick 0 and off between 0 and 4096 ticks; the two mapping
    tables keep their 18 entries with channels in 0..15, and the board count
    never exceeds [MAX_BOARDS]. *)
Theorem hardware_commands_stay_in_range (slots : list Command) (t0 : Z)
  (es : list event) :
  let sv := servo (world (steps (power_on slots t0) es)) in
  Forall pwm_ok (hw sv) /\
  numBoards sv <= MAX_BOARDS /\
  List.length (servoBoard sv) = 18%nat /\
  List.length (servoChannel sv) = 18%nat /\
  Forall (fun c => 0 <= c < 16) (servoChannel sv).
Proof.
  intro sv.
  assert (Hok : servo_ok sv)
    by (apply steps_servo_ok; exact servo_globals_ok).
  destruct Hok as (H1 & _ & _ & _ & H5 & H6 & _ & H8 & H9).
  repeat split; assumption.
Qed.

(** ** From packets to PWM commands *)

Lemma put_hw_self (sv : ServoControl) : put_hw (hw sv ++ []) sv = sv.
Proof. rewrite app_nil_r. destruct sv; reflexivity. Qed.

Lemma fire_all_servo (cs : list Command) :
  forall w,
    servo (fire_all cs w)
    = put_hw (hw (servo w)
              ++ flat_map (fun c => pwm_command (servo w)
                                      (targetIndex c) (angle c))
                          (filter (fun c => negb (is_end c)) cs))
             (servo w).
Proof.
  induction cs as [| c cs IH]; intro w.
  - cbn. apply eq_sym, put_hw_self.
  - cbn [fire_all fold_left]. fold (fire_all cs (run (execute c) w)).
    rewrite IH, execute_servo. cbn [filter].
    destruct (is_end c); cbn [negb]; [reflexivity |].
    rewrite setServoAngle_pwm. cbn [flat_map].
    unfold put_hw at 2. cbn [hw]. rewrite <- app_assoc. reflexivity.
Qed.

Lemma drive_servo (cs : list (Z * Z)) :
  forall w,
    servo (drive cs w)
    = put_hw (hw (servo w)
              ++ flat_map (fun ia => pwm_command (servo w) (fst ia) (snd ia))
                          cs)
             (servo w).
Proof.
  induction cs as [| [i a] cs IH]; intro w.
  - cbn. apply eq_sym, put_hw_self.
  - cbn [drive fold_left fst snd].
    fold (drive cs (run (call_setServoAngle i a) w)).
    rewrite IH. cbn [run call_setServoAngle snd servo flat_map fst].
    rewrite setServoAngle_pwm.
    unfold put_hw at 2. cbn [hw]. rewrite <- app_assoc. reflexivity.
Qed.

(** X7. One pass of the scheduler with scheduling active sends to the boards
    exactly the PWM commands of the picks that are due, in buffer order,
    each computed from the mapping and pulse bounds in force (nothing for a
    pick whose index is outside 0..17, and nothing for the end-of-sequence
    entry); the mapping tables, the pulse bounds and the board count are
    left as they were. *)
Theorem update_drives_the_due_picks (w : World) :
  in_bounds w ->
  syncReceived (rc w) = true ->
  servo (run update w)
  = put_hw (hw (servo w)
            ++ flat_map (fun c => pwm_command (servo w)
                                    (targetIndex c) (angle c))
                        (filter (fun c => due w c && negb (is_end c))
                                (pending w)))
           (servo w).
Proof.
  intros Hb Hs.
  destruct (update_spec w Hb Hs) as (_ & _ & _ & He).
  change (servo (run update w)) with (servo (erase (run update w))).
  rewrite He. change (servo (erase ?x)) with (servo x).
  rewrite fire_all_servo, filter_filter. reflexivity.
Qed.

Lemma update_drives_the_due_picks_witness :
  let w := world (steps (power_on [no_command] 0)
                    [Begin [0x40; 0x41] 2 false; AddServo 1 7 3;
                     Receive [xaa; x01; x00; x00; x03; xe8];
                     Receive [xbb; x03; x5a; xf4; x01; x00; x00];
                     Round; Elapse 1500]) in
  (in_bounds w /\ syncReceived (rc w) = true) /\
  hw (servo (run update w)) = hw (servo w) ++ [SetPWM 1 7 0 368].
Proof.
  intro w.
  assert (Hb : in_bounds w) by (vm_compute; split; discriminate).
  assert (Hs : syncReceived (rc w) = true) by (vm_compute; reflexivity).
  split; [split; [exact Hb | exact Hs] |].
  rewrite (update_drives_the_due_picks w Hb Hs). vm_compute. reflexivity.
Defined.

Lemma pwm_command_valid (sv : ServoControl) (i a : Z) :
  servo_ok sv -> 0 < numBoards sv -> 0 <= i < MAX_SERVOS ->
  pwm_command sv i a
  = [SetPWM (array_get 0 (servoBoard sv) i) (array_get 0 (servoChannel sv) i)
            0 (angleToPulse a sv)].
Proof.
  intros (_ & _ & _ & _ & Hlb & Hlc & Hb & Hc & _) Hpos Hi.
  unfold MAX_SERVOS in Hi.
  assert (Hb' : 0 <= array_get 0 (servoBoard sv) i
                /\ (array_get 0 (servoBoard sv) i = 0
                    \/ array_get 0 (servoBoard sv) i < numBoards sv))
    by (apply (array_get_Forall _ _ _ _ Hb); lia).
  assert (Hc' : 0 <= array_get 0 (servoChannel sv) i < 16)
    by (apply (array_get_Forall _ _ _ _ Hc); lia).
  unfold pwm_command.
  destruct (Z.leb_spec 0 i); [| lia].
  destruct (Z.ltb_spec i MAX_SERVOS); [| unfold MAX_SERVOS in *; lia].
  destruct (Z.ltb_spec (array_get 0 (servoBoard sv) i) (numBoards sv));
    [| lia].
  destruct (Z.ltb_spec (array_get 0 (servoChannel sv) i) 16); [| lia].
  reflexivity.
Qed.

Lemma flat_map_singletons {A B : Type} (f : A -> list B) (g : A -> B)
  (l : list A) :
  (forall x, In x l -> f x = [g x]) -> flat_map f l = map g l.
Proof.
  induction l as [| x l IH]; intro H; cbn.
  - reflexivity.
  - rewrite (H x (or_introl eq_refl)), IH; [reflexivity |].
    intros y Hy. apply H. right. exact Hy.
Qed.

Lemma in_combine_indices (n : nat) (l : list Z) (i a : Z) :
  In (i, a) (combine (indices (Z.of_nat n)) l) -> 0 <= i < Z.of_nat n.
Proof.
  intro H. apply in_combine_l in H. unfold indices in H.
  rewrite Nat2Z.id in H. apply in_map_iff in H.
  destruct H as (k & <- & Hk). apply in_seq in Hk. lia.
Qed.

(** X8. With at least one board initialised, a complete RESET packet puts
    exactly 18 PWM commands on the boards, in servo order: for servo [k] the
    board and channel it is mapped to, and the pulse of its decoded angle
    (so an angle outside 0..180 arrives clamped).  The mapping is left as it
    was. *)
Theorem reset_packet_reaches_every_channel (w : World)
  (payload rest : list byte) :
  rx w = xef :: payload ++ rest ->
  List.length payload = 36%nat ->
  servo_ok (servo w) ->
  0 < numBoards (servo w) ->
  servo (run parse_packet w)
  = put_hw (hw (servo w)
            ++ map (fun ia => SetPWM (array_get 0 (servoBoard (servo w)) (fst ia))
                                (array_get 0 (servoChannel (servo w)) (fst ia))
                                0 (angleToPulse (snd ia) (servo w)))
                   (combine (indices 18) (reset_angles payload)))
           (servo w) /\
  List.length (combine (indices 18) (reset_angles payload)) = 18%nat.
Proof.
  intros Hrx Hlen Hok Hpos. split.
  - unfold run. rewrite (parse_reset w payload rest Hrx Hlen).
    cbn [snd after servo]. rewrite drive_servo. f_equal. f_equal.
    apply flat_map_singletons. intros [i a] Hin. cbn [fst snd].
    apply pwm_command_valid; [exact Hok | exact Hpos |].
    apply (in_combine_indices 18) in Hin. unfold MAX_SERVOS. lia.
  - rewrite length_combine.
    change (indices 18) with (indices (Z.of_nat 18)).
    rewrite indices_length, (reset_angles_length 18 payload Hlen).
    reflexivity.
Qed.

Lemma reset_packet_reaches_every_channel_witness :
  let payload := [x00; x5a; xff; xff; x01; x2c; x00; x00; x00; x00; x00; x00;
                  x00; x00; x00; x00; x00; x00; x00; x00; x00; x00; x00; x00;
                  x00; x00; x00; x00; x00; x00; x00; x00; x00; x5a; x00; xb4] in
  let w := world (steps (power_on [no_command] 0)
                    [Begin [0x40] 1 false;
                     Receive (xef :: payload ++ [xcc])]) in
  (rx w = xef :: payload ++ [xcc] /\ List.length payload = 36%nat /\
   servo_ok (servo w) /\ 0 < numBoards (servo w)) /\
  hw (servo (run parse_packet w))
  = hw (servo w)
    ++ [SetPWM 0 0 0 368; SetPWM 0 1 0 98; SetPWM 0 2 0 639; SetPWM 0 3 0 98;
        SetPWM 0 4 0 98; SetPWM 0 5 0 98; SetPWM 0 6 0 98; SetPWM 0 7 0 98;
        SetPWM 0 8 0 98; SetPWM 0 9 0 98; SetPWM 0 10 0 98; SetPWM 0 11 0 98;
        SetPWM 0 12 0 98; SetPWM 0 13 0 98; SetPWM 0 14 0 98; SetPWM 0 15 0 98;
        SetPWM 0 0 0 368; SetPWM 0 0 0 639].
Proof.
  intros payload w.
  assert (Hrx : rx w = xef :: payload ++ [xcc]) by (vm_compute; reflexivity).
  assert (Hlen : List.length payload = 36%nat) by reflexivity.
  assert (Hok : servo_ok (servo w))
    by (apply steps_servo_ok; exact servo_globals_ok).
  assert (Hpos : 0 < numBoards (servo w)) by (vm_compute; reflexivity).
  split; [split; [exact Hrx | split; [exact Hlen | split; assumption]] |].
  rewrite (proj1 (reset_packet_reaches_every_channel w payload [xcc]
                    Hrx Hlen Hok Hpos)).
  vm_compute. reflexivity.
Defined.

(** ** The dispatcher: time query and the whole pass *)

(** X9. A GET_TIME packet (the byte 0xCC at the front of the queue) is
    answered in the same round with TIME: followed by the current value of
    the millisecond clock; one byte is read, the dispatcher continues, and
    the object (buffer, count, sync state, baseline), the driver and the
    record of driver calls are untouched. *)
Theorem get_time_replies_with_the_clock (w : World) (rest : list byte) :
  rx w = xcc :: rest ->
  fst (parse_packet w) = Continue /\
  tx (run parse_packet w)
  = tx w ++ [Print (Str "TIME:"); Println (Num (millis w))] /\
  rx (run parse_packet w) = rest /\
  rc (run parse_packet w) = rc w /\
  servo (run parse_packet w) = servo w /\
  moves (run parse_packet w) = moves w.
Proof.
  intro Hrx. unfold run. rewrite (parse_time w rest Hrx). repeat split.
Qed.

Lemma get_time_replies_with_the_clock_witness :
  let w := example_world [mkCommand 3 90 500] 1 true 1000 [xcc; xee] 1234 in
  rx w = xcc :: [xee] /\
  tx (run parse_packet w) = [Print (Str "TIME:"); Println (Num 1234)] /\
  pending (run parse_packet w) = [mkCommand 3 90 500].
Proof.
  intro w.
  destruct (get_time_replies_with_the_clock w [xee] eq_refl)
    as (_ & H1 & _ & H2 & _).
  split; [reflexivity |]. split; [exact H1 |].
  unfold pending. rewrite H2. reflexivity.
Defined.

Lemma parse_loop_any_fuel (n m : nat) (w : World) :
  (List.length (rx w) <= n)%nat -> (List.length (rx w) <= m)%nat ->
  parse_loop n w = parse_loop m w.
Proof.
  intros Hn Hm.
  replace n with (List.length (rx w) + (n - List.length (rx w)))%nat by lia.
  replace m with (List.length (rx w) + (m - List.length (rx w)))%nat by lia.
  rewrite !parse_loop_enough by lia. reflexivity.
Qed.

Lemma parseSerialData_unfold (w : World) :
  parseSerialData w =
    match rx w with
    | [] => (None, w)
    | _ :: _ =>
        match parse_packet w with
        | (Continue, w') => parseSerialData w'
        | (Break, w') => (None, w')
        | (Halt msg, w') => (Some msg, w')
        end
    end.
Proof.
  unfold parseSerialData at 1. rewrite parse_loop_step.
  destruct (rx w) as [| b rest] eqn:Hrx; [reflexivity |].
  pose proof (parse_packet_dispatch w) as Hd.
  destruct (parse_packet w) as [[| | msg] w']; try reflexivity.
  cbn [fst snd] in Hd. apply dispatch_consumes in Hd. rewrite Hrx in Hd.
  unfold parseSerialData. apply parse_loop_any_fuel; simpl in *; lia.
Qed.

Lemma parseSerialData_not_framed (w : World) :
  not_framed (rx w) -> parseSerialData w = (None, w).
Proof.
  intro H. rewrite parseSerialData_unfold.
  destruct (rx w) eqn:Hrx; [reflexivity |].
  rewrite parse_break by (rewrite Hrx; exact H). reflexivity.
Qed.

(** X10. A pass of the dispatcher is the [while] loop it is written as,
    however long the queue: on an empty queue it returns at once; otherwise it
    makes one round, and after a round that consumed a packet it carries on
    exactly as a fresh pass over what is left would; a round that breaks ends
    the pass, and a round caught in [errorHandler] never returns.  And a pass
    that has returned has nothing left to do: run again on the world it left,
    with no new bytes, it returns at once and changes nothing. *)
Theorem parseSerialData_is_its_loop (w : World) :
  parseSerialData w =
    match rx w with
    | [] => (None, w)
    | _ :: _ =>
        match parse_packet w with
        | (Continue, w') => parseSerialData w'
        | (Break, w') => (None, w')
        | (Halt msg, w') => (Some msg, w')
        end
    end /\
  (fst (parseSerialData w) = None ->
   parseSerialData (run parseSerialData w) = (None, run parseSerialData w)).
Proof.
  split.
  - exact (parseSerialData_unfold w).
  - intro Hret. apply parseSerialData_not_framed.
    unfold run, parseSerialData in *.
    apply parse_loop_returns; [lia | exact Hret].
Qed.

Lemma parseSerialData_is_its_loop_witness :
  let w := example_world [no_command] 0 false 0
             [xaa; x01; x00; x00; x03; xe8; xcc; xbb; x03] 1200 in
  fst (parseSerialData w) = None /\
  rx (run parseSerialData w) = [xbb; x03] /\
  parseSerialData (run parseSerialData w) = (None, run parseSerialData w).
Proof.
  intro w.
  assert (H : fst (parseSerialData w) = None) by (vm_compute; reflexivity).
  split; [exact H |]. split; [vm_compute; reflexivity |].
  exact (proj2 (parseSerialData_is_its_loop w) H).
Defined.

Lemma dispatch_suffix (w : World) (f : flow) (w' : World) :
  dispatch w f w' -> exists consumed, rx w = consumed ++ rx w'.
Proof.
  intro H. inversion H as
    [rest Hrx | payload rest Hrx Hlen | t a d0 d1 d2 d3 rest Hrx Hc
    | t a d0 d1 d2 d3 rest Hrx Hc | d0 d1 d2 d3 rest Hrx Hc
    | d0 d1 d2 d3 rest Hrx Hc | rest Hrx | b3 b2 b1 b0 rest Hrx
    | ty rest Hrx Hty Hlen | Hnf]; subst; cbn [after rx].
  - exists [xee]. exact Hrx.
  - exists (xef :: payload). exact Hrx.
  - exists [xbb; t; a; d0; d1; d2; d3]. exact Hrx.
  - exists [xbb; t; a; d0; d1; d2; d3]. exact Hrx.
  - exists [xdd; d0; d1; d2; d3]. exact Hrx.
  - exists [xdd; d0; d1; d2; d3]. exact Hrx.
  - exists [xcc]. exact Hrx.
  - exists [xaa; x01; b3; b2; b1; b0]. exact Hrx.
  - exists [xaa; ty]. exact Hrx.
  - exists []. reflexivity.
Qed.

Lemma parse_loop_suffix (n : nat) :
  forall w, exists consumed, rx w = consumed ++ rx (run (parse_loop n) w).
Proof.
  induction n as [| n IH]; intro w.
  - exists []. reflexivity.
  - unfold run. rewrite parse_loop_step.
    destruct (rx w) as [| b rest] eqn:Hrx.
    + exists []. cbn. rewrite Hrx. reflexivity.
    + destruct (dispatch_suffix w _ _ (parse_packet_dispatch w)) as [c1 H1].
      rewrite Hrx in H1.
      destruct (parse_packet w) as [[| | msg] w']; cbn [fst snd] in *.
      * destruct (IH w') as [c2 H2]. unfold run in H2. exists (c1 ++ c2).
        rewrite <- app_assoc, <- H2. exact H1.
      * exists c1. exact H1.
      * exists c1. exact H1.
Qed.

(** X11. A pass of the dispatcher reads the queue from the front only: what
    it leaves is a tail of what it found.  When the pass returns, it has
    used up every complete packet: the queue is empty or its front is an
    unknown marker or a packet still arriving. *)
Theorem parseSerialData_drains_the_queue (w : World) :
  (exists consumed, rx w = consumed ++ rx (run parseSerialData w)) /\
  (fst (parseSerialData w) = None ->
   not_framed (rx (run parseSerialData w))).
Proof.
  split.
  - apply parse_loop_suffix.
  - intro H. unfold run, parseSerialData in *.
    apply parse_loop_returns; [lia | exact H].
Qed.

Lemma parseSerialData_drains_the_queue_witness :
  let w := example_world [no_command] 0 false 0
             [xaa; x01; x00; x00; x03; xe8;
              xbb; x03; x5a; xf4; x01; x00; x00;
              xcc; xdd; x00] 1200 in
  fst (parseSerialData w) = None /\
  not_framed (rx (run parseSerialData w)) /\
  rx (run parseSerialData w) = [xdd; x00] /\
  pending (run parseSerialData w) = [mkCommand 3 90 500].
Proof.
  intro w.
  assert (H : fst (parseSerialData w) = None) by (vm_compute; reflexivity).
  split; [exact H |].
  split; [exact (proj2 (parseSerialData_drains_the_queue w) H) |].
  split; vm_compute; reflexivity.
Defined.

(** ** The scheduler: a second look at the same instant *)

Lemma update_loop_nothing_due (now : Z) (n : nat) :
  forall (i : Z) (w : World),
    (forall k, i <= k < commandCount (rc w) ->
               (now >=? to_uint32
                          (syncStartTime (rc w)
                           + relativeDelay (array_get no_command
                                              (commandBuffer (rc w)) k)))
               = false) ->
    run (update_loop n now i) w = w.
Proof.
  induction n as [| n IH]; intros i w H.
  - reflexivity.
  - destruct (Z_lt_le_dec i (commandCount (rc w))) as [Hlt | Hge].
    + rewrite (update_loop_wait n now i w Hlt (H i ltac:(lia))).
      apply IH. intros k Hk. apply H. lia.
    + apply update_loop_done. lia.
Qed.

Lemma array_get_pending (w : World) (k : Z) :
  in_bounds w -> 0 <= k < commandCount (rc w) ->
  In (array_get no_command (commandBuffer (rc w)) k) (pending w).
Proof.
  intros Hb Hk. destruct (pending_split w Hb) as [Hbuf Hlen].
  unfold array_get. rewrite Hbuf.
  rewrite app_nth1 by lia. apply nth_In. lia.
Qed.

Lemma update_keeps_the_clock (w : World) :
  in_bounds w -> syncReceived (rc w) = true ->
  millis (run update w) = millis w /\
  syncStartTime (rc (run update w)) = syncStartTime (rc w).
Proof.
  intros Hb Hs. destruct (update_spec w Hb Hs) as (_ & _ & _ & He).
  destruct (fire_all_frame (filter (due w) (pending w)) w)
    as (_ & _ & F3 & _ & F5 & _).
  split.
  - change (millis (run update w)) with (millis (erase (run update w))).
    rewrite He. exact F5.
  - change (syncStartTime (rc (run update w)))
      with (syncStartTime (rc (erase (run update w)))).
    rewrite He. exact F3.
Qed.

(** X12. A second pass of the scheduler at the same clock value changes
    nothing: whatever was due has fired and left the buffer in the first
    pass, so no command is executed twice. *)
Theorem update_twice_is_update_once (w : World) :
  in_bounds w -> run update (run update w) = run update w.
Proof.
  intro Hb. destruct (syncReceived (rc w)) eqn:Hs.
  - destruct (update_spec w Hb Hs) as (Hp & Hb' & _ & _).
    destruct (update_keeps_the_clock w Hb Hs) as [Hm Hst].
    set (w' := run update w) in *.
    destruct (syncReceived (rc w')) eqn:Hs'.
    + rewrite update_active by exact Hs'.
      apply update_loop_nothing_due. intros k Hk.
      pose proof (array_get_pending w' k Hb' ltac:(lia)) as Hin.
      rewrite Hp in Hin. apply filter_In in Hin. destruct Hin as [_ Hnd].
      unfold due, execTime in Hnd. rewrite Hm, Hst.
      apply negb_true_iff. exact Hnd.
    + unfold run at 1. rewrite update_idle by exact Hs'. reflexivity.
  - assert (E : run update w = w)
      by (unfold run; rewrite update_idle by exact Hs; reflexivity).
    rewrite !E. reflexivity.
Qed.

Lemma update_twice_is_update_once_witness :
  let w := world (steps (power_on [no_command] 0)
                    [Receive [xaa; x01; x00; x00; x03; xe8];
                     Receive [xbb; x03; x5a; xf4; x01; x00; x00];
                     Round; Elapse 1500]) in
  in_bounds w /\
  moves (run update w) = [(3, 90)] /\
  moves (run update (run update w)) = [(3, 90)].
Proof.
  intro w.
  assert (Hb : in_bounds w) by (vm_compute; split; discriminate).
  split; [exact Hb |]. split; [vm_compute; reflexivity |].
  rewrite (update_twice_is_update_once w Hb). vm_compute. reflexivity.
Defined.

(** ** A pick addressed to index 255 *)

(** X13. The end-of-sequence entry is recognised by its target index alone,
    so a PICK packet whose target byte is 0xFF is taken for it: buffered as
    usual and, in the pass where it is due, it prints DONE and turns
    scheduling off without any driver call, whatever its angle byte. *)
Theorem pick_for_index_255_ends_the_sequence (w : World)
  (a d0 d1 d2 d3 : byte) (rest : list byte) :
  buffer_ok w ->
  commandCount (rc w) = 0 ->
  syncReceived (rc w) = true ->
  rx w = xbb :: xff :: a :: d0 :: d1 :: d2 :: d3 :: rest ->
  not_framed rest ->
  due w (pick_command xff a d0 d1 d2 d3) = true ->
  let w' := run handle w in
  fst (handle w) = None /\
  syncReceived (rc w') = false /\
  pending w' = [] /\
  moves w' = moves w /\
  servo w' = servo w /\
  tx w' = tx w
          ++ (if debugEnabled (rc w)
              then pick_debug (pick_command xff a d0 d1 d2 d3) else [])
          ++ [Println (Str "DONE")].
Proof.
  intros Hok Hc Hs Hrx Hnf Hdue w'.
  set (c := pick_command xff a d0 d1 d2 d3) in *.
  assert (Hfree : commandCount (rc w) < MAX_COMMANDS)
    by (rewrite Hc; reflexivity).
  set (w1 := after w (append_command c (rc w)) rest
               (if debugEnabled (rc w) then pick_debug c else [])).
  assert (Hparse : parseSerialData w = (None, w1)).
  { rewrite parseSerialData_unfold, Hrx.
    rewrite (parse_pick w _ _ _ _ _ _ _ Hrx Hfree). fold c w1.
    apply parseSerialData_not_framed. exact Hnf. }
  assert (Hb1 : in_bounds w1).
  { apply buffer_ok_in_bounds.
    destruct Hok as [Hl Hcc]. unfold buffer_ok, w1. cbn [after rc].
    apply append_command_ok; [exact Hl | lia]. }
  assert (Hs1 : syncReceived (rc w1) = true) by exact Hs.
  assert (Hp1 : pending w1 = [c]).
  { rewrite (pending_append c w w1 (buffer_ok_in_bounds w Hok)).
    - unfold pending. rewrite Hc. reflexivity.
    - destruct Hok as [Hl _]. rewrite Hl, Hc. reflexivity.
    - reflexivity. }
  assert (Hdue1 : due w1 c = true) by exact Hdue.
  destruct (update_spec w1 Hb1 Hs1) as (Hp' & _ & _ & He).
  rewrite Hp1 in Hp', He. cbn [filter] in Hp', He.
  rewrite Hdue1 in Hp', He. cbn [negb fire_all fold_left] in Hp', He.
  assert (Hx : run (execute c) w1
               = {| rc := put_syncReceived false (rc w1); rx := rx w1;
                    tx := tx w1 ++ [Println (Str "DONE")];
                    millis := millis w1; servo := servo w1;
                    moves := moves w1 |}) by reflexivity.
  rewrite Hx in He.
  assert (Hw' : w' = run update w1).
  { unfold w', run, handle, bind. rewrite Hparse.
    destruct (update w1) as [[] w2]. reflexivity. }
  split.
  { unfold handle, bind. rewrite Hparse.
    destruct (update w1) as [[] w2]. reflexivity. }
  rewrite Hw'.
  split; [| split; [exact Hp' | split; [| split]]].
  - change (syncReceived (rc (run update w1)))
      with (syncReceived (rc (erase (run update w1)))).
    rewrite He. reflexivity.
  - change (moves (run update w1)) with (moves (erase (run update w1))).
    rewrite He. reflexivity.
  - change (servo (run update w1)) with (servo (erase (run update w1))).
    rewrite He. reflexivity.
  - change (tx (run update w1)) with (tx (erase (run update w1))).
    rewrite He. cbn [erase with_rc tx]. unfold w1. cbn [after tx].
    rewrite <- app_assoc. reflexivity.
Qed.

Lemma pick_for_index_255_ends_the_sequence_witness :
  let w := world (steps (power_on [no_command] 0)
                    [Begin [0x40] 1 false;
                     Receive [xaa; x01; x00; x00; x03; xe8]; Round;
                     Elapse 2000;
                     Receive [xbb; xff; x5a; xf4; x01; x00; x00]]) in
  (buffer_ok w /\ commandCount (rc w) = 0 /\ syncReceived (rc w) = true /\
   rx w = xbb :: xff :: x5a :: xf4 :: x01 :: x00 :: x00 :: [] /\
   due w (pick_command xff x5a xf4 x01 x00 x00) = true) /\
  syncReceived (rc (run handle w)) = false /\
  moves (run handle w) = [] /\
  tx (run handle w) = [Println (Str "DONE")].
Proof.
  intro w.
  assert (Hok : buffer_ok w) by (vm_compute; repeat split; discriminate).
  assert (Hc : commandCount (rc w) = 0) by (vm_compute; reflexivity).
  assert (Hs : syncReceived (rc w) = true) by (vm_compute; reflexivity).
  assert (Hrx : rx w = xbb :: xff :: x5a :: xf4 :: x01 :: x00 :: x00 :: [])
    by (vm_compute; reflexivity).
  assert (Hdue : due w (pick_command xff x5a xf4 x01 x00 x00) = true)
    by (vm_compute; reflexivity).
  destruct (pick_for_index_255_ends_the_sequence w x5a xf4 x01 x00 x00 []
              Hok Hc Hs Hrx I Hdue) as (_ & H1 & _ & H2 & _ & H3).
  split; [repeat (split; [assumption |]); exact Hdue |].
  split; [exact H1 |].
  split; [rewrite H2; vm_compute; reflexivity |].
  rewrite H3. vm_compute. reflexivity.
Defined.

(** ** RemoteControl: begin and addServo *)

Lemma to_uint8_small (x : Z) : 0 <= x <= 255 -> to_uint8 x = x.
Proof. intro H. unfold to_uint8. apply Z.mod_small. lia. Qed.

(** X14. With debug output on, [addServo] prints its "Mapped servo" line
    for every call, also when ServoControl rejects the mapping (servo index
    above 17, board not initialised, channel above 15) and the tables stay as
    they were.  In either case the command buffer, the sync state and the
    queue are not touched. *)
Theorem addServo_reports_even_a_rejected_mapping (w : World)
  (boardIndex channel servoIndex : Z) :
  debugEnabled (rc w) = true ->
  0 <= boardIndex <= 255 -> 0 <= channel <= 255 -> 0 <= servoIndex <= 255 ->
  let w' := run (addServo boardIndex channel servoIndex) w in
  tx w' = tx w ++ [Print (Str "RemoteControl: Mapped servo ");
                   Print (Num servoIndex); Print (Str " → board ");
                   Print (Num boardIndex); Print (Str ", channel ");
                   Println (Num channel)] /\
  rc w' = rc w /\ rx w' = rx w /\ moves w' = moves w /\
  servo w' = setServoMapping servoIndex boardIndex channel (servo w) /\
  (MAX_SERVOS <= servoIndex \/ numBoards (servo w) <= boardIndex
   \/ 16 <= channel ->
   servo w' = servo w).
Proof.
  intros Hdbg Hb Hc Hi w'. unfold w', run, addServo.
  rewrite !to_uint8_small by assumption.
  unfold bind, get, with_servo. cbn [rc]. rewrite Hdbg.
  unfold Serial_print, Serial_println, Serial_write. cbn.
  rewrite <- !app_assoc. cbn [app].
  repeat (split; [reflexivity |]).
  intro H.
  destruct (setServoMapping_cases servoIndex boardIndex channel (servo w))
    as [(H1 & H2 & H3 & _) | (_ & E)]; [lia | exact E].
Qed.

Lemma addServo_reports_even_a_rejected_mapping_witness :
  let w := world (steps (power_on [no_command] 0) [Begin [0x40] 1 true]) in
  let w' := run (addServo 1 3 5) w in
  (debugEnabled (rc w) = true /\ numBoards (servo w) <= 1) /\
  servo w' = servo w /\
  tx w' = tx w ++ [Print (Str "RemoteControl: Mapped servo ");
                   Print (Num 5); Print (Str " → board ");
                   Print (Num 1); Print (Str ", channel ");
                   Println (Num 3)].
Proof.
  intros w w'.
  assert (Hdbg : debugEnabled (rc w) = true) by (vm_compute; reflexivity).
  assert (Hnb : numBoards (servo w) <= 1) by (vm_compute; discriminate).
  destruct (addServo_reports_even_a_rejected_mapping w 1 3 5 Hdbg
              ltac:(lia) ltac:(lia) ltac:(lia)) as (H1 & _ & _ & _ & _ & H2).
  split; [split; [exact Hdbg | exact Hnb] |].
  split; [apply H2; right; left; exact Hnb | exact H1].
Defined.

(** ** The due time near the end of the clock's range *)

(** X15. The due time is computed in 32 bits.  When baseline plus delay
    reaches 2^32, the entry is compared against the sum less 2^32, which is
    below the baseline: it counts as due as soon as the clock is at or past
    the baseline, without waiting for the delay.  When the sum fits, the
    entry is due exactly from baseline plus delay on. *)
Theorem due_time_wraps_at_32_bits (w : World) (c : Command) :
  0 <= syncStartTime (rc w) < 2 ^ 32 ->
  0 <= relativeDelay c < 2 ^ 32 ->
  (syncStartTime (rc w) + relativeDelay c < 2 ^ 32 ->
   (due w c = true <-> syncStartTime (rc w) + relativeDelay c <= millis w)) /\
  (2 ^ 32 <= syncStartTime (rc w) + relativeDelay c ->
   execTime w c = syncStartTime (rc w) + relativeDelay c - 2 ^ 32 /\
   execTime w c < syncStartTime (rc w) /\
   (syncStartTime (rc w) <= millis w -> due w c = true)).
Proof.
  intros Hs Hd. split.
  - intro Hfit. unfold due. rewrite Z.geb_leb, Z.leb_le.
    rewrite execTime_exact by lia. reflexivity.
  - intro Hover.
    assert (E : execTime w c
                = syncStartTime (rc w) + relativeDelay c - 2 ^ 32).
    { unfold execTime, to_uint32. symmetry.
      apply (Z.mod_unique _ _ 1); [left; lia | lia]. }
    split; [exact E |]. split; [lia |].
    intro Hm. unfold due. rewrite Z.geb_leb. apply Z.leb_le. lia.
Qed.

Lemma due_time_wraps_at_32_bits_witness :
  let w := example_world [mkCommand 3 90 500] 1 true 4294967196 [] 4294967200 in
  let c := mkCommand 3 90 500 in
  (0 <= syncStartTime (rc w) < 2 ^ 32 /\ 0 <= relativeDelay c < 2 ^ 32 /\
   2 ^ 32 <= syncStartTime (rc w) + relativeDelay c) /\
  execTime w c = 400 /\ due w c = true /\ moves (run update w) = [(3, 90)].
Proof.
  intros w c.
  assert (Hs : 0 <= syncStartTime (rc w) < 2 ^ 32) by (cbn; lia).
  assert (Hd : 0 <= relativeDelay c < 2 ^ 32) by (cbn; lia).
  assert (Ho : 2 ^ 32 <= syncStartTime (rc w) + relativeDelay c) by (cbn; lia).
  destruct (proj2 (due_time_wraps_at_32_bits w c Hs Hd) Ho) as (H1 & _ & H2).
  split; [split; [exact Hs | split; [exact Hd | exact Ho]] |].
  split; [rewrite H1; reflexivity |].
  split; [apply H2; cbn; lia | reflexivity].
Defined.

(** ** No movement without SYNC or RESET *)

Lemma no_sync_or_reset_tail (q1 q2 : list byte) :
  no_sync_or_reset (q1 ++ q2) -> no_sync_or_reset q2.
Proof.
  intros [H1 H2]. split; intro H; [apply H1 | apply H2];
    apply in_or_app; right; exact H.
Qed.

Lemma no_sync_or_reset_app (q1 q2 : list byte) :
  no_sync_or_reset q1 -> no_sync_or_reset q2 -> no_sync_or_reset (q1 ++ q2).
Proof.
  intros [A1 A2] [B1 B2]. split; intro H; apply in_app_or in H; tauto.
Qed.

Lemma dispatch_unsynchronised (w : World) (f : flow) (w' : World) :
  dispatch w f w' -> unsynchronised w ->
  unsynchronised w' /\ (forall msg, f <> Halt msg).
Proof.
  intros Hd (Hs & Hm & Hh & Hq).
  destruct (dispatch_suffix w f w' Hd) as [consumed Hc].
  assert (Hq' : no_sync_or_reset (rx w'))
    by (rewrite Hc in Hq; exact (no_sync_or_reset_tail _ _ Hq)).
  destruct Hq as [Hna Hnf]. destruct Hq' as [Qa Qf].
  inversion Hd as
    [rest Hrx | payload rest Hrx Hlen | t a d0 d1 d2 d3 rest Hrx Hcc
    | t a d0 d1 d2 d3 rest Hrx Hcc | d0 d1 d2 d3 rest Hrx Hcc
    | d0 d1 d2 d3 rest Hrx Hcc | rest Hrx | b3 b2 b1 b0 rest Hrx
    | ty rest Hrx Hty Hlen | Hnf']; subst;
    try (exfalso; apply Hna; rewrite Hrx; left; reflexivity);
    try (exfalso; apply Hnf; rewrite Hrx; left; reflexivity);
    (split; [| intros msg; discriminate]);
    unfold unsynchronised in *; cbn [after rc rx moves servo] in *;
    repeat split; auto.
Qed.

Lemma parse_loop_unsynchronised (n : nat) :
  forall w, unsynchronised w ->
            unsynchronised (run (parse_loop n) w) /\
            fst (parse_loop n w) = None.
Proof.
  induction n as [| n IH]; intros w H.
  - split; [exact H | reflexivity].
  - unfold run. rewrite parse_loop_step.
    destruct (rx w); [split; [exact H | reflexivity] |].
    destruct (dispatch_unsynchronised w _ _ (parse_packet_dispatch w) H)
      as [H' Hnh].
    destruct (parse_packet w) as [[| | msg] w']; cbn [fst snd] in *.
    + apply IH. exact H'.
    + split; [exact H' | reflexivity].
    + exfalso. exact (Hnh msg eq_refl).
Qed.

Lemma handle_unsynchronised (w : World) :
  unsynchronised w ->
  unsynchronised (run handle w) /\ fst (handle w) = None.
Proof.
  intro H. unfold run, handle. unfold bind at 1 3.
  destruct (parse_loop_unsynchronised (S (List.length (rx w))) w H)
    as [H1 H2].
  unfold run in H1. fold (parseSerialData w) in H1, H2.
  destruct (parseSerialData w) as [[msg |] w1]; cbn [fst snd] in *;
    [discriminate |].
  unfold bind. rewrite update_idle by (apply H1). split; [exact H1 | reflexivity].
Qed.

Lemma setupServoDrivers_no_pwm (addrs : list Z) (n : Z) (sv : ServoControl) :
  Forall (fun e => is_pwm e = false) (hw sv) ->
  Forall (fun e => is_pwm e = false) (hw (setupServoDrivers addrs n sv)).
Proof.
  intro H. unfold setupServoDrivers. cbn [hw].
  apply Forall_app. split; [exact H |].
  constructor; [reflexivity |].
  apply Forall_forall. intros x Hx. apply in_flat_map in Hx.
  destruct Hx as (k & _ & [<- | [<- | []]]); reflexivity.
Qed.

Lemma setServoMapping_hw (i b c : Z) (sv : ServoControl) :
  hw (setServoMapping i b c sv) = hw sv.
Proof.
  destruct (setServoMapping_cases i b c sv) as [(_ & _ & _ & E) | (_ & E)];
    rewrite E; reflexivity.
Qed.

Lemma begin_frame (addrs : list Z) (n : Z) (dbg : bool) (w : World) :
  let w' := run (begin addrs n dbg) w in
  rc w' = put_debugEnabled dbg (rc w) /\ rx w' = rx w /\
  moves w' = moves w /\ millis w' = millis w /\
  servo w' = setupServoDrivers addrs n (servo w).
Proof.
  unfold run, begin, bind, modify, get, with_servo. cbn.
  destruct dbg; cbn; repeat split.
Qed.

Lemma addServo_frame (b c i : Z) (w : World) :
  let w' := run (addServo b c i) w in
  rc w' = rc w /\ rx w' = rx w /\ moves w' = moves w /\
  millis w' = millis w /\
  servo w' = setServoMapping (to_uint8 i) (to_uint8 b) (to_uint8 c) (servo w).
Proof.
  unfold run, addServo, bind, get, with_servo. cbn.
  destruct (debugEnabled (rc w)); cbn; repeat split.
Qed.

Lemma step_unsynchronised (s : System) (e : event) :
  quiet_event e ->
  ctl s = Running /\ unsynchronised (world s) ->
  ctl (step s e) = Running /\ unsynchronised (world (step s e)).
Proof.
  intros He [Hc (Hs & Hm & Hh & Hq)].
  destruct e as [bs | ms | addrs n dbg | b c i |]; cbn [step]; rewrite ?Hc.
  - split; [reflexivity |].
    pose proof (no_sync_or_reset_app _ _ Hq He) as Hq'.
    unfold unsynchronised. cbn [world receive rc rx moves servo].
    split; [exact Hs |]. split; [exact Hm |]. split; [exact Hh | exact Hq'].
  - split; [reflexivity |].
    unfold unsynchronised. cbn.
    split; [exact Hs |]. split; [exact Hm |]. split; [exact Hh | exact Hq].
  - split; [reflexivity |]. cbn [world].
    destruct (begin_frame addrs n dbg (world s)) as (F1 & F2 & F3 & _ & F5).
    unfold unsynchronised. rewrite F1, F2, F3, F5.
    split; [exact Hs |]. split; [exact Hm |].
    split; [apply setupServoDrivers_no_pwm; exact Hh | exact Hq].
  - split; [reflexivity |]. cbn [world].
    destruct (addServo_frame b c i (world s)) as (F1 & F2 & F3 & _ & F5).
    unfold unsynchronised. rewrite F1, F2, F3, F5, setServoMapping_hw.
    split; [exact Hs |]. split; [exact Hm |]. split; [exact Hh | exact Hq].
  - destruct (handle_unsynchronised (world s)) as [H1 H2];
      [split; [exact Hs |]; split; [exact Hm |]; split; [exact Hh | exact Hq] |].
    unfold run in H1.
    destruct (handle (world s)) as [[m |] w']; cbn [fst snd] in *;
      [discriminate |].
    split; [reflexivity | exact H1].
Qed.

Lemma steps_unsynchronised (es : list event) :
  forall s, Forall quiet_event es ->
            ctl s = Running /\ unsynchronised (world s) ->
            ctl (steps s es) = Running /\ unsynchronised (world (steps s es)).
Proof.
  induction es as [| e es IH]; intros s Hq H; cbn.
  - exact H.
  - inversion Hq; subst. apply IH; [assumption |].
    apply step_unsynchronised; assumption.
Qed.

(** X16. From power-on, as long as no byte 0xAA (SYNC) and no byte 0xEF
    (RESET) has arrived, the firmware makes no driver call and sends no PWM
    command at all, whatever else arrives (picks, end markers, stops, time
    queries, garbage) and however long it runs; scheduling stays off and the
    firmware never enters the fatal halt. *)
Theorem nothing_moves_before_sync_or_reset (slots : list Command) (t0 : Z)
  (es : list event) :
  Forall quiet_event es ->
  let s := steps (power_on slots t0) es in
  moves (world s) = [] /\
  Forall (fun e => is_pwm e = false) (hw (servo (world s))) /\
  syncReceived (rc (world s)) = false /\
  ctl s = Running.
Proof.
  intros Hq s.
  destruct (steps_unsynchronised es (power_on slots t0) Hq)
    as (Hc & Hs & Hm & Hh & _).
  - split; [reflexivity |]. unfold unsynchronised. cbn.
    repeat split; auto; intros [].
  - fold s in Hc, Hs, Hm, Hh. repeat split; assumption.
Qed.

Lemma nothing_moves_before_sync_or_reset_witness :
  let es := [Begin [0x40; 0x41] 2 false;
             Receive [xbb; x03; x5a; x00; x00; x00; x00];
             Round; Elapse 5000; Round;
             Receive [xdd; x00; x00; x00; x00; xcc; xee]; Round] in
  let s := steps (power_on [no_command] 0) es in
  Forall quiet_event es /\
  moves (world s) = [] /\
  pending (world s) = [] /\
  tx (world s) = [Print (Str "TIME:"); Println (Num 5000);
                  Println (Str "STOPPED")].
Proof.
  intros es s.
  assert (Hq : Forall quiet_event es).
  { repeat constructor; cbn; intro H;
      repeat (destruct H as [H | H]; [discriminate H |]); exact H. }
  destruct (nothing_moves_before_sync_or_reset [no_command] 0 es Hq)
    as (H1 & _).
  split; [exact Hq |]. split; [exact H1 |].
  split; vm_compute; reflexivity.
Defined.

(** ** Mapping a servo and then moving it *)

(** X17. A servo moved after it was mapped goes where it was mapped: with
    the board initialised and index, board and channel in range, the PWM
    command of [setServoAngle] after [setServoMapping] is addressed to
    exactly that board and channel, with the pulse of the angle; every other
    servo is still driven where it was before. *)
Theorem mapped_servo_is_driven_where_mapped (sv : ServoControl)
  (i b c a : Z) :
  servo_ok sv ->
  0 <= i < MAX_SERVOS -> 0 <= b < numBoards sv -> 0 <= c < 16 ->
  hw (setServoAngle i a (setServoMapping i b c sv))
  = hw sv ++ [SetPWM b c 0 (angleToPulse a sv)] /\
  (forall j, 0 <= j < MAX_SERVOS -> j <> i ->
             hw (setServoAngle j a (setServoMapping i b c sv))
             = hw (setServoAngle j a sv)).
Proof.
  intros Hok Hi Hb Hc.
  pose proof (setServoMapping_ok i b c sv Hok) as Hok'.
  destruct (setServoMapping_cases i b c sv) as [(_ & _ & _ & E) | (N & _)];
    [| exfalso; apply N; auto].
  destruct Hok as (_ & _ & _ & _ & Hlb & Hlc & _).
  unfold MAX_SERVOS in *.
  split.
  - rewrite setServoAngle_pwm. unfold put_hw. cbn [hw].
    rewrite pwm_command_valid
      by (try exact Hok'; rewrite ?E; cbn [numBoards]; unfold MAX_SERVOS; lia).
    rewrite E. cbn [hw servoBoard servoChannel].
    rewrite !array_get_set_same by lia. reflexivity.
  - intros j Hj Hji. rewrite !setServoAngle_pwm. unfold put_hw. cbn [hw].
    rewrite E. cbn [hw]. f_equal.
    unfold pwm_command, angleToPulse.
    cbn [servoBoard servoChannel numBoards servomin servomax].
    rewrite !array_get_set_other by lia. reflexivity.
Qed.

Lemma mapped_servo_is_driven_where_mapped_witness :
  let sv := setupServoDrivers [0x40; 0x41] 2 servo_globals in
  (servo_ok sv /\ 0 <= 16 < MAX_SERVOS /\ 0 <= 1 < numBoards sv
   /\ 0 <= 0 < 16) /\
  hw (setServoAngle 16 180 (setServoMapping 16 1 0 sv))
  = hw sv ++ [SetPWM 1 0 0 639].
Proof.
  intro sv.
  assert (Hok : servo_ok sv)
    by (apply setupServoDrivers_ok, servo_globals_ok).
  assert (Hi : 0 <= 16 < MAX_SERVOS) by (unfold MAX_SERVOS; lia).
  assert (Hb : 0 <= 1 < numBoards sv) by (vm_compute; split; congruence).
  assert (Hc : 0 <= 0 < 16) by lia.
  split; [split; [exact Hok | split; [exact Hi | split; [exact Hb | exact Hc]]] |].
  rewrite (proj1 (mapped_servo_is_driven_where_mapped sv 16 1 0 180
                    Hok Hi Hb Hc)).
  reflexivity.
Defined.

(** ** Debug output does not steer *)

Lemma mute_idem (w : World) : mute (mute w) = mute w.
Proof. destruct w as [[buf cnt sy st dbg] q t m sv mv]. reflexivity. Qed.

Lemma mute_drive (cs : list (Z * Z)) :
  forall w, mute (drive cs w) = drive cs (mute w).
Proof.
  induction cs as [| [i a] cs IH]; intro w; cbn.
  - reflexivity.
  - rewrite IH. reflexivity.
Qed.

Lemma mute_after (w : World) (r : RemoteControl) (q : list byte)
  (out : list tx_item) :
  mute (after w r q out)
  = {| rc := put_debugEnabled false r; rx := q; tx := [];
       millis := millis w; servo := servo w; moves := moves w |}.
Proof. reflexivity. Qed.

Lemma parse_packet_mute (w : World) :
  fst (parse_packet (mute w)) = fst (parse_packet w) /\
  mute (snd (parse_packet (mute w))) = mute (snd (parse_packet w)).
Proof.
  pose proof (parse_packet_dispatch w) as Hd.
  destruct (parse_packet w) as [f w'] eqn:Hp. cbn [fst snd] in *.
  inversion Hd as
    [rest Hrx | payload rest Hrx Hlen | t a d0 d1 d2 d3 rest Hrx Hc
    | t a d0 d1 d2 d3 rest Hrx Hc | d0 d1 d2 d3 rest Hrx Hc
    | d0 d1 d2 d3 rest Hrx Hc | rest Hrx | b3 b2 b1 b0 rest Hrx
    | ty rest Hrx Hty Hlen | Hnf]; subst.
  - rewrite (parse_stop (mute w) rest Hrx). split; reflexivity.
  - rewrite (parse_reset (mute w) payload rest Hrx Hlen). cbn [fst snd].
    split; [reflexivity |]. rewrite !mute_after.
    pose proof (mute_drive (combine (indices 18) (reset_angles payload)) w)
      as Hm.
    pose proof (mute_drive (combine (indices 18) (reset_angles payload))
                  (mute w)) as Hm'.
    rewrite mute_idem in Hm'.
    pose proof (eq_trans Hm' (eq_sym Hm)) as Hmm.
    apply (f_equal millis) in Hmm as E1.
    apply (f_equal servo) in Hmm as E2.
    apply (f_equal moves) in Hmm as E3.
    cbn [mute millis servo moves] in E1, E2, E3.
    rewrite E1, E2, E3. reflexivity.
  - rewrite (parse_pick (mute w) _ _ _ _ _ _ _ Hrx Hc). split; reflexivity.
  - rewrite (parse_pick_full (mute w) _ _ _ _ _ _ _ Hrx Hc).
    split; reflexivity.
  - rewrite (parse_end (mute w) _ _ _ _ _ Hrx Hc). split; reflexivity.
  - rewrite (parse_end_full (mute w) _ _ _ _ _ Hrx Hc). split; reflexivity.
  - rewrite (parse_time (mute w) rest Hrx). split; reflexivity.
  - rewrite (parse_sync (mute w) _ _ _ _ _ Hrx). split; reflexivity.
  - rewrite (parse_sync_bad (mute w) ty rest Hrx Hty Hlen). split; reflexivity.
  - match goal with
    | |- context [parse_packet (mute ?v)] => rewrite (parse_break (mute v) Hnf)
    end.
    split; [reflexivity | apply mute_idem].
Qed.

Lemma parse_loop_mute (n : nat) :
  forall w,
    fst (parse_loop n (mute w)) = fst (parse_loop n w) /\
    mute (snd (parse_loop n (mute w))) = mute (snd (parse_loop n w)).
Proof.
  induction n as [| n IH]; intro w.
  - split; [reflexivity | apply mute_idem].
  - rewrite !parse_loop_step. change (rx (mute w)) with (rx w).
    destruct (rx w); [split; [reflexivity | apply mute_idem] |].
    destruct (parse_packet_mute w) as [Hf Hw].
    destruct (parse_packet (mute w)) as [f1 w1].
    destruct (parse_packet w) as [f2 w2]. cbn [fst snd] in Hf, Hw. subst f2.
    destruct f1 as [| | msg]; cbn [fst snd].
    + destruct (IH w1) as [A1 A2]. destruct (IH w2) as [B1 B2].
      rewrite Hw in A1, A2. split; congruence.
    + split; [reflexivity | exact Hw].
    + split; [reflexivity | exact Hw].
Qed.

Lemma mute_execute (c : Command) (w : World) :
  mute (run (execute c) (mute w)) = mute (run (execute c) w).
Proof.
  destruct w as [[buf cnt sy st dbg] q t m sv mv].
  unfold run, execute, bind, get. cbn.
  destruct (targetIndex c =? 255); [reflexivity |].
  destruct dbg; reflexivity.
Qed.

Lemma mute_with_rc (k : Z) (b : list Command) (x y : World) :
  mute x = mute y ->
  mute (with_rc (put_commandCount k) (with_rc (put_commandBuffer b) x))
  = mute (with_rc (put_commandCount k) (with_rc (put_commandBuffer b) y)).
Proof.
  destruct x as [[? ? ? ? ?] ? ? ? ? ?]. destruct y as [[? ? ? ? ?] ? ? ? ? ?].
  unfold mute. cbn. intro H. injection H as <- <- <- <- <- <- <- <-.
  reflexivity.
Qed.

Lemma update_loop_mute (now : Z) (n : nat) :
  forall (i : Z) (x y : World),
    mute x = mute y ->
    mute (run (update_loop n now i) x) = mute (run (update_loop n now i) y).
Proof.
  induction n as [| n IH]; intros i x y H.
  - exact H.
  - assert (Hrc : commandBuffer (rc x) = commandBuffer (rc y) /\
                  commandCount (rc x) = commandCount (rc y) /\
                  syncStartTime (rc x) = syncStartTime (rc y)).
    { destruct x as [[? ? ? ? ?] ? ? ? ? ?].
      destruct y as [[? ? ? ? ?] ? ? ? ? ?].
      unfold mute in H. cbn in H. injection H as <- <- <- <- <- <- <- <-.
      repeat split. }
    destruct Hrc as (Hbuf & Hcnt & Hst).
    destruct (Z_lt_le_dec i (commandCount (rc x))) as [Hlt | Hge].
    + destruct (now >=? to_uint32 (syncStartTime (rc x)
                  + relativeDelay (array_get no_command
                                     (commandBuffer (rc x)) i))) eqn:Hdue.
      * rewrite (update_loop_fire n now i x Hlt Hdue).
        rewrite Hbuf, Hst in Hdue. rewrite Hcnt in Hlt.
        rewrite (update_loop_fire n now i y Hlt Hdue).
        apply IH.
        destruct (execute_frame
                    (array_get no_command (commandBuffer (rc x)) i) x)
          as (X1 & X2 & _).
        destruct (execute_frame
                    (array_get no_command (commandBuffer (rc y)) i) y)
          as (Y1 & Y2 & _).
        rewrite X1, X2, Y1, Y2, Hbuf, Hcnt.
        apply mute_with_rc.
        rewrite <- (mute_execute _ x), <- (mute_execute _ y), H. reflexivity.
      * rewrite (update_loop_wait n now i x Hlt Hdue).
        rewrite Hbuf, Hst in Hdue. rewrite Hcnt in Hlt.
        rewrite (update_loop_wait n now i y Hlt Hdue).
        apply IH. exact H.
    + rewrite !update_loop_done by lia. exact H.
Qed.

Lemma update_mute (x y : World) :
  mute x = mute y -> mute (run update x) = mute (run update y).
Proof.
  intro H.
  assert (Hrc : syncReceived (rc x) = syncReceived (rc y) /\
                commandCount (rc x) = commandCount (rc y) /\
                millis x = millis y).
  { destruct x as [[? ? ? ? ?] ? ? ? ? ?].
    destruct y as [[? ? ? ? ?] ? ? ? ? ?].
    unfold mute in H. cbn in H. injection H as <- <- <- <- <- <- <- <-.
    repeat split. }
  destruct Hrc as (Hs & Hc & Hm).
  destruct (syncReceived (rc y)) eqn:Hy.
  - rewrite (update_active x Hs), (update_active y Hy), Hc, Hm.
    apply update_loop_mute. exact H.
  - unfold run. rewrite (update_idle x Hs), (update_idle y Hy). exact H.
Qed.

(** X18. Debug output does not steer the instrument.  Run [handle] from
    the same state with debug on or off and with any earlier output: it ends
    the same way (returns, or is caught in [errorHandler]), and buffer,
    count, sync state, baseline, queue, clock, driver state, PWM commands and
    driver calls come out the same; only what is printed and the debug flag
    itself can differ. *)
Theorem debug_output_does_not_steer (w : World) :
  fst (handle (mute w)) = fst (handle w) /\
  mute (run handle (mute w)) = mute (run handle w).
Proof.
  unfold run, handle, bind.
  destruct (parse_loop_mute (S (List.length (rx w))) w) as [Hf Hw].
  change (parse_loop (S (List.length (rx w))) (mute w))
    with (parseSerialData (mute w)) in Hf, Hw.
  fold (parseSerialData w) in Hf, Hw.
  destruct (parseSerialData (mute w)) as [h1 w1].
  destruct (parseSerialData w) as [h2 w2]. cbn [fst snd] in Hf, Hw. subst h2.
  destruct h1 as [msg |]; cbn [fst snd].
  - split; [reflexivity | exact Hw].
  - pose proof (update_mute w1 w2 Hw) as Hu. unfold run in Hu.
    destruct (update w1) as [[] v1]. destruct (update w2) as [[] v2].
    split; [reflexivity | exact Hu].
Qed.

(** ** A pick and a STOP in the same pass *)

(** X19. [handle] runs the scheduler only after the dispatcher has gone
    through the whole queue, so a PICK packet that is followed by a STOP in
    the same call is never executed, even if it is already due: the call
    ends with the buffer empty and scheduling off, without a driver call,
    whether the pick found room in the buffer or not. *)
Theorem stop_cancels_a_pick_of_the_same_pass (w : World)
  (t a d0 d1 d2 d3 : byte) (rest : list byte) :
  rx w = xbb :: t :: a :: d0 :: d1 :: d2 :: d3 :: xee :: rest ->
  not_framed rest ->
  let w' := run handle w in
  fst (handle w) = None /\
  commandCount (rc w') = 0 /\
  syncReceived (rc w') = false /\
  moves w' = moves w /\
  servo w' = servo w /\
  rx w' = rest.
Proof.
  intros Hrx Hnf w'.
  assert (Hparse :
            exists w2, parseSerialData w = (None, w2) /\
                       commandCount (rc w2) = 0 /\
                       syncReceived (rc w2) = false /\
                       moves w2 = moves w /\ servo w2 = servo w /\
                       rx w2 = rest).
  { rewrite parseSerialData_unfold, Hrx.
    destruct (Z_lt_le_dec (commandCount (rc w)) MAX_COMMANDS) as [Hc | Hc].
    - rewrite (parse_pick w _ _ _ _ _ _ _ Hrx Hc).
      match goal with |- context [parseSerialData ?v] => set (w1 := v) end.
      rewrite (parseSerialData_unfold w1).
      assert (Hrx1 : rx w1 = xee :: rest) by reflexivity.
      rewrite Hrx1, (parse_stop w1 rest Hrx1).
      match goal with |- context [parseSerialData ?v] => set (w2 := v) end.
      exists w2. split; [apply parseSerialData_not_framed; exact Hnf |].
      repeat split.
    - rewrite (parse_pick_full w _ _ _ _ _ _ _ Hrx Hc).
      match goal with |- context [parseSerialData ?v] => set (w1 := v) end.
      rewrite (parseSerialData_unfold w1).
      assert (Hrx1 : rx w1 = xee :: rest) by reflexivity.
      rewrite Hrx1, (parse_stop w1 rest Hrx1).
      match goal with |- context [parseSerialData ?v] => set (w2 := v) end.
      exists w2. split; [apply parseSerialData_not_framed; exact Hnf |].
      repeat split. }
  destruct Hparse as (w2 & Hp & H1 & H2 & H3 & H4 & H5).
  assert (Hw' : handle w = (None, w2)).
  { unfold handle, bind. rewrite Hp, (update_idle w2 H2). reflexivity. }
  unfold w', run. rewrite Hw'. cbn [fst snd]. repeat split; assumption.
Qed.

Lemma stop_cancels_a_pick_of_the_same_pass_witness :
  let w := world (steps (power_on [no_command] 0)
                    [Begin [0x40] 1 false;
                     Receive [xaa; x01; x00; x00; x00; x00]; Round;
                     Elapse 3000;
                     Receive [xbb; x03; x5a; x0a; x00; x00; x00; xee]]) in
  (rx w = xbb :: x03 :: x5a :: x0a :: x00 :: x00 :: x00 :: xee :: [] /\
   syncReceived (rc w) = true /\
   due w (pick_command x03 x5a x0a x00 x00 x00) = true) /\
  moves (run handle w) = [] /\
  syncReceived (rc (run handle w)) = false /\
  commandCount (rc (run handle w)) = 0.
Proof.
  intro w.
  assert (Hrx : rx w = xbb :: x03 :: x5a :: x0a :: x00 :: x00 :: x00 :: xee :: [])
    by (vm_compute; reflexivity).
  destruct (stop_cancels_a_pick_of_the_same_pass w x03 x5a x0a x00 x00 x00 []
              Hrx I) as (_ & H1 & H2 & H3 & _).
  split; [split; [exact Hrx | split; vm_compute; reflexivity] |].
  split; [rewrite H3; vm_compute; reflexivity |].
  split; [exact H2 | exact H1].
Defined.
